(** * Data initialisation and data migrations of the API database

    A shallow embedding of [mlrun/api/initial_data.py]: the resolution of the
    current data version, the data migrations of version 1 (project state
    enrichment, removal of duplicated artifact tags, truncation of large
    dataset previews) and the sequencing done by [init_data].

    Python values are embedded as a small universe of JSON-like documents,
    exceptions as a type tag with a message, and the code that talks to the
    database as functions from a store to a run: the store it leaves, the
    events it emitted (log lines, calls to external collaborators, database
    writes) and either a result or the exception that escaped. *)

From Stdlib Require Import ZArith String Ascii List Bool Lia.
From Stdlib Require Import DecimalString DecimalZ.
From stdpp Require Import base option list gmap strings fin_maps.

Set Warnings "-register-all".

Local Open Scope string_scope.
Local Open Scope Z_scope.
Local Open Scope list_scope.

(** ** Exceptions and results *)

Inductive ExcType : Type :=
| OperationalError      (* sqlalchemy.exc.OperationalError *)
| MLRunNotFoundError    (* mlrun.errors.MLRunNotFoundError *)
| TypeError
| KeyError
| AttributeError
| ValueError
| IndexError
| RuntimeError.

#[global] Instance ExcType_eq_dec : EqDecision ExcType.
Proof. solve_decision. Defined.

(** An exception: its class and [str(exc)]. *)
Record PyExc : Type := mkExc { exc_type : ExcType; exc_str : string }.

#[global] Instance PyExc_eq_dec : EqDecision PyExc.
Proof. solve_decision. Defined.

Inductive PyResult (A : Type) : Type :=
| Ok (a : A)
| Raise (e : PyExc).
Arguments Ok {A} a.
Arguments Raise {A} e.

#[global] Instance PyResult_ret : MRet PyResult := λ A a, Ok a.
#[global] Instance PyResult_bind : MBind PyResult :=
  λ A B f r, match r with Ok a => f a | Raise e => Raise e end.

Definition is_ok {A} (r : PyResult A) : bool :=
  match r with Ok _ => true | Raise _ => false end.

(** ** Strings *)

(** [needle in haystack] on Python strings. *)
Fixpoint str_contains (needle haystack : string) : bool :=
  String.prefix needle haystack
  || match haystack with
     | EmptyString => false
     | String _ rest => str_contains needle rest
     end.

Fixpoint str_take (n : nat) (s : string) : string :=
  match n, s with
  | S n', String c rest => String c (str_take n' rest)
  | _, _ => EmptyString
  end.

Fixpoint str_drop (n : nat) (s : string) : string :=
  match n, s with
  | S n', String _ rest => str_drop n' rest
  | _, _ => s
  end.

Fixpoint str_chars (s : string) : list string :=
  match s with
  | EmptyString => []
  | String c rest => String c EmptyString :: str_chars rest
  end.

(** *** [int(text)] and [str(integer)]

    Texts are ASCII texts here.  [py_int] is Python's [int] on such a text:
    the blanks around the number are dropped (the space and the characters
    of codes 9 to 13), one sign is allowed, the digits are decimal and may be
    separated by single underscores.  Anything else is the [ValueError] of
    Python, whose message ends with [repr(text)].  Python also reads decimal
    digits and blanks that are not ASCII; a text with such characters is
    outside of what is modelled. *)

Definition is_py_space (c : ascii) : bool :=
  let n := nat_of_ascii c in
  ((9 <=? n) && (n <=? 13) || (n =? 32))%nat.

Definition is_py_digit (c : ascii) : bool :=
  let n := nat_of_ascii c in ((48 <=? n) && (n <=? 57))%nat.

Fixpoint lstrip (s : string) : string :=
  match s with
  | String c rest => if is_py_space c then lstrip rest else s
  | EmptyString => EmptyString
  end.

Fixpoint rstrip (s : string) : string :=
  match s with
  | EmptyString => EmptyString
  | String c rest =>
      match rstrip rest with
      | EmptyString => if is_py_space c then EmptyString else String c EmptyString
      | r => String c r
      end
  end.

(** Digits of a numeral, most significant first, [acc] being the value read so
    far; [after_digit] tells whether an underscore may come next. *)
Fixpoint py_digits (after_digit : bool) (acc : Z) (s : string) : option Z :=
  match s with
  | EmptyString => if after_digit then Some acc else None
  | String c rest =>
      if is_py_digit c
      then py_digits true (10 * acc + (Z.of_nat (nat_of_ascii c) - 48)) rest
      else if Ascii.eqb c "_" && after_digit
           then match rest with
                | String d _ => if is_py_digit d then py_digits false acc rest else None
                | EmptyString => None
                end
           else None
  end.

(** [repr(text)]: the text between single quotes, or between double quotes
    when it has a single quote and no double quote; the quote in use and the
    backslash are escaped, as are the characters that do not print. *)
Definition double_quote : ascii := "034"%char.

Definition hex_digit (n : nat) : ascii :=
  match String.get n "0123456789abcdef" with
  | Some c => c
  | None => "0"%char
  end.

Fixpoint str_has (c : ascii) (s : string) : bool :=
  match s with
  | EmptyString => false
  | String c' rest => Ascii.eqb c c' || str_has c rest
  end.

Definition py_repr_char (quote c : ascii) : string :=
  let n := nat_of_ascii c in
  if Ascii.eqb c quote || Ascii.eqb c "\"%char then String "\" (String c EmptyString)
  else if (n =? 9)%nat then "\t"
  else if (n =? 10)%nat then "\n"
  else if (n =? 13)%nat then "\r"
  else if ((n <? 32) || (127 <=? n))%nat
       then String "\" (String "x" (String (hex_digit (n / 16)%nat)
                                       (String (hex_digit (n mod 16)%nat) EmptyString)))
       else String c EmptyString.

Fixpoint py_repr_chars (quote : ascii) (s : string) : string :=
  match s with
  | EmptyString => String quote EmptyString
  | String c rest => (py_repr_char quote c ++ py_repr_chars quote rest)%string
  end.

Definition py_repr (text : string) : string :=
  let quote :=
    if str_has "'" text && negb (str_has double_quote text) then double_quote else "'"%char in
  String quote (py_repr_chars quote text).

Definition py_int (text : string) : PyResult Z :=
  let body := rstrip (lstrip text) in
  let parsed :=
    match body with
    | String "-" rest => Z.opp <$> py_digits false 0 rest
    | String "+" rest => py_digits false 0 rest
    | _ => py_digits false 0 body
    end in
  match parsed with
  | Some z => Ok z
  | None =>
      Raise (mkExc ValueError ("invalid literal for int() with base 10: " ++ py_repr text)%string)
  end.

Definition py_str (z : Z) : string := NilZero.string_of_int (Z.to_int z).

(** ** Python values

    The payload of an artifact is a document built from [None], booleans,
    integers, text, lists and dictionaries with text keys.  A dictionary is
    kept as the list of its items in insertion order, each key once. *)

Inductive value : Type :=
| VNone
| VBool (b : bool)
| VInt (z : Z)
| VStr (s : string)
| VList (l : list value)
| VDict (d : list (string * value)).

Definition TypeError_ (msg : string) : PyExc := mkExc TypeError msg.

(** *** Dictionaries as item lists *)

Fixpoint dict_lookup {A} (k : string) (d : list (string * A)) : option A :=
  match d with
  | [] => None
  | (k', v) :: rest => if String.eqb k k' then Some v else dict_lookup k rest
  end.

Definition dict_has {A} (k : string) (d : list (string * A)) : bool :=
  bool_decide (is_Some (dict_lookup k d)).

(** [d[k] = v]: the value of an existing key is replaced in place, a new key
    goes to the end. *)
Fixpoint dict_set {A} (k : string) (v : A) (d : list (string * A)) : list (string * A) :=
  match d with
  | [] => [(k, v)]
  | (k', v') :: rest =>
      if String.eqb k k' then (k, v) :: rest else (k', v') :: dict_set k v rest
  end.

(** [del d[k]] *)
Definition dict_del {A} (k : string) (d : list (string * A)) : list (string * A) :=
  List.filter (λ kv, negb (String.eqb k kv.1)) d.

(** *** Truth value, equality, length *)

Definition py_truthy (v : value) : bool :=
  match v with
  | VNone => false
  | VBool b => b
  | VInt z => negb (z =? 0)
  | VStr s => negb (String.eqb s "")
  | VList l => negb (bool_decide (l = []))
  | VDict d => negb (bool_decide (d = []))
  end.

(** [a == b]; a boolean equals the integer 0 or 1, two dictionaries are equal
    when they have the same keys with equal values, in any order. *)
Fixpoint py_eq (a b : value) {struct a} : bool :=
  match a, b with
  | VNone, VNone => true
  | VBool x, VBool y => Bool.eqb x y
  | VBool x, VInt y => y =? (if x then 1 else 0)
  | VInt x, VBool y => x =? (if y then 1 else 0)
  | VInt x, VInt y => x =? y
  | VStr x, VStr y => String.eqb x y
  | VList xs, VList ys =>
      (fix go (xs ys : list value) {struct xs} : bool :=
         match xs, ys with
         | [], [] => true
         | x :: xs', y :: ys' => py_eq x y && go xs' ys'
         | _, _ => false
         end) xs ys
  | VDict xs, VDict ys =>
      (length xs =? length ys)%nat
      && (fix go (xs : list (string * value)) {struct xs} : bool :=
            match xs with
            | [] => true
            | (k, v) :: xs' =>
                match dict_lookup k ys with
                | Some w => py_eq v w
                | None => false
                end && go xs'
            end) xs
  | _, _ => false
  end.

(** [len(v)] *)
Definition py_len (v : value) : PyResult nat :=
  match v with
  | VStr s => Ok (String.length s)
  | VList l => Ok (length l)
  | VDict d => Ok (length d)
  | _ => Raise (TypeError_ "object has no len()")
  end.

(** [v[:n]] and [v[n:]] for a count [n] that is not negative. *)
Definition py_slice_to (n : nat) (v : value) : PyResult value :=
  match v with
  | VStr s => Ok (VStr (str_take n s))
  | VList l => Ok (VList (take n l))
  | VDict _ => Raise (TypeError_ "unhashable type: 'slice'")
  | _ => Raise (TypeError_ "object is not subscriptable")
  end.

Definition py_slice_from (n : nat) (v : value) : PyResult value :=
  match v with
  | VStr s => Ok (VStr (str_drop n s))
  | VList l => Ok (VList (drop n l))
  | VDict _ => Raise (TypeError_ "unhashable type: 'slice'")
  | _ => Raise (TypeError_ "object is not subscriptable")
  end.

(** The items a [for] loop over [v] goes through. *)
Definition py_iter (v : value) : PyResult (list value) :=
  match v with
  | VStr s => Ok (VStr <$> str_chars s)
  | VList l => Ok l
  | VDict d => Ok ((λ kv, VStr kv.1) <$> d)
  | _ => Raise (TypeError_ "object is not iterable")
  end.

(** [x in container] *)
Definition py_in (x container : value) : PyResult bool :=
  match container with
  | VList l => Ok (existsb (py_eq x) l)
  | VStr s =>
      match x with
      | VStr n => Ok (str_contains n s)
      | _ => Raise (TypeError_ "'in <string>' requires string as left operand")
      end
  | VDict d =>
      match x with
      | VStr k => Ok (dict_has k d)
      | VList _ => Raise (TypeError_ "unhashable type: 'list'")
      | VDict _ => Raise (TypeError_ "unhashable type: 'dict'")
      | _ => Ok false
      end
  | _ => Raise (TypeError_ "argument is not iterable")
  end.

(** [v.get(k, default)]: only dictionaries have [get]. *)
Definition py_get (v : value) (k : string) (default : value) : PyResult value :=
  match v with
  | VDict d => Ok (from_option id default (dict_lookup k d))
  | _ => Raise (mkExc AttributeError "object has no attribute 'get'")
  end.

(** [container[k]] for a text key [k]. *)
Definition py_getitem (container : value) (k : string) : PyResult value :=
  match container with
  | VDict d =>
      match dict_lookup k d with
      | Some v => Ok v
      | None => Raise (mkExc KeyError k)
      end
  | VList _ => Raise (TypeError_ "list indices must be integers or slices, not str")
  | VStr _ => Raise (TypeError_ "string indices must be integers")
  | _ => Raise (TypeError_ "object is not subscriptable")
  end.

(** [container[k] = v] for a text key [k]. *)
Definition py_setitem (container : value) (k : string) (v : value) : PyResult value :=
  match container with
  | VDict d => Ok (VDict (dict_set k v d))
  | VList _ => Raise (TypeError_ "list indices must be integers or slices, not str")
  | _ => Raise (TypeError_ "object does not support item assignment")
  end.

(** Position meant by the index [i] in a sequence of [len] items. *)
Definition py_index (i : Z) (len : nat) : option nat :=
  let j := if i <? 0 then i + Z.of_nat len else i in
  if (0 <=? j) && (j <? Z.of_nat len) then Some (Z.to_nat j) else None.

(** [del container[key]] *)
Definition py_delitem (container key : value) : PyResult value :=
  match container with
  | VDict d =>
      match key with
      | VStr k =>
          if dict_has k d then Ok (VDict (dict_del k d)) else Raise (mkExc KeyError k)
      | VList _ => Raise (TypeError_ "unhashable type: 'list'")
      | VDict _ => Raise (TypeError_ "unhashable type: 'dict'")
      | _ => Raise (mkExc KeyError "")
      end
  | VList l =>
      let at_index (i : Z) :=
        match py_index i (length l) with
        | Some j => Ok (VList (delete j l))
        | None => Raise (mkExc IndexError "list assignment index out of range")
        end in
      match key with
      | VInt i => at_index i
      | VBool b => at_index (if b then 1 else 0)
      | _ => Raise (TypeError_ "list indices must be integers or slices")
      end
  | _ => Raise (TypeError_ "object doesn't support item deletion")
  end.

(** ** The store *)

(** Modelled from the spec: the project-state enumeration of the platform
    ([mlrun.api.schemas.ProjectState]) is not among the sources; the spec
    names its canonical online value, the other members stand for the states a
    project can otherwise be in.  Every member is a non-empty text, hence
    true in a condition. *)
Inductive ProjectState : Type := online | offline | archived.

#[global] Instance ProjectState_eq_dec : EqDecision ProjectState.
Proof. solve_decision. Defined.

(** What the store keeps for a project beside its name. *)
Record ProjectRow : Type := mkProjectRow {
  row_desired_state : option ProjectState;
  row_state : option ProjectState
}.

#[global] Instance ProjectRow_eq_dec : EqDecision ProjectRow.
Proof. solve_decision. Defined.

(** A project as [list_projects] hands it out. *)
Record Project : Type := mkProject {
  metadata_name : string;
  spec_desired_state : option ProjectState;
  status_state : option ProjectState
}.

(** Time stamps count from [datetime.datetime.min], which is [0]. *)
Definition datetime : Type := N.
Definition datetime_min : datetime := 0%N.

Record Artifact : Type := mkArtifact {
  art_id : nat;
  art_project : string;
  art_key : string;
  art_uid : string;
  art_updated : option datetime;
  art_struct : value
}.

Record Tag : Type := mkTag {
  tag_id : nat;
  tag_project : string;
  tag_name : string;
  tag_obj_id : nat
}.

#[global] Instance Tag_eq_dec : EqDecision Tag.
Proof. solve_decision. Defined.

(** A table either answers, or every access to it fails with an
    [OperationalError] of the database driver whose text is [reason] (the
    table does not exist, the database cannot be reached). *)
Inductive Table (A : Type) : Type :=
| Unavailable (reason : string)
| Rows (a : A).
Arguments Unavailable {A} reason.
Arguments Rows {A} a.

Definition operational_error (reason : string) : PyExc := mkExc OperationalError reason.
Definition not_found (what : string) : PyExc := mkExc MLRunNotFoundError what.

Record Store : Type := mkStore {
  data_version : Table (option string);
  projects : Table (gmap string ProjectRow);
  artifacts : list Artifact;
  tags : list Tag;
  marketplace_sources : list string
}.

(** ** Events and runs *)

Inductive Level : Type := Debug | Info | Warning.

Inductive LogArg : Type :=
| AText (s : string)
| AInt (z : Z)
| AExc (e : PyExc)
| AValue (v : value)
| ATag (t : Tag)
| ATags (l : list Tag)
| AArtifacts (l : list Artifact).

Inductive Write : Type :=
| WDataVersion (v : string)
| WProject (name : string) (p : Project)
| WDeleteTag (t : Tag)
| WArtifact (project key uid : string) (body : value)
| WMarketplaceSource (name : string).

Inductive ExternalCall : Type :=
| CallAlembic (config_file : string) (data_is_latest use_backups : bool)
| CallTransfer
| CallInitDb.

Inductive Event : Type :=
| Log (lvl : Level) (msg : string) (kwargs : list (string * LogArg))
| Call (c : ExternalCall)
| Wrote (w : Write).

Record Run (A : Type) : Type := mkRun {
  final : Store;
  emitted : list Event;
  outcome : PyResult A
}.
Arguments mkRun {A} final emitted outcome.
Arguments final {A} r.
Arguments emitted {A} r.
Arguments outcome {A} r.

Definition M (A : Type) : Type := Store → Run A.

#[global] Instance M_ret : MRet M := λ A a s, mkRun s [] (Ok a).
#[global] Instance M_bind : MBind M := λ A B f m s,
  let r := m s in
  match outcome r with
  | Ok a => let r' := f a (final r) in
            mkRun (final r') (emitted r ++ emitted r') (outcome r')
  | Raise e => mkRun (final r) (emitted r) (Raise e)
  end.

Definition raise {A} (e : PyExc) : M A := λ s, mkRun s [] (Raise e).
Definition emit (ev : Event) : M unit := λ s, mkRun s [ev] (Ok tt).
Definition logger (lvl : Level) (msg : string) (kwargs : list (string * LogArg)) : M unit :=
  emit (Log lvl msg kwargs).
Definition lift {A} (r : PyResult A) : M A := λ s, mkRun s [] r.
Definition get_store : M Store := λ s, mkRun s [] (Ok s).
Definition put_store (s' : Store) : M unit := λ _, mkRun s' [] (Ok tt).

(** [try: body except Exception as exc: handler(exc)]; a handler that
    re-raises gives the clauses that catch some classes only. *)
Definition try_except {A} (body : M A) (handler : PyExc → M A) : M A := λ s,
  let r := body s in
  match outcome r with
  | Ok a => r
  | Raise e => let r' := handler e (final r) in
               mkRun (final r') (emitted r ++ emitted r') (outcome r')
  end.

(** [try: body finally: cleanup] *)
Definition try_finally {A} (body : M A) (cleanup : M unit) : M A := λ s,
  let r := body s in
  let c := cleanup (final r) in
  mkRun (final c) (emitted r ++ emitted c)
        (match outcome c with Ok _ => outcome r | Raise e => Raise e end).

(** [for x in l: body(x)] *)
Fixpoint for_each {A} (l : list A) (body : A → M unit) : M unit :=
  match l with
  | [] => mret tt
  | x :: rest => body x ;; for_each rest body
  end.

Definition when (b : bool) (m : M unit) : M unit := if b then m else mret tt.

Fixpoint fold_m {A B} (f : B → A → M B) (l : list A) (acc : B) : M B :=
  match l with
  | [] => mret acc
  | x :: rest => acc' ← f acc x; fold_m f rest acc'
  end.

(** ** The database layer

    Modelled from the spec: the methods of [mlrun.api.db.sqldb.db.SQLDB] and
    of the session that [initial_data.py] calls are not among the sources.
    They follow the spec's VersionStore contract and persisted state layout:
    reading the marker gives the stored text, or fails because the table is
    not there or cannot be reached (an operational error) or because the row
    is missing (not found); writing the marker replaces the single row;
    projects, artifacts and tags are read as full snapshots.

    The listings of the artifacts and of the tags are those of a store that
    answers: [artifacts s] and [tags s] are what they return.  A store that
    cannot be reached for them is not modelled; both repair passes list
    outside of any [try], so that failure would escape a pass before its
    loops, and what is stated of a pass is stated of its run once the
    listings have returned. *)

Definition get_current_data_version (raise_on_not_found : bool) : M (option string) :=
  s ← get_store;
  match data_version s with
  | Unavailable reason => raise (operational_error reason)
  | Rows (Some v) => mret (Some v)
  | Rows None =>
      if raise_on_not_found
      then raise (not_found "No data version found")
      else mret None
  end.

Definition set_data_version (v : string) (s : Store) : Store :=
  mkStore (Rows (Some v)) (projects s) (artifacts s) (tags s) (marketplace_sources s).

Definition create_data_version (v : string) : M unit :=
  s ← get_store;
  match data_version s with
  | Unavailable reason => raise (operational_error reason)
  | Rows _ => put_store (set_data_version v s) ;; emit (Wrote (WDataVersion v))
  end.

Definition project_of_row (kv : string * ProjectRow) : Project :=
  mkProject kv.1 (row_desired_state kv.2) (row_state kv.2).

Definition row_of_project (p : Project) : ProjectRow :=
  mkProjectRow (spec_desired_state p) (status_state p).

(** [db.list_projects(db_session).projects] *)
Definition list_projects : M (list Project) :=
  s ← get_store;
  match projects s with
  | Unavailable reason => raise (operational_error reason)
  | Rows m => mret (project_of_row <$> map_to_list m)
  end.

Definition set_projects (m : gmap string ProjectRow) (s : Store) : Store :=
  mkStore (data_version s) (Rows m) (artifacts s) (tags s) (marketplace_sources s).

Definition store_project (name : string) (p : Project) : M unit :=
  s ← get_store;
  match projects s with
  | Unavailable reason => raise (operational_error reason)
  | Rows m => put_store (set_projects (<[name := row_of_project p]> m) s) ;;
              emit (Wrote (WProject name p))
  end.

(** [db._find_artifacts(db_session, None, "*")] *)
Definition _find_artifacts : M (list Artifact) := s ← get_store; mret (artifacts s).

(** [db._query(db_session, Artifact.Tag).all()] *)
Definition query_tags : M (list Tag) := s ← get_store; mret (tags s).

Definition remove_tag (t : Tag) (s : Store) : Store :=
  mkStore (data_version s) (projects s) (artifacts s)
          (List.filter (λ t', negb (Nat.eqb (tag_id t') (tag_id t))) (tags s))
          (marketplace_sources s).

(** [db_session.delete(tag)]: the row of that identity goes away. *)
Definition session_delete (t : Tag) : M unit :=
  s ← get_store; put_store (remove_tag t s) ;; emit (Wrote (WDeleteTag t)).

Definition same_artifact (project key uid : string) (a : Artifact) : bool :=
  String.eqb (art_project a) project && String.eqb (art_key a) key
  && String.eqb (art_uid a) uid.

Definition set_artifact_body (project key uid : string) (body : value) (s : Store) : Store :=
  mkStore (data_version s) (projects s)
          ((λ a, if same_artifact project key uid a
                 then mkArtifact (art_id a) (art_project a) (art_key a) (art_uid a)
                                 (art_updated a) body
                 else a) <$> artifacts s)
          (tags s) (marketplace_sources s).

(** [db._store_artifact(db_session, key, body, uid, project=project,
    tag_artifact=False)]: the payload of the artifact of that project, key
    and uid is rewritten; no tag is made or moved. *)
Definition _store_artifact (key : string) (body : value) (uid project : string) : M unit :=
  s ← get_store; put_store (set_artifact_body project key uid body s) ;;
  emit (Wrote (WArtifact project key uid body)).

Definition get_marketplace_source (name : string) : M string :=
  s ← get_store;
  if bool_decide (name ∈ marketplace_sources s)
  then mret name
  else raise (not_found ("Marketplace source not found: " ++ name)%string).

Definition add_marketplace_source (name : string) (s : Store) : Store :=
  mkStore (data_version s) (projects s) (artifacts s) (tags s)
          (marketplace_sources s ++ [name]).

(** [db_session.add(hub_record); db_session.commit()] *)
Definition session_add_source (name : string) : M unit :=
  s ← get_store; put_store (add_marketplace_source name s) ;;
  emit (Wrote (WMarketplaceSource name)).

(** The part of [mlrun.config.config] that is read here. *)
Record Config : Type := mkConfig {
  mysql_dsn_data : bool;              (* MySQLUtil.get_mysql_dsn_data() is set *)
  database_backup_mode : string;      (* httpdb.db.database_backup_mode *)
  database_migration_mode : string;   (* httpdb.db.database_migration_mode *)
  data_migrations_mode : string;      (* httpdb.db.data_migrations_mode *)
  default_source_name : string;       (* marketplace.default_source.name *)
  default_source_create : bool        (* marketplace.default_source.create *)
}.

(** Modelled from the spec: [MarketplaceSource.generate_default_source] is
    not among the sources; the default source carries the configured name and
    there is none when the configuration says not to create it. *)
Definition generate_default_source (config : Config) : option string :=
  if default_source_create config then Some (default_source_name config) else None.

(** Modelled from the spec: [mlrun.artifacts.DatasetArtifact.kind], the kind a
    dataset artifact declares in its payload. *)
Definition DatasetArtifact_kind : string := "dataset".

(** ** [initial_data.py] *)

Definition data_version_prior_to_table_addition : Z := 1.
Definition latest_data_version : Z := 1.

(** [int(db.get_current_data_version(...))] *)
Definition int_of_marker (v : option string) : PyResult Z :=
  match v with
  | Some text => py_int text
  | None => Raise (TypeError_ "int() argument must be a string, a bytes-like object or a real number, not 'NoneType'")
  end.

(** [isinstance(e, t)] for the classes above, none of which derives from
    another. *)
Definition is_exc (t : ExcType) (e : PyExc) : bool :=
  match t, exc_type e with
  | OperationalError, OperationalError
  | MLRunNotFoundError, MLRunNotFoundError
  | TypeError, TypeError
  | KeyError, KeyError
  | AttributeError, AttributeError
  | ValueError, ValueError
  | IndexError, IndexError
  | RuntimeError, RuntimeError => true
  | _, _ => false
  end.

Definition _resolve_current_data_version : M Z :=
  try_except
    (v ← get_current_data_version true; lift (int_of_marker v))
    (λ exc,
       if negb (is_exc OperationalError exc || is_exc MLRunNotFoundError exc)
       then raise exc
       else
         projects ← try_except
           (ps ← list_projects; mret (Some ps))
           (λ e, if is_exc OperationalError e then mret None else raise e);
         (* heuristic - if there are no projects it's a new DB - data version is latest *)
         if match projects with None => true | Some ps => bool_decide (ps = []) end
         then
           logger Info "No projects in DB, assuming latest data version"
                  [("exc", AExc exc); ("latest_data_version", AInt latest_data_version)] ;;
           mret latest_data_version
         else if str_contains "no such table" (exc_str exc)
         then
           logger Info "Data version table does not exist, assuming prior version"
                  [("exc", AExc exc);
                   ("data_version_prior_to_table_addition",
                    AInt data_version_prior_to_table_addition)] ;;
           mret data_version_prior_to_table_addition
         else if is_exc MLRunNotFoundError exc
         then
           logger Info "Data version table exist without version, assuming prior version"
                  [("exc", AExc exc);
                   ("data_version_prior_to_table_addition",
                    AInt data_version_prior_to_table_addition)] ;;
           mret data_version_prior_to_table_addition
         else raise exc).

(** [create_session] and [close_session] leave the store as it is. *)
Definition close_session : M unit := mret tt.

Definition _is_latest_data_version : M bool :=
  current_data_version ← try_finally _resolve_current_data_version close_session;
  mret (current_data_version =? latest_data_version).

(** [_add_default_marketplace_source_if_needed] *)
Definition _add_default_marketplace_source_if_needed (config : Config) : M unit :=
  hub_marketplace_source ← try_except
    (src ← get_marketplace_source (default_source_name config); mret (Some src))
    (λ e, if is_exc MLRunNotFoundError e then mret None else raise e);
  match hub_marketplace_source with
  | Some _ => mret tt
  | None =>
      match generate_default_source config with
      | Some hub_source =>
          logger Info "Adding default marketplace source" [] ;;
          session_add_source hub_source
      | None => logger Info "Not adding default marketplace source, per configuration" []
      end
  end.

(** [_add_data_version]; the version goes to a text column, an integer is
    kept there as its decimal text. *)
Definition _add_data_version : M unit :=
  current ← get_current_data_version false;
  match current with
  | Some _ => mret tt
  | None =>
      data_version ← _resolve_current_data_version;
      logger Info "No data version, setting data version"
             [("data_version", AInt data_version)] ;;
      create_data_version (py_str data_version)
  end.

Definition _add_initial_data (config : Config) : M unit :=
  _add_default_marketplace_source_if_needed config ;;
  _add_data_version.

(** [_enrich_project_state] *)
Definition enrich_project (project : Project) : M unit :=
  let changed := false in
  let '(changed, project) :=
    match spec_desired_state project with
    | None => (true, mkProject (metadata_name project) (Some online) (status_state project))
    | Some _ => (changed, project)
    end in
  let '(changed, project) :=
    match status_state project with
    | None => (true, mkProject (metadata_name project) (spec_desired_state project)
                               (spec_desired_state project))
    | Some _ => (changed, project)
    end in
  when changed
    (logger Debug "Found project without state data. Enriching"
            [("name", AText (metadata_name project))] ;;
     store_project (metadata_name project) project).

Definition _enrich_project_state : M unit :=
  logger Info "Enriching projects state" [] ;;
  projects ← list_projects;
  for_each projects enrich_project.

(** [_find_last_updated_artifact]: the state of its loop is the artifact last
    found, its time and the artifacts met with that same time. *)
Definition last_updated_step
    (acc : option Artifact * datetime * list Artifact) (artifact : Artifact)
  : PyResult (option Artifact * datetime * list Artifact) :=
  let '(last_updated_artifact, last_updated_artifact_time, same_time) := acc in
  match art_updated artifact with
  | None =>
      Raise (TypeError_ "'>' not supported between instances of 'NoneType' and 'datetime.datetime'")
  | Some updated =>
      if (last_updated_artifact_time <? updated)%N
      then Ok (Some artifact, updated, [artifact])
      else if (updated =? last_updated_artifact_time)%N
           then Ok (last_updated_artifact, last_updated_artifact_time, same_time ++ [artifact])
           else Ok acc
  end.

Fixpoint last_updated_loop
    (artifacts : list Artifact) (acc : option Artifact * datetime * list Artifact)
  : PyResult (option Artifact * datetime * list Artifact) :=
  match artifacts with
  | [] => Ok acc
  | artifact :: rest => acc' ← last_updated_step acc artifact; last_updated_loop rest acc'
  end.

Definition _find_last_updated_artifact (artifacts : list Artifact) : M Artifact :=
  match artifacts with
  | [] => raise (mkExc RuntimeError "No artifacts given")
  | first :: _ =>
      '(last_updated_artifact, _, artifacts_with_same_update_time) ←
        lift (last_updated_loop artifacts (None, datetime_min, []));
      when (1 <? length artifacts_with_same_update_time)%nat
        (logger Warning
           "Found several artifact with same update time, heuristically choosing the first"
           [("artifacts", AArtifacts artifacts_with_same_update_time)]) ;;
      match last_updated_artifact with
      | Some a => mret a
      | None =>
          logger Warning "No artifact had update time, heuristically choosing the first"
                 [("artifacts", AArtifacts artifacts)] ;;
          mret first
      end
  end.

(** [_fix_artifact_tags_duplications] *)

(** [{artifact.id: artifact for artifact in artifacts}] *)
Definition artifact_record_id_map (artifacts : list Artifact) : gmap nat Artifact :=
  foldl (λ m artifact, <[art_id artifact := artifact]> m) ∅ artifacts.

(** The items of a set comprehension, each once; Python leaves the order in
    which a set is gone through open, here it is the order of first
    appearance. *)
Fixpoint set_items (l : list string) : list string :=
  match l with
  | [] => []
  | x :: rest => x :: List.filter (λ y, negb (String.eqb x y)) (set_items rest)
  end.

Definition lookup_artifact (m : gmap nat Artifact) (obj_id : nat) : M Artifact :=
  match m !! obj_id with
  | Some a => mret a
  | None => raise (mkExc KeyError (py_str (Z.of_nat obj_id)))
  end.

(** The tags of one artifact key. *)
Definition collect_key_tags (m : gmap nat Artifact) (artifact_key : string)
    (tags : list Tag) : M (list Tag) :=
  fold_m (λ artifact_key_tags tag,
            (* sanity *)
            when (negb (bool_decide (is_Some (m !! tag_obj_id tag))))
              (logger Warning "Found orphan tag, deleting" [("tag", ATag tag)]) ;;
            a ← lookup_artifact m (tag_obj_id tag);
            mret (if String.eqb (art_key a) artifact_key
                  then artifact_key_tags ++ [tag]
                  else artifact_key_tags))
         tags [].

(** [tag_name_tags_map[tag.name].append(tag)] over the tags, the names in the
    order in which they first come. *)
Definition tag_name_tags_map (tags : list Tag) : list (string * list Tag) :=
  foldl (λ d tag, dict_set (tag_name tag)
                    (from_option id [] (dict_lookup (tag_name tag) d) ++ [tag]) d)
        [] tags.

(** The tags of one name to delete: all but those of the last updated artifact. *)
Definition name_tags_to_delete (m : gmap nat Artifact) (_tags : list Tag)
  : M (list Tag) :=
  if (length _tags =? 1)%nat then mret []
  else
    tags_artifacts ← fold_m (λ acc tag, a ← lookup_artifact m (tag_obj_id tag);
                                        mret (acc ++ [a])) _tags [];
    last_updated_artifact ← _find_last_updated_artifact tags_artifacts;
    mret (List.filter
            (λ tag, negb (Nat.eqb (tag_obj_id tag) (art_id last_updated_artifact)))
            _tags).

Definition key_tags_to_delete (m : gmap nat Artifact) (tags : list Tag)
    (tags_to_delete : list Tag) (artifact_key : string) : M (list Tag) :=
  artifact_key_tags ← collect_key_tags m artifact_key tags;
  fold_m (λ tags_to_delete name_tags,
            more ← name_tags_to_delete m name_tags.2;
            mret (tags_to_delete ++ more))
         (tag_name_tags_map artifact_key_tags) tags_to_delete.

Definition project_tags_to_delete (m : gmap nat Artifact) (artifacts : list Artifact)
    (tags : list Tag) (tags_to_delete : list Tag) (project : string) : M (list Tag) :=
  let artifact_keys :=
    set_items (art_key <$> List.filter (λ a, String.eqb (art_project a) project) artifacts) in
  fold_m (key_tags_to_delete m tags) artifact_keys tags_to_delete.

Definition _fix_artifact_tags_duplications : M unit :=
  logger Info "Fixing artifact tags duplications" [] ;;
  (* get all artifacts *)
  artifacts ← _find_artifacts;
  (* get all artifact tags *)
  tags ← query_tags;
  (* artifact record id -> artifact *)
  let m := artifact_record_id_map artifacts in
  let projects := set_items (art_project <$> artifacts) in
  tags_to_delete ← fold_m (project_tags_to_delete m artifacts tags) projects [];
  match tags_to_delete with
  | [] => mret tt
  | _ =>
      logger Info "Found duplicated artifact tags. Removing duplications"
             [("tags_to_delete", ATags tags_to_delete); ("tags", ATags tags);
              ("artifacts", AArtifacts artifacts)] ;;
      for_each tags_to_delete session_delete
  end.

Section Migrations.

(** [mlrun.artifacts.dataset.max_preview_columns], a constant of another module. *)
Variable max_preview_columns : nat.

(** The external collaborators: [AlembicUtil(config_path, data_is_latest)
    .init_alembic(use_backups)], [SQLiteMigrationUtil().transfer()] and
    [init_db].  Each takes the store to the store it leaves and may raise. *)
Variable init_alembic : string → bool → bool → Store → Store * PyResult unit.
Variable transfer : Store → Store * PyResult unit.
Variable init_db : Store → Store * PyResult unit.

Definition external (c : ExternalCall) (f : Store → Store * PyResult unit) : M unit :=
  λ s, mkRun (f s).1 [Call c] (f s).2.

(** [_fix_datasets_large_previews] *)

(** The loop that aligns the preview rows. *)
Definition align_preview_rows (artifact_dict : value) (rows : list value) : M (list value) :=
  fold_m (λ new_preview preview_row,
            (* sanity *)
            n ← lift (py_len preview_row);
            when (n <? max_preview_columns)%nat
              (logger Warning
                 "Found artifact with more than allowed columns in header definition, but preview data is valid. Leaving preview as is"
                 [("artifact", AValue artifact_dict)]) ;;
            row ← lift (py_slice_to max_preview_columns preview_row);
            mret (new_preview ++ [row]))
         rows [].

(** The loop that aligns the stats. *)
Definition align_stats (columns_to_remove : list value) (artifact_dict : value) : M value :=
  fold_m (λ artifact_dict column_to_remove,
            stats ← lift (py_get artifact_dict "stats" (VDict []));
            found ← lift (py_in column_to_remove stats);
            if found : bool
            then stats ← lift (py_getitem artifact_dict "stats");
                 stats ← lift (py_delitem stats column_to_remove);
                 lift (py_setitem artifact_dict "stats" stats)
            else mret artifact_dict)
         columns_to_remove artifact_dict.

(** The loop that aligns the schema fields. *)
Definition align_schema_fields (columns_to_remove : value) (fields : list value)
  : M (list value) :=
  fold_m (λ new_schema_fields field,
            name ← lift (py_get field "name" VNone);
            found ← lift (py_in name columns_to_remove);
            mret (if found : bool then new_schema_fields else new_schema_fields ++ [field]))
         fields [].

(** The body of the [try] for one artifact. *)
Definition fix_dataset_large_preview (artifact : Artifact) : M unit :=
  let artifact_dict := art_struct artifact in
  is_dataset ←
    (if py_truthy artifact_dict
     then kind ← lift (py_get artifact_dict "kind" VNone);
          mret (py_eq kind (VStr DatasetArtifact_kind))
     else mret false);
  when is_dataset
    (header ← lift (py_get artifact_dict "header" (VList []));
     too_wide ←
       (if py_truthy header
        then n ← lift (py_len header); mret (max_preview_columns <? n)%nat
        else mret false);
     when too_wide
       (logger Debug
          "Found dataset artifact with more than allowed columns in preview fields. Fixing"
          [("artifact", AValue artifact_dict)] ;;
        columns_to_remove ← lift (py_slice_from max_preview_columns header);
        (* align preview *)
        preview ← lift (py_get artifact_dict "preview" VNone);
        artifact_dict ←
          (if py_truthy preview
           then preview ← lift (py_getitem artifact_dict "preview");
                rows ← lift (py_iter preview);
                new_preview ← align_preview_rows artifact_dict rows;
                lift (py_setitem artifact_dict "preview" (VList new_preview))
           else mret artifact_dict);
        (* align stats *)
        columns ← lift (py_iter columns_to_remove);
        artifact_dict ← align_stats columns artifact_dict;
        (* align schema *)
        schema ← lift (py_get artifact_dict "schema" (VDict []));
        fields ← lift (py_get schema "fields" VNone);
        artifact_dict ←
          (if py_truthy fields
           then schema ← lift (py_getitem artifact_dict "schema");
                fields ← lift (py_getitem schema "fields");
                fields ← lift (py_iter fields);
                new_schema_fields ← align_schema_fields columns_to_remove fields;
                schema ← lift (py_setitem schema "fields" (VList new_schema_fields));
                lift (py_setitem artifact_dict "schema" schema)
           else mret artifact_dict);
        (* lastly, align headers *)
        new_header ← lift (py_slice_to max_preview_columns header);
        artifact_dict ← lift (py_setitem artifact_dict "header" new_header);
        logger Debug "Fixed dataset artifact preview fields. Storing"
               [("artifact", AValue artifact_dict)] ;;
        _store_artifact (art_key artifact) artifact_dict (art_uid artifact)
                        (art_project artifact))).

(** One turn of the loop over the artifacts: the [try] and its [except]. *)
Definition fix_or_continue (artifact : Artifact) : M unit :=
  try_except (fix_dataset_large_preview artifact)
    (λ exc, logger Warning "Failed fixing dataset artifact large preview. Continuing"
                   [("exc", AExc exc)]).

Definition _fix_datasets_large_previews : M unit :=
  logger Info "Fixing datasets large previews" [] ;;
  (* get all artifacts *)
  artifacts ← _find_artifacts;
  for_each artifacts fix_or_continue.

Definition _perform_version_1_data_migrations : M unit :=
  _enrich_project_state ;;
  _fix_artifact_tags_duplications ;;
  _fix_datasets_large_previews.

Definition _perform_data_migrations (config : Config) : M unit :=
  when (String.eqb (data_migrations_mode config) "enabled")
    (v ← get_current_data_version true;
     current_data_version ← lift (int_of_marker v);
     when (negb (current_data_version =? latest_data_version))
       (logger Info "Performing data migrations"
               [("current_data_version", AInt current_data_version);
                ("latest_data_version", AInt latest_data_version)] ;;
        when (current_data_version <? 1) _perform_version_1_data_migrations ;;
        create_data_version (py_str latest_data_version))).

Definition _perform_schema_migrations (config : Config) : M unit :=
  let alembic_config_file_name :=
    if mysql_dsn_data config then "alembic_mysql.ini" else "alembic.ini" in
  data_is_latest ← _is_latest_data_version;
  let use_backups := String.eqb (database_backup_mode config) "enabled" in
  external (CallAlembic alembic_config_file_name data_is_latest use_backups)
           (init_alembic alembic_config_file_name data_is_latest use_backups).

Definition _perform_database_migration (config : Config) (from_scratch : bool) : M unit :=
  when (negb from_scratch && String.eqb (database_migration_mode config) "enabled")
    (external CallTransfer transfer).

Definition init_data (config : Config) (from_scratch : bool) : M unit :=
  logger Info "Creating initial data" [] ;;
  _perform_schema_migrations config ;;
  _perform_database_migration config from_scratch ;;
  try_finally
    (external CallInitDb init_db ;;
     _add_initial_data config ;;
     _perform_data_migrations config)
    close_session ;;
  logger Info "Initial data created" [].

End Migrations.

(** * Vocabulary of the statements *)

(** The exception with which reading the marker fails, if it does. *)
Definition marker_failure (s : Store) : option PyExc :=
  match data_version s with
  | Unavailable reason => Some (operational_error reason)
  | Rows None => Some (not_found "No data version found")
  | Rows (Some _) => None
  end.

(** The number of projects, when the listing can be evaluated. *)
Definition project_count (s : Store) : option nat :=
  match projects s with
  | Unavailable _ => None
  | Rows m => Some (size m)
  end.

Definition log_no_projects (exc : PyExc) : Event :=
  Log Info "No projects in DB, assuming latest data version"
      [("exc", AExc exc); ("latest_data_version", AInt latest_data_version)].

Definition log_prior_version (msg : string) (exc : PyExc) : Event :=
  Log Info msg
      [("exc", AExc exc);
       ("data_version_prior_to_table_addition", AInt data_version_prior_to_table_addition)].

(** ** Stores and configurations used as examples *)

Definition no_table : string :=
  "(sqlite3.OperationalError) no such table: data_versions".

Definition one_project : gmap string ProjectRow :=
  {[ "default" := mkProjectRow None None ]}.

(** A new database: no table for the marker, no project. *)
Definition store_new : Store := mkStore (Unavailable no_table) (Rows ∅) [] [] [].

(** A database used before the marker was introduced. *)
Definition store_legacy : Store :=
  mkStore (Unavailable no_table) (Rows one_project) [] [] [].

(** A database whose marker says 7. *)
Definition store_marked : Store := mkStore (Rows (Some "7")) (Rows one_project) [] [] [].

(** The text with which MySQL reports a table that is missing (error 1146). *)
Definition mysql_no_table : string :=
  "(1146, Table 'mlrun.data_versions' doesn't exist)".

(** A database used before the marker was introduced, kept in MySQL. *)
Definition store_mysql_legacy : Store :=
  mkStore (Unavailable mysql_no_table) (Rows one_project) [] [] [].

(** ** Project state enrichment, in the words of the spec *)

(** [desired_state] unset becomes online; [state] unset becomes the resolved
    [desired_state]. *)
Definition enrich_row (r : ProjectRow) : ProjectRow :=
  let desired := from_option id online (row_desired_state r) in
  mkProjectRow (Some desired) (Some (from_option id desired (row_state r))).

Definition needs_enrichment (r : ProjectRow) : bool :=
  match row_desired_state r, row_state r with
  | Some _, Some _ => false
  | _, _ => true
  end.

(** The database writes among the events of a run, in order. *)
Definition writes (events : list Event) : list Write :=
  omap (λ ev, match ev with Wrote w => Some w | _ => None end) events.

(** ** Frames *)

(** The marker and the marketplace sources are as before. *)
Definition untouched (s s' : Store) : Prop :=
  data_version s' = data_version s ∧ marketplace_sources s' = marketplace_sources s.

(** Whatever the store, a run of [m] leaves a store related to it by [R]:
    [preserves untouched m] when [m] leaves the marker and the sources alone,
    [preserves eq m] when [m] only reads. *)
Definition preserves (R : relation Store) {A} (m : M A) : Prop :=
  ∀ s, R s (final (m s)).

(** Whatever the store, a run of [m] emits events of the class [P] only. *)
Definition emits (P : Event → Prop) {A} (m : M A) : Prop :=
  ∀ s, Forall P (emitted (m s)).

Definition log_performing (current : Z) : Event :=
  Log Info "Performing data migrations"
      [("current_data_version", AInt current);
       ("latest_data_version", AInt latest_data_version)].

Definition enabled (mode : string) : Config :=
  mkConfig false "enabled" "enabled" mode "mlrun" true.

(** A database at data version 3. *)
Definition store_ahead : Store := mkStore (Rows (Some "3")) (Rows one_project) [] [] [].

(** A database at data version 0 with a tag whose artifact is gone. *)
Definition store_orphan : Store :=
  mkStore (Rows (Some "0")) (Rows one_project)
          [mkArtifact 1 "default" "model" "uid-1" (Some 5%N) VNone]
          [mkTag 1 "default" "latest" 99] [].

(** ** Tags, in the words of the spec *)

(** The tags of the group of a project, an artifact key and a tag name: the
    tags of that project and name whose artifact has that key. *)
Definition group_tags (project key name : string) (s : Store) : list Tag :=
  List.filter
    (λ t, String.eqb (tag_project t) project && String.eqb (tag_name t) name
          && match artifact_record_id_map (artifacts s) !! tag_obj_id t with
             | Some a => String.eqb (art_key a) key
             | None => false
             end)
    (tags s).

Definition is_orphan (s : Store) (t : Tag) : Prop :=
  artifact_record_id_map (artifacts s) !! tag_obj_id t = None.

Definition log_orphan (t : Tag) : Event :=
  Log Warning "Found orphan tag, deleting" [("tag", ATag t)].

Definition log_same_update_time (l : list Artifact) : Event :=
  Log Warning "Found several artifact with same update time, heuristically choosing the first"
      [("artifacts", AArtifacts l)].

Definition log_no_update_time (l : list Artifact) : Event :=
  Log Warning "No artifact had update time, heuristically choosing the first"
      [("artifacts", AArtifacts l)].

Definition model (id : nat) (project : string) (updated : option datetime) : Artifact :=
  mkArtifact id project "model" ("uid-" ++ py_str (Z.of_nat id))%string updated VNone.

Definition latest (id : nat) (project : string) (obj_id : nat) : Tag :=
  mkTag id project "latest" obj_id.

(** Two artifacts of one key tagged latest, and a tag whose artifact is gone. *)
Definition store_orphan_and_duplicates : Store :=
  mkStore (Rows (Some "0")) (Rows one_project)
          [model 1 "default" (Some 1%N); model 2 "default" (Some 2%N)]
          [latest 1 "default" 1; latest 2 "default" 2; latest 3 "default" 99] [].

(** The same without the tag whose artifact is gone. *)
Definition store_duplicates : Store :=
  mkStore (Rows (Some "0")) (Rows one_project)
          [model 1 "default" (Some 1%N); model 2 "default" (Some 2%N)]
          [latest 1 "default" 1; latest 2 "default" 2] [].

(** Two projects with an artifact of the same key, tagged latest in both; the
    first project has the tag twice. *)
Definition store_two_projects : Store :=
  mkStore (Rows (Some "0")) (Rows one_project)
          [model 1 "default" (Some 1%N); model 2 "default" (Some 2%N);
           model 3 "other" (Some 3%N)]
          [latest 1 "default" 1; latest 2 "default" 2; latest 3 "other" 3] [].

(** Two artifacts of one key without update time, tagged latest, the tags in
    the other order than the artifacts. *)
Definition store_untimed : Store :=
  mkStore (Rows (Some "0")) (Rows one_project)
          [model 1 "default" None; model 2 "default" None]
          [latest 1 "default" 2; latest 2 "default" 1] [].

(** The same with the earliest time there is as update time. *)
Definition store_earliest : Store :=
  mkStore (Rows (Some "0")) (Rows one_project)
          [model 1 "default" (Some datetime_min); model 2 "default" (Some datetime_min)]
          [latest 1 "default" 2; latest 2 "default" 1] [].

(** ** Store and outcome of a run *)

(** [wp m s Q]: the run of [m] from [s] leaves a store and an outcome that
    satisfy [Q]. *)
Definition wp {A} (m : M A) (s : Store) (Q : Store → PyResult A → Prop) : Prop :=
  Q (final (m s)) (outcome (m s)).

(** ** Dataset previews, in the words of the spec *)

(** [v] has a length, which is at most [N]. *)
Definition within (N : nat) (v : value) : Prop :=
  ∃ n, py_len v = Ok n ∧ (n ≤ N)%nat.

(** The field [f] of a schema has a name, which is not among [removed]. *)
Definition names_none_of (removed : value) (f : value) : Prop :=
  ∃ name, py_get f "name" VNone = Ok name ∧ py_in name removed = Ok false.

(** The stats of the payload [ad'] are those of [ad] without the columns
    [removed]: no stats where there were none, and where the stats were a
    dictionary they still are one, which has none of the columns as a key. *)
Definition stats_without (removed : list value) (ad ad' : list (string * value)) : Prop :=
  (dict_lookup "stats" ad = None → dict_lookup "stats" ad' = None)
  ∧ (∀ stats, dict_lookup "stats" ad = Some (VDict stats) →
       ∃ stats', dict_lookup "stats" ad' = Some (VDict stats')
                 ∧ ∀ column, VStr column ∈ removed → dict_lookup column stats' = None).

(** The payload declares a dataset whose header has more than [N] entries. *)
Definition too_wide_dataset (N : nat) (d : value) : Prop :=
  ∃ kind header n,
    py_truthy d = true
    ∧ py_get d "kind" VNone = Ok kind
    ∧ py_eq kind (VStr DatasetArtifact_kind) = true
    ∧ py_get d "header" (VList []) = Ok header
    ∧ py_truthy header = true
    ∧ py_len header = Ok n ∧ (N < n)%nat.

(** The fields of the schema of [ad'] are those of [ad] that name none of
    [removed]; a schema without fields is as it was. *)
Definition schema_without (removed : value) (ad ad' : list (string * value)) : Prop :=
  ∃ schema fields,
    py_get (VDict ad) "schema" (VDict []) = Ok schema
    ∧ py_get schema "fields" VNone = Ok fields
    ∧ if py_truthy fields
      then ∃ schema' fields',
             dict_lookup "schema" ad' = Some schema'
             ∧ py_get schema' "fields" VNone = Ok (VList fields')
             ∧ Forall (names_none_of removed) fields'
      else dict_lookup "schema" ad' = dict_lookup "schema" ad.

(** The preview rows of [ad'] are within [N]; a payload without preview is as
    it was. *)
Definition preview_within (N : nat) (ad ad' : list (string * value)) : Prop :=
  if py_truthy (from_option id VNone (dict_lookup "preview" ad))
  then ∃ rows, dict_lookup "preview" ad' = Some (VList rows) ∧ Forall (within N) rows
  else dict_lookup "preview" ad' = dict_lookup "preview" ad.

(** [d'] is [d] truncated to the first [N] columns of its header. *)
Definition truncated (N : nat) (d d' : value) : Prop :=
  ∃ ad ad' header removed columns header',
    d = VDict ad ∧ d' = VDict ad'
    ∧ py_get d "header" (VList []) = Ok header
    ∧ py_slice_from N header = Ok removed
    ∧ py_iter removed = Ok columns
    ∧ py_slice_to N header = Ok header'
    ∧ dict_lookup "header" ad' = Some header'
    ∧ within N header'
    ∧ preview_within N ad ad'
    ∧ stats_without columns ad ad'
    ∧ schema_without removed ad ad'
    ∧ ∀ k, k ∉ ["header"; "preview"; "stats"; "schema"] →
           dict_lookup k ad' = dict_lookup k ad.

(** What the run of [fix_dataset_large_preview] on an artifact comes to: it
    failed and the store is as it was; or there was nothing to do; or the
    payload was truncated and stored. *)
Definition fix_cases (N : nat) (a : Artifact) (s s' : Store) (r : PyResult unit) : Prop :=
  (∃ e, r = Raise e ∧ s' = s)
  ∨ (r = Ok tt ∧ s' = s ∧ ¬ too_wide_dataset N (art_struct a))
  ∨ (∃ d', r = Ok tt
           ∧ s' = set_artifact_body (art_project a) (art_key a) (art_uid a) d' s
           ∧ too_wide_dataset N (art_struct a)
           ∧ truncated N (art_struct a) d').

(** The outcome of [m] is the same whatever the store. *)
Definition oblivious {A} (m : M A) : Prop := ∀ s s', outcome (m s) = outcome (m s').

Definition log_failed (exc : PyExc) : Event :=
  Log Warning "Failed fixing dataset artifact large preview. Continuing" [("exc", AExc exc)].

(** What identifies an artifact in [_store_artifact]. *)
Definition artifact_identity (a : Artifact) : string * string * string :=
  (art_project a, art_key a, art_uid a).

(** The rows [a] and [a'] differ in their payload at most. *)
Definition same_row (a a' : Artifact) : Prop :=
  art_id a' = art_id a ∧ artifact_identity a' = artifact_identity a
  ∧ art_updated a' = art_updated a.

(** The payload [d'] that the pass leaves for an artifact of payload [d]. *)
Definition preview_fixed (N : nat) (a : Artifact) (s : Store) (d' : value) : Prop :=
  if is_ok (outcome (fix_dataset_large_preview N a s))
  then (too_wide_dataset N (art_struct a) → truncated N (art_struct a) d')
       ∧ (¬ too_wide_dataset N (art_struct a) → d' = art_struct a)
  else d' = art_struct a.

(** The invariant of the claim C6 for one payload. *)
Definition declares_dataset (d : value) : Prop :=
  ∃ kind, py_get d "kind" VNone = Ok kind ∧ py_eq kind (VStr DatasetArtifact_kind) = true.

Definition preview_bounded (N : nat) (d : value) : Prop :=
  (∃ header, py_get d "header" (VList []) = Ok header ∧ within N header)
  ∧ (∀ preview rows, py_get d "preview" VNone = Ok preview →
       py_iter preview = Ok rows → Forall (within N) rows).

Definition wide (columns : list string) (preview : value) : value :=
  VDict [("kind", VStr "dataset"); ("header", VList (VStr <$> columns));
         ("preview", preview);
         ("stats", VDict ((λ c, (c, VInt 0)) <$> columns));
         ("schema", VDict [("fields", VList ((λ c, VDict [("name", VStr c)]) <$> columns))])].

Definition dataset (id : nat) (key : string) (body : value) : Artifact :=
  mkArtifact id "default" key "uid" (Some 1%N) body.

(** A dataset with a header of two columns and a preview row of three cells. *)
Definition store_wide_rows : Store :=
  mkStore (Rows (Some "0")) (Rows one_project)
          [dataset 1 "rows" (wide ["a"; "b"] (VList [VList [VInt 1; VInt 2; VInt 3]]))]
          [] [].

(** A dataset whose preview is a number, and a dataset in good order, both
    with a header of three columns. *)
Definition store_malformed : Store :=
  mkStore (Rows (Some "0")) (Rows one_project)
          [dataset 1 "bad" (wide ["a"; "b"; "c"] (VInt 5));
           dataset 2 "good" (wide ["a"; "b"; "c"] (VList [VList [VInt 1; VInt 2; VInt 3]]))]
          [] [].

(** The row [a0] of the store before the loop over [l] and the row [a0'] that
    the loop leaves in its place: the payload is as it was when [l] has no
    artifact of that identity, and else is what the artifact of that identity
    makes of it. *)
Definition row_after (N : nat) (l : list Artifact) (s : Store) (a0 a0' : Artifact) : Prop :=
  same_row a0 a0'
  ∧ ((∀ b, b ∈ l → artifact_identity b ≠ artifact_identity a0) →
       art_struct a0' = art_struct a0)
  ∧ (∀ b, b ∈ l → artifact_identity b = artifact_identity a0 →
       if is_ok (outcome (fix_dataset_large_preview N b s))
       then (too_wide_dataset N (art_struct b) → truncated N (art_struct b) (art_struct a0'))
            ∧ (¬ too_wide_dataset N (art_struct b) → art_struct a0' = art_struct a0)
       else art_struct a0' = art_struct a0).

Definition with_body (project key uid : string) (body : value) (a : Artifact) : Artifact :=
  if same_artifact project key uid a
  then mkArtifact (art_id a) (art_project a) (art_key a) (art_uid a) (art_updated a) body
  else a.

(** The invariant of the claim C6 for a store. *)
Definition previews_bounded (N : nat) (s : Store) : Prop :=
  ∀ a, a ∈ artifacts s → declares_dataset (art_struct a) →
       preview_bounded N (art_struct a).

(** ** Stages of the orchestration *)

Inductive Stage : Type :=
| StSchema        (* the schema is applied *)
| StTransfer      (* the legacy database is transferred *)
| StTables        (* init_db *)
| StSeedSource    (* the default marketplace source is added *)
| StSeedMarker    (* the marker is missing and is about to be set *)
| StMarker        (* the marker is written *)
| StMigrations    (* the data is found stale *)
| StEnrich        (* repair pass: project states *)
| StDedup         (* repair pass: duplicated tags *)
| StPreviews.     (* repair pass: dataset previews *)

#[global] Instance Stage_eq_dec : EqDecision Stage.
Proof. solve_decision. Defined.

(** The stage that an event marks, if it marks one. *)
Definition stage_of (ev : Event) : option Stage :=
  match ev with
  | Call (CallAlembic _ _ _) => Some StSchema
  | Call CallTransfer => Some StTransfer
  | Call CallInitDb => Some StTables
  | Wrote (WMarketplaceSource _) => Some StSeedSource
  | Wrote (WDataVersion _) => Some StMarker
  | Log Info msg _ =>
      if String.eqb msg "No data version, setting data version" then Some StSeedMarker
      else if String.eqb msg "Performing data migrations" then Some StMigrations
      else if String.eqb msg "Enriching projects state" then Some StEnrich
      else if String.eqb msg "Fixing artifact tags duplications" then Some StDedup
      else if String.eqb msg "Fixing datasets large previews" then Some StPreviews
      else None
  | _ => None
  end.

Definition stages (events : list Event) : list Stage := omap stage_of events.

(** The stages of a run of [init_data] that completes, in their order: which
    of those that depend on the configuration and on the store take place is
    given by the flags. *)
Definition init_data_order (transferred seed_source seed_marker migrate repair : bool)
  : list Stage :=
  [StSchema] ++ (if transferred then [StTransfer] else []) ++ [StTables]
  ++ (if seed_source then [StSeedSource] else [])
  ++ (if seed_marker then [StSeedMarker; StMarker] else [])
  ++ (if migrate
      then StMigrations :: (if repair then [StEnrich; StDedup; StPreviews] else [])
                        ++ [StMarker]
      else []).

(** Whatever the store, the stages marked in a run of [m] come in the order
    of [order], each of them at most as often as it is in [order]. *)
Definition staged (order : list Stage) {A} (m : M A) : Prop :=
  ∀ s, stages (emitted (m s)) `sublist_of` order.

(** Whatever the store, a run of [m] that completes marks the stages of one
    of the [orders], all of them, in their order; a run that raises has marked
    the first stages of one of them. *)
Definition in_order (orders : list Stage → Prop) {A} (m : M A) : Prop :=
  ∀ s, ∃ order, orders order
       ∧ stages (emitted (m s)) `prefix_of` order
       ∧ (is_ok (outcome (m s)) = true → stages (emitted (m s)) = order).

(** An external collaborator that finds nothing to do. *)
Definition nothing_to_do (s : Store) : Store * PyResult unit := (s, Ok tt).

Definition init_data_example (config : Config) : M unit :=
  init_data 2 (λ _ _ _, nothing_to_do) nothing_to_do nothing_to_do config false.

(** A database at data version 0 with a project without state. *)
Definition store_stale : Store := mkStore (Rows (Some "0")) (Rows one_project) [] [] [].

(** ** A store that [init_data] has been through *)

(** The default marketplace source is there, or is not to be created. *)
Definition source_settled (config : Config) (s : Store) : Prop :=
  default_source_name config ∈ marketplace_sources s
  ∨ generate_default_source config = None.

Definition marker_set (s : Store) : Prop := ∃ text, data_version s = Rows (Some text).

(** With data migrations enabled, the marker reads the latest version. *)
Definition marker_current (config : Config) (s : Store) : Prop :=
  data_migrations_mode config = "enabled" →
  ∃ text, data_version s = Rows (Some text) ∧ py_int text = Ok latest_data_version.

Definition initialised (config : Config) (s : Store) : Prop :=
  source_settled config s ∧ marker_set s ∧ marker_current config s.

(** The run of [m] from [s] leaves [s] as it is and writes nothing. *)
Definition quiet {A} (m : M A) (s : Store) : Prop :=
  final (m s) = s ∧ writes (emitted (m s)) = [].

Definition no_write (ev : Event) : Prop := ∀ w, ev ≠ Wrote w.

(** Only the artifacts may differ. *)
Definition only_artifacts (s s' : Store) : Prop :=
  data_version s' = data_version s ∧ projects s' = projects s
  ∧ tags s' = tags s ∧ marketplace_sources s' = marketplace_sources s.

(** Only the tags may differ. *)
Definition only_tags (s s' : Store) : Prop :=
  data_version s' = data_version s ∧ projects s' = projects s
  ∧ artifacts s' = artifacts s ∧ marketplace_sources s' = marketplace_sources s.

(** ** Settled tags *)

(** The key of the artifact of a tag. *)
Definition key_of (m : gmap nat Artifact) (t : Tag) : option string :=
  art_key <$> m !! tag_obj_id t.

(** No two tags of the same name point to different artifacts of one key. *)
Definition settled (m : gmap nat Artifact) (tgs : list Tag) : Prop :=
  ∀ t1 t2 k, t1 ∈ tgs → t2 ∈ tgs →
             key_of m t1 = Some k → key_of m t2 = Some k →
             tag_name t1 = tag_name t2 → tag_obj_id t1 = tag_obj_id t2.

(** The test by which [collect_key_tags] keeps a tag. *)
Definition has_key (m : gmap nat Artifact) (key : string) (t : Tag) : bool :=
  match m !! tag_obj_id t with
  | Some a => String.eqb (art_key a) key
  | None => false
  end.

Definition has_name (name : string) (t : Tag) : bool := String.eqb (tag_name t) name.

(** The computation of the tags to delete, before any is deleted. *)
Definition tags_to_delete_plan (s : Store) : M (list Tag) :=
  fold_m (project_tags_to_delete (artifact_record_id_map (artifacts s)) (artifacts s) (tags s))
         (set_items (art_project <$> artifacts s)) [].

(** What a group of tags of one name, a key and a project have given to the
    tags to delete [D]. *)
Definition name_done (m : gmap nat Artifact) (s : Store) (name_tags : string * list Tag)
    (D : list Tag) : Prop :=
  ∃ more, outcome (name_tags_to_delete m name_tags.2 s) = Ok more ∧ more ⊆ D.

Definition key_done (m : gmap nat Artifact) (tgs : list Tag) (s : Store) (key : string)
    (D : list Tag) : Prop :=
  ∀ name_tags, name_tags ∈ tag_name_tags_map (List.filter (has_key m key) tgs) →
               name_done m s name_tags D.

Definition project_done (m : gmap nat Artifact) (arts : list Artifact) (tgs : list Tag)
    (s : Store) (project : string) (D : list Tag) : Prop :=
  ∀ key,
    key ∈ set_items (art_key <$> List.filter (λ a, String.eqb (art_project a) project) arts) →
    key_done m tgs s key D.

(** ** More stores used as examples *)

(** A database whose marker table is there, without a row. *)
Definition store_unmarked : Store := mkStore (Rows None) (Rows one_project) [] [] [].

(** A database whose marker is not a number. *)
Definition store_garbled : Store := mkStore (Rows (Some "one")) (Rows one_project) [] [] [].

(** Only the projects may differ. *)
Definition only_projects (s s' : Store) : Prop :=
  data_version s' = data_version s ∧ artifacts s' = artifacts s
  ∧ tags s' = tags s ∧ marketplace_sources s' = marketplace_sources s.

(** Only the marketplace sources may differ. *)
Definition only_sources (s s' : Store) : Prop :=
  data_version s' = data_version s ∧ projects s' = projects s
  ∧ artifacts s' = artifacts s ∧ tags s' = tags s.

(** The name of the configuration file handed to alembic. *)
Definition alembic_config_file_name (config : Config) : string :=
  if mysql_dsn_data config then "alembic_mysql.ini" else "alembic.ini".

(** [main] *)
Definition main N init_alembic transfer init_db (config : Config) : M unit :=
  init_data N init_alembic transfer init_db config false.

(** The artifact has [t] as update time. *)
Definition has_time (t : datetime) (a : Artifact) : bool :=
  match art_updated a with
  | Some u => (u =? t)%N
  | None => false
  end.

(** The update time of the artifact is set and is before, or not after, [t]. *)
Definition updated_before (t : datetime) (a : Artifact) : Prop :=
  ∃ u, art_updated a = Some u ∧ (u < t)%N.

Definition updated_by (t : datetime) (a : Artifact) : Prop :=
  ∃ u, art_updated a = Some u ∧ (u ≤ t)%N.

(** What the loop of [_find_last_updated_artifact] has found in the
    artifacts [seen] so far. *)
Definition last_updated_seen (seen : list Artifact)
    (acc : option Artifact * datetime * list Artifact) : Prop :=
  let '(last_updated_artifact, t, same_time) := acc in
  same_time = List.filter (has_time t) seen
  ∧ Forall (updated_by t) seen
  ∧ match last_updated_artifact with
    | None => t = datetime_min
    | Some w =>
        (datetime_min < t)%N
        ∧ ∃ before after, seen = before ++ w :: after
                          ∧ art_updated w = Some t ∧ Forall (updated_before t) before
    end.

(** The tags of one artifact key and one name, in the order of the tags. *)
Definition same_key_and_name (m : gmap nat Artifact) (key name : string)
    (tgs : list Tag) : list Tag :=
  List.filter (has_name name) (List.filter (has_key m key) tgs).

(** [[artifact_record_id_map[tag.obj_id] for tag in _tags]], for tags that
    have an artifact. *)
Definition tags_artifacts (m : gmap nat Artifact) (g : list Tag) : list Artifact :=
  omap (λ t, m !! tag_obj_id t) g.

(** Where a tag to delete comes from: the group of its key and name, for
    which [name_tags_to_delete] has handed it out. *)
Definition handed_out (m : gmap nat Artifact) (tgs : list Tag) (s : Store) (d : Tag) : Prop :=
  ∃ key more,
    key_of m d = Some key ∧ d ∈ tgs
    ∧ outcome (name_tags_to_delete m (same_key_and_name m key (tag_name d) tgs) s) = Ok more
    ∧ d ∈ more.

(** The number that the decimal digits [d] stand for, read from the left
    after a number [acc] read so far. *)
Fixpoint uint_value (d : Decimal.uint) (acc : Z) : Z :=
  match d with
  | Decimal.Nil => acc
  | Decimal.D0 l => uint_value l (10 * acc + 0)
  | Decimal.D1 l => uint_value l (10 * acc + 1)
  | Decimal.D2 l => uint_value l (10 * acc + 2)
  | Decimal.D3 l => uint_value l (10 * acc + 3)
  | Decimal.D4 l => uint_value l (10 * acc + 4)
  | Decimal.D5 l => uint_value l (10 * acc + 5)
  | Decimal.D6 l => uint_value l (10 * acc + 6)
  | Decimal.D7 l => uint_value l (10 * acc + 7)
  | Decimal.D8 l => uint_value l (10 * acc + 8)
  | Decimal.D9 l => uint_value l (10 * acc + 9)
  end.

(** The calls to the external collaborators among the events of a run, in
    order. *)
Definition calls (events : list Event) : list ExternalCall :=
  omap (λ ev, match ev with Call c => Some c | _ => None end) events.

Definition no_call (ev : Event) : Prop := ∀ c, ev ≠ Call c.

(** ** What the truncation keeps *)

(** The row [r'] is the row [r] cut to its first [N] cells. *)
Definition cut_to (N : nat) (r r' : value) : Prop := py_slice_to N r = Ok r'.

(** The field [f] of a schema is named after one of [removed]. *)
Definition names_one_of (removed : value) (f : value) : bool :=
  match py_get f "name" VNone with
  | Ok name => match py_in name removed with Ok found => found | Raise _ => false end
  | Raise _ => false
  end.

(** What the payload [ad'] keeps of the payload [ad] when the columns
    [removed], which are the items [columns], go: the preview rows, each cut
    to its first [N] cells; the stats of the other columns; the fields of the
    schema that are not named after a removed column, and what else the
    schema holds. *)
Definition kept (N : nat) (removed : value) (columns : list value)
    (ad ad' : list (string * value)) : Prop :=
  (∀ rows, dict_lookup "preview" ad = Some (VList rows) → rows ≠ [] →
     ∃ rows', dict_lookup "preview" ad' = Some (VList rows')
              ∧ Forall2 (cut_to N) rows rows')
  ∧ (∀ stats, dict_lookup "stats" ad = Some (VDict stats) →
       ∃ stats', dict_lookup "stats" ad' = Some (VDict stats')
                 ∧ ∀ key, VStr key ∉ columns →
                          dict_lookup key stats' = dict_lookup key stats)
  ∧ (∀ schema fields,
       dict_lookup "schema" ad = Some (VDict schema) →
       dict_lookup "fields" schema = Some (VList fields) → fields ≠ [] →
       ∃ schema', dict_lookup "schema" ad' = Some (VDict schema')
                  ∧ dict_lookup "fields" schema'
                    = Some (VList (List.filter (λ f, negb (names_one_of removed f)) fields))
                  ∧ ∀ k, k ≠ "fields" → dict_lookup k schema' = dict_lookup k schema).
(** * Properties *)

(** ** Runs *)

Lemma run_bind {A B} (m : M A) (f : A → M B) (s : Store) :
  (m ≫= f) s =
  match outcome (m s) with
  | Ok a => mkRun (final (f a (final (m s))))
                  (emitted (m s) ++ emitted (f a (final (m s))))
                  (outcome (f a (final (m s))))
  | Raise e => mkRun (final (m s)) (emitted (m s)) (Raise e)
  end.
Proof. reflexivity. Qed.

Lemma run_eta {A} (r : Run A) : mkRun (final r) (emitted r) (outcome r) = r.
Proof. by destruct r. Qed.

Lemma project_listing_empty (m : gmap string ProjectRow) :
  project_of_row <$> map_to_list m = [] ↔ size m = 0%nat.
Proof.
  rewrite map_size_empty_iff, <- map_to_list_empty_iff.
  split; [apply fmap_nil_inv | by intros ->].
Qed.

Ltac unfold_run :=
  unfold mbind, mret, M_bind, M_ret, get_store, put_store, raise, lift, emit, logger,
    try_except, try_finally, when, close_session, is_exc, operational_error, not_found;
  cbn.

Ltac crush :=
  repeat (first [split | intro]); simplify_eq/=;
  try done; try congruence; try (by eexists); try naive_solver.

(** ** Resolution of the current data version *)

Lemma py_int_raises (text : string) (e : PyExc) :
  py_int text = Raise e → exc_type e = ValueError.
Proof.
  unfold py_int. cbv zeta. intros H.
  match type of H with
  | match ?parsed with _ => _ end = _ => destruct parsed
  end; by simplify_eq.
Qed.

(** ** Project state enrichment *)

Lemma writes_app (l1 l2 : list Event) : writes (l1 ++ l2) = writes l1 ++ writes l2.
Proof. apply omap_app. Qed.

Lemma enrich_row_id (r : ProjectRow) : needs_enrichment r = false → enrich_row r = r.
Proof. by destruct r as [[d|] [st|]]. Qed.

Lemma set_projects_id (s : Store) (m : gmap string ProjectRow) :
  projects s = Rows m → set_projects m s = s.
Proof. destruct s; simpl. by intros ->. Qed.

Definition enrich_update (m : gmap string ProjectRow) (kv : string * ProjectRow)
  : gmap string ProjectRow :=
  if needs_enrichment kv.2 then <[kv.1 := enrich_row kv.2]> m else m.

Definition enrich_write (kv : string * ProjectRow) : Write :=
  WProject kv.1 (project_of_row (kv.1, enrich_row kv.2)).

Lemma enrich_project_run (kv : string * ProjectRow) (s : Store) (m : gmap string ProjectRow) :
  projects s = Rows m →
  let r := enrich_project (project_of_row kv) s in
  outcome r = Ok tt
  ∧ final r = set_projects (enrich_update m kv) s
  ∧ writes (emitted r) = if needs_enrichment kv.2 then [enrich_write kv] else [].
Proof.
  intros Hm. destruct kv as [k [[d|] [st|]]];
    unfold enrich_project, store_project, enrich_update, enrich_write; unfold_run;
    rewrite ?Hm; unfold_run; rewrite ?(set_projects_id s m Hm); done.
Qed.

Lemma enrich_loop_run (l : list (string * ProjectRow)) (s : Store)
    (m : gmap string ProjectRow) :
  projects s = Rows m →
  let r := for_each (project_of_row <$> l) enrich_project s in
  outcome r = Ok tt
  ∧ final r = set_projects (foldl enrich_update m l) s
  ∧ writes (emitted r) = enrich_write <$> List.filter (λ kv, needs_enrichment kv.2) l.
Proof.
  revert s m. induction l as [| kv l IH]; intros s m Hm.
  - cbn. by rewrite set_projects_id.
  - destruct (enrich_project_run kv s m Hm) as (Ho & Hf & Hw).
    cbn [fmap list_fmap for_each]. rewrite run_bind, Ho. cbn [final emitted outcome].
    destruct (IH (final (enrich_project (project_of_row kv) s)) (enrich_update m kv))
      as (Ho' & Hf' & Hw').
    { by rewrite Hf. }
    split; [done |]. split.
    + rewrite Hf', Hf. by destruct s.
    + rewrite writes_app, Hw, Hw'. cbn [List.filter foldl].
      by destruct (needs_enrichment kv.2).
Qed.

Lemma enrich_fold_lookup (l : list (string * ProjectRow)) (m : gmap string ProjectRow)
    (k : string) :
  NoDup l.*1 →
  foldl enrich_update m l !! k =
  match (list_to_map l : gmap string ProjectRow) !! k with
  | Some row => if needs_enrichment row then Some (enrich_row row) else m !! k
  | None => m !! k
  end.
Proof.
  revert m. induction l as [| [k1 r1] l IH]; intros m Hnd; [done |].
  apply NoDup_cons in Hnd as [Hk1 Hnd]. cbn [foldl list_to_map foldr].
  rewrite IH by done. unfold enrich_update; cbn [fst snd].
  destruct (decide (k = k1)) as [-> | Hne].
  - rewrite lookup_insert_eq, (not_elem_of_list_to_map_1 _ _ Hk1).
    destruct (needs_enrichment r1); [by rewrite lookup_insert_eq | done].
  - rewrite lookup_insert_ne by done.
    destruct (needs_enrichment r1); [by rewrite lookup_insert_ne | done].
Qed.

Lemma enrich_fold_map (m : gmap string ProjectRow) :
  foldl enrich_update m (map_to_list m) = enrich_row <$> m.
Proof.
  apply map_eq; intros k.
  rewrite enrich_fold_lookup by apply NoDup_fst_map_to_list.
  rewrite list_to_map_to_list, lookup_fmap.
  destruct (m !! k) as [row |] eqn:Hk; [| done]. cbn.
  destruct (needs_enrichment row) eqn:Hn; [done |]. by rewrite enrich_row_id.
Qed.

(** A run of the enrichment on the rows [m]: the loop goes through the rows
    as they are listed. *)
Lemma enrich_project_state_run (s : Store) (m : gmap string ProjectRow) :
  projects s = Rows m →
  let r := _enrich_project_state s in
  outcome r = Ok tt
  ∧ final r = set_projects (foldl enrich_update m (map_to_list m)) s
  ∧ writes (emitted r)
    = enrich_write <$> List.filter (λ kv, needs_enrichment kv.2) (map_to_list m).
Proof.
  intros Hm. unfold _enrich_project_state, list_projects.
  destruct (enrich_loop_run (map_to_list m) s m Hm) as (Ho & Hf & Hw).
  unfold_run. rewrite Hm. unfold_run. by rewrite Ho, Hf.
Qed.

(** C9. After [_enrich_project_state] every project has its [desired_state]
    and its [state] set: an unset [desired_state] has become online, an unset
    [state] has become the [desired_state] so resolved; the projects written
    to the database are those that had one of the two unset, each once. *)
Theorem enrich_project_state_total (s : Store) (m : gmap string ProjectRow) :
  projects s = Rows m →
  let r := _enrich_project_state s in
  outcome r = Ok tt
  ∧ final r = set_projects (enrich_row <$> m) s
  ∧ (∀ name row, (enrich_row <$> m) !! name = Some row →
       is_Some (row_desired_state row) ∧ is_Some (row_state row))
  ∧ writes (emitted r)
    = enrich_write <$> List.filter (λ kv, needs_enrichment kv.2) (map_to_list m).
Proof.
  intros Hm. destruct (enrich_project_state_run s m Hm) as (Ho & Hf & Hw).
  cbn zeta. rewrite Ho, Hf, Hw, enrich_fold_map.
  repeat split; try done.
  - rewrite lookup_fmap in H. destruct (m !! name); by simplify_eq/=.
  - rewrite lookup_fmap in H. destruct (m !! name); by simplify_eq/=.
Qed.

Lemma enrich_project_state_witness :
  final (_enrich_project_state store_marked)
  = set_projects {[ "default" := mkProjectRow (Some online) (Some online) ]} store_marked.
Proof.
  destruct (enrich_project_state_total store_marked one_project eq_refl) as (_ & H & _).
  rewrite H. unfold one_project. by rewrite map_fmap_singleton.
Defined.

(** ** Frame rules *)

#[local] Instance untouched_preorder : PreOrder untouched.
Proof.
  split; [by intros s |]. intros s1 s2 s3 [? ?] [? ?]. split; congruence.
Qed.

Section PreservesRules.
Variable R : relation Store.
Hypothesis R_preorder : PreOrder R.

Lemma preserves_ret {A} (a : A) : preserves R (mret a : M A).
Proof. by intros s. Qed.

Lemma preserves_raise {A} (e : PyExc) : preserves R (raise e : M A).
Proof. by intros s. Qed.

Lemma preserves_lift {A} (r : PyResult A) : preserves R (lift r).
Proof. by intros s. Qed.

Lemma preserves_logger lvl msg kwargs : preserves R (logger lvl msg kwargs).
Proof. by intros s. Qed.

Lemma preserves_get_store : preserves R get_store.
Proof. by intros s. Qed.

Lemma preserves_bind {A B} (m : M A) (f : A → M B) :
  preserves R m → (∀ a, preserves R (f a)) → preserves R (m ≫= f).
Proof.
  intros Hm Hf s. rewrite run_bind. destruct (outcome (m s)) as [a | e] eqn:Ho; cbn.
  - etrans; [apply Hm | apply Hf].
  - apply Hm.
Qed.

Lemma preserves_try_except {A} (m : M A) (h : PyExc → M A) :
  preserves R m → (∀ e, preserves R (h e)) → preserves R (try_except m h).
Proof.
  intros Hm Hh s. unfold try_except. destruct (outcome (m s)) as [a | e] eqn:Ho; cbn.
  - apply Hm.
  - etrans; [apply Hm | apply Hh].
Qed.

Lemma preserves_fold_m {A B} (f : B → A → M B) (l : list A) (acc : B) :
  (∀ b a, preserves R (f b a)) → preserves R (fold_m f l acc).
Proof.
  intros Hf. revert acc. induction l as [| x l IH]; intros acc; cbn [fold_m].
  - apply preserves_ret.
  - apply preserves_bind; [apply Hf | apply IH].
Qed.

Lemma preserves_for_each {A} (l : list A) (body : A → M unit) :
  (∀ a, preserves R (body a)) → preserves R (for_each l body).
Proof.
  intros Hb. induction l as [| x l IH]; cbn [for_each].
  - apply preserves_ret.
  - apply preserves_bind; [apply Hb | done].
Qed.

Lemma preserves_when (b : bool) (m : M unit) : preserves R m → preserves R (when b m).
Proof. destruct b; [done | intros _; apply preserves_ret]. Qed.

End PreservesRules.

Section EmitsRules.
Variable P : Event → Prop.

Lemma emits_ret {A} (a : A) : emits P (mret a : M A).
Proof. intros s. constructor. Qed.

Lemma emits_raise {A} (e : PyExc) : emits P (raise e : M A).
Proof. intros s. constructor. Qed.

Lemma emits_lift {A} (r : PyResult A) : emits P (lift r).
Proof. intros s. constructor. Qed.

Lemma emits_get_store : emits P get_store.
Proof. intros s. constructor. Qed.

Lemma emits_put_store (s' : Store) : emits P (put_store s').
Proof. intros s. constructor. Qed.

Lemma emits_emit (ev : Event) : P ev → emits P (emit ev).
Proof. intros HP s. by repeat constructor. Qed.

Lemma emits_logger lvl msg kwargs : P (Log lvl msg kwargs) → emits P (logger lvl msg kwargs).
Proof. intros HP s. by repeat constructor. Qed.

Lemma emits_bind {A B} (m : M A) (f : A → M B) :
  emits P m → (∀ a, emits P (f a)) → emits P (m ≫= f).
Proof.
  intros Hm Hf s. rewrite run_bind. destruct (outcome (m s)) as [a | e] eqn:Ho; cbn.
  - apply Forall_app; split; [apply Hm | apply Hf].
  - apply Hm.
Qed.

Lemma emits_try_except {A} (m : M A) (h : PyExc → M A) :
  emits P m → (∀ e, emits P (h e)) → emits P (try_except m h).
Proof.
  intros Hm Hh s. unfold try_except. destruct (outcome (m s)) as [a | e] eqn:Ho; cbn.
  - apply Hm.
  - apply Forall_app; split; [apply Hm | apply Hh].
Qed.

Lemma emits_try_finally {A} (m : M A) (c : M unit) :
  emits P m → emits P c → emits P (try_finally m c).
Proof.
  intros Hm Hc s. unfold try_finally. cbn. apply Forall_app; split; [apply Hm | apply Hc].
Qed.

Lemma emits_fold_m {A B} (f : B → A → M B) (l : list A) (acc : B) :
  (∀ b a, emits P (f b a)) → emits P (fold_m f l acc).
Proof.
  intros Hf. revert acc. induction l as [| x l IH]; intros acc; cbn [fold_m].
  - apply emits_ret.
  - apply emits_bind; [apply Hf | apply IH].
Qed.

Lemma emits_for_each {A} (l : list A) (body : A → M unit) :
  (∀ a, emits P (body a)) → emits P (for_each l body).
Proof.
  intros Hb. induction l as [| x l IH]; cbn [for_each].
  - apply emits_ret.
  - apply emits_bind; [apply Hb | done].
Qed.

Lemma emits_when (b : bool) (m : M unit) : emits P m → emits P (when b m).
Proof. destruct b; [done | intros _; apply emits_ret]. Qed.

End EmitsRules.

Lemma emits_weaken (P Q : Event → Prop) {A} (m : M A) :
  (∀ ev, P ev → Q ev) → emits P m → emits Q m.
Proof. intros HPQ Hm s. eapply Forall_impl; [apply Hm | done]. Qed.

Create HintDb frames.

(** One step of a proof that a run preserves a relation, or emits a class of
    events: the rule of the outermost construct, after a case analysis when
    the construct is a branch. *)
Ltac frame_step :=
  first
    [ solve [auto with frames nocore]
    | apply preserves_ret; apply _
    | apply preserves_raise; apply _
    | apply preserves_lift; apply _
    | apply preserves_logger; apply _
    | apply preserves_get_store; apply _
    | apply preserves_bind; [apply _ | | intros ?]
    | apply preserves_try_except; [apply _ | | intros ?]
    | apply preserves_fold_m; [apply _ | intros ? ?]
    | apply preserves_for_each; [apply _ | intros ?]
    | apply preserves_when; [apply _ |]
    | apply emits_bind; [| intros ?]
    | apply emits_try_except; [| intros ?]
    | apply emits_try_finally
    | apply emits_fold_m; intros ? ?
    | apply emits_for_each; intros ?
    | apply emits_when
    | apply emits_ret | apply emits_raise | apply emits_lift
    | apply emits_get_store | apply emits_put_store
    | apply emits_logger | apply emits_emit
    | match goal with
      | |- preserves _ (match ?x with _ => _ end) => destruct x
      | |- emits _ (match ?x with _ => _ end) => destruct x
      | |- preserves _ (let '(_, _) := ?x in _) => destruct x
      | |- emits _ (let '(_, _) := ?x in _) => destruct x
      end ].

Ltac frame := repeat frame_step; eauto with frames.

(** ** The repair passes leave the marker and the sources alone *)

Lemma keeps_list_projects : preserves untouched list_projects.
Proof. unfold list_projects. frame. Qed.

Lemma keeps_store_project name p : preserves untouched (store_project name p).
Proof. intros s. unfold store_project. unfold_run. by destruct (projects s). Qed.

Lemma keeps_session_delete t : preserves untouched (session_delete t).
Proof. by intros s. Qed.

Lemma keeps_store_artifact key body uid project :
  preserves untouched (_store_artifact key body uid project).
Proof. by intros s. Qed.

Lemma keeps_find_artifacts : preserves untouched _find_artifacts.
Proof. unfold _find_artifacts. frame. Qed.

Lemma keeps_query_tags : preserves untouched query_tags.
Proof. unfold query_tags. frame. Qed.

#[local] Hint Resolve keeps_list_projects keeps_store_project keeps_session_delete
  keeps_store_artifact keeps_find_artifacts keeps_query_tags : frames.

Lemma keeps_enrich_project_state : preserves untouched _enrich_project_state.
Proof. unfold _enrich_project_state, enrich_project. frame. Qed.

Lemma keeps_find_last_updated_artifact l : preserves untouched (_find_last_updated_artifact l).
Proof. unfold _find_last_updated_artifact. frame. Qed.

Lemma keeps_lookup_artifact m obj_id : preserves untouched (lookup_artifact m obj_id).
Proof. unfold lookup_artifact. frame. Qed.

#[local] Hint Resolve keeps_find_last_updated_artifact keeps_lookup_artifact : frames.

Lemma keeps_fix_artifact_tags_duplications : preserves untouched _fix_artifact_tags_duplications.
Proof.
  unfold _fix_artifact_tags_duplications, project_tags_to_delete, key_tags_to_delete,
    collect_key_tags, name_tags_to_delete.
  frame.
Qed.

Lemma keeps_fix_datasets_large_previews N : preserves untouched (_fix_datasets_large_previews N).
Proof.
  unfold _fix_datasets_large_previews, fix_or_continue, fix_dataset_large_preview,
    align_preview_rows, align_stats, align_schema_fields.
  frame.
Qed.

#[local] Hint Resolve keeps_enrich_project_state keeps_fix_artifact_tags_duplications
  keeps_fix_datasets_large_previews : frames.

Lemma preserves_version_1 N : preserves untouched (_perform_version_1_data_migrations N).
Proof. unfold _perform_version_1_data_migrations. frame. Qed.

(** ** Data migrations *)

Lemma perform_data_migrations_disabled N config s :
  data_migrations_mode config ≠ "enabled" →
  _perform_data_migrations N config s = mkRun s [] (Ok tt).
Proof.
  intros Hmode. unfold _perform_data_migrations.
  apply String.eqb_neq in Hmode. by rewrite Hmode.
Qed.

(** What [_perform_data_migrations] does when the marker reads [v], in terms
    of the run of the repair passes. *)
Lemma perform_data_migrations_enabled N config s text v :
  data_migrations_mode config = "enabled" →
  data_version s = Rows (Some text) → py_int text = Ok v →
  let repairs := _perform_version_1_data_migrations N s in
  _perform_data_migrations N config s =
  if v =? latest_data_version then mkRun s [] (Ok tt)
  else if v <? 1
       then match outcome repairs with
            | Ok _ => mkRun (set_data_version (py_str latest_data_version) (final repairs))
                            (log_performing v :: emitted repairs
                               ++ [Wrote (WDataVersion (py_str latest_data_version))])
                            (Ok tt)
            | Raise e => mkRun (final repairs) (log_performing v :: emitted repairs) (Raise e)
            end
       else mkRun (set_data_version (py_str latest_data_version) s)
                  [log_performing v; Wrote (WDataVersion (py_str latest_data_version))]
                  (Ok tt).
Proof.
  intros Hmode Hdv Hint. cbv zeta.
  pose proof (preserves_version_1 N s) as [Hkeep _].
  unfold _perform_data_migrations. rewrite Hmode.
  generalize dependent (_perform_version_1_data_migrations N). intros repairs Hkeep.
  unfold get_current_data_version, create_data_version. unfold_run.
  rewrite Hdv. unfold_run. rewrite Hint. unfold_run.
  destruct (v =? latest_data_version); [done |]. unfold_run.
  destruct (v <? 1); unfold_run.
  - destruct (outcome (repairs s)) eqn:Ho; unfold_run; [| done].
    rewrite Hkeep, Hdv. unfold_run. by destruct a.
  - by rewrite Hdv.
Qed.

(** C10, as amended.  With data migrations enabled and a marker that reads
    [v], other than the latest version: when [v] is above it, the marker is
    overwritten with the latest version, so it moves backwards, and no repair
    pass runs; when [v] is below 1 the repair passes of version 1 run first,
    and the marker is overwritten with the latest version when they complete,
    while the exception escapes and the marker keeps its text when one of
    them raises. *)
Theorem perform_data_migrations_stale N config s text v :
  data_migrations_mode config = "enabled" →
  data_version s = Rows (Some text) → py_int text = Ok v →
  v ≠ latest_data_version →
  let r := _perform_data_migrations N config s in
  let repairs := _perform_version_1_data_migrations N s in
  (latest_data_version < v →
     r = mkRun (set_data_version (py_str latest_data_version) s)
               [log_performing v; Wrote (WDataVersion (py_str latest_data_version))]
               (Ok tt))
  ∧ (v < 1 →
       emitted r = log_performing v :: emitted repairs
                     ++ (if is_ok (outcome repairs)
                         then [Wrote (WDataVersion (py_str latest_data_version))]
                         else [])
       ∧ match outcome repairs with
         | Ok _ => outcome r = Ok tt
                   ∧ final r = set_data_version (py_str latest_data_version) (final repairs)
         | Raise e => outcome r = Raise e
                      ∧ data_version (final r) = Rows (Some text)
         end).
Proof.
  intros Hmode Hdv Hint Hstale. cbv zeta.
  rewrite (perform_data_migrations_enabled N config s text v) by done. cbv zeta.
  pose proof (preserves_version_1 N s) as [Hkeep _].
  destruct (Z.eqb_spec v latest_data_version) as [| _]; [done |].
  unfold latest_data_version in *.
  split; intros Hv.
  - destruct (Z.ltb_spec v 1); [lia | done].
  - destruct (Z.ltb_spec v 1); [| lia].
    destruct (outcome (_perform_version_1_data_migrations N s)) eqn:Ho; cbn.
    + done.
    + rewrite app_nil_r, Hkeep. done.
Qed.

Lemma perform_data_migrations_stale_witness :
  data_version (final (_perform_data_migrations 2 (enabled "enabled") store_ahead))
  = Rows (Some "1").
Proof.
  destruct (perform_data_migrations_stale 2 (enabled "enabled") store_ahead "3" 3)
    as [H _]; [reflexivity | reflexivity | reflexivity | discriminate |].
  rewrite H; [reflexivity | unfold latest_data_version; lia].
Defined.

(** The claim C10 as it is stated does not hold: with data migrations
    disabled the marker stays, and at version 0 a tag without artifact makes
    the repair passes raise, after which the marker is still 0. *)
Lemma perform_data_migrations_marker_kept :
  data_version (final (_perform_data_migrations 2 (enabled "disabled") store_ahead))
  = Rows (Some "3")
  ∧ data_version (final (_perform_data_migrations 2 (enabled "enabled") store_orphan))
    = Rows (Some "0")
  ∧ is_ok (outcome (_perform_data_migrations 2 (enabled "enabled") store_orphan)) = false.
Proof. by vm_compute. Qed.

(** ** Duplicated artifact tags *)

(** A tag whose artifact is gone stops the gathering of the tags of a key:
    the tag is logged, and the lookup that follows raises. *)
Lemma collect_key_tags_orphan (m : gmap nat Artifact) (key : string)
    (before : list Tag) (t : Tag) (after : list Tag) (s : Store) :
  Forall (λ t', is_Some (m !! tag_obj_id t')) before →
  m !! tag_obj_id t = None →
  collect_key_tags m key (before ++ t :: after) s
  = mkRun s [log_orphan t] (Raise (mkExc KeyError (py_str (Z.of_nat (tag_obj_id t))))).
Proof.
  intros Hbefore Ht. unfold collect_key_tags.
  set (step := λ (artifact_key_tags : list Tag) (tag : Tag), _).
  enough (∀ acc, fold_m step (before ++ t :: after) acc s
                 = mkRun s [log_orphan t]
                         (Raise (mkExc KeyError (py_str (Z.of_nat (tag_obj_id t))))))
    by done.
  induction Hbefore as [| t' before [a Ha] _ IH]; intros acc; cbn [app fold_m].
  - unfold step, lookup_artifact. rewrite Ht. by unfold_run.
  - assert (Hstep : step acc t' s
                    = mkRun s [] (Ok (if String.eqb (art_key a) key
                                      then acc ++ [t'] else acc))).
    { unfold step, lookup_artifact. rewrite Ha. done. }
    rewrite run_bind, Hstep. cbn [final emitted outcome]. by rewrite IH.
Qed.

Lemma fold_m_raises_first {A B} (f : B → A → M B) (x : A) (l : list A) (acc : B)
    (s : Store) (events : list Event) (e : PyExc) :
  f acc x s = mkRun s events (Raise e) →
  fold_m f (x :: l) acc s = mkRun s events (Raise e).
Proof. intros Hx. cbn [fold_m]. rewrite run_bind, Hx. done. Qed.

Lemma tags_to_delete_orphan (m : gmap nat Artifact) (arts : list Artifact)
    (first : Artifact) (rest : list Artifact)
    (tgs before : list Tag) (t : Tag) (after : list Tag) (s : Store) :
  arts = first :: rest →
  tgs = before ++ t :: after →
  Forall (λ t', is_Some (m !! tag_obj_id t')) before →
  m !! tag_obj_id t = None →
  fold_m (project_tags_to_delete m arts tgs) (set_items (art_project <$> arts)) [] s
  = mkRun s [log_orphan t] (Raise (mkExc KeyError (py_str (Z.of_nat (tag_obj_id t))))).
Proof.
  intros -> -> Hbefore Ht. cbn [fmap list_fmap set_items].
  apply fold_m_raises_first. unfold project_tags_to_delete.
  cbn [List.filter]. rewrite String.eqb_refl. cbn [fmap list_fmap set_items].
  apply fold_m_raises_first. unfold key_tags_to_delete.
  rewrite run_bind, collect_key_tags_orphan by done. done.
Qed.

(** In a store with an artifact, the first tag whose artifact is gone makes
    the whole pass raise, before any tag is deleted. *)
Lemma orphan_tag_raises (s : Store) (first : Artifact) (rest : list Artifact)
    (before : list Tag) (t : Tag) (after : list Tag) :
  artifacts s = first :: rest →
  tags s = before ++ t :: after →
  Forall (λ t', ¬ is_orphan s t') before →
  is_orphan s t →
  _fix_artifact_tags_duplications s
  = mkRun s [Log Info "Fixing artifact tags duplications" []; log_orphan t]
          (Raise (mkExc KeyError (py_str (Z.of_nat (tag_obj_id t))))).
Proof.
  intros Harts Htags Hbefore Ht. unfold is_orphan in *.
  assert (Hbefore' : Forall (λ t', is_Some (artifact_record_id_map (artifacts s)
                                             !! tag_obj_id t')) before).
  { eapply Forall_impl; [exact Hbefore |]. intros t' Ht'. cbn in Ht'.
    destruct (artifact_record_id_map (artifacts s) !! tag_obj_id t') eqn:Hl; [by eexists |].
    done. }
  pose proof (tags_to_delete_orphan _ _ _ _ _ _ _ _ s Harts Htags Hbefore' Ht) as Hfold.
  unfold _fix_artifact_tags_duplications, _find_artifacts, query_tags. unfold_run.
  by rewrite Hfold.
Qed.

(** C5: the code at an input where the claim fails.  With a tag whose
    artifact is gone the pass logs the tag and then raises [KeyError] on the
    lookup that follows: the duplicated tags of the other artifacts stay,
    while the same store without that tag is deduplicated. *)
Theorem orphan_tag_aborts_deduplication :
  let r := _fix_artifact_tags_duplications store_orphan_and_duplicates in
  outcome r = Raise (mkExc KeyError "99")
  ∧ log_orphan (latest 3 "default" 99) ∈ emitted r
  ∧ tags (final r) = tags store_orphan_and_duplicates
  ∧ group_tags "default" "model" "latest" (final r)
    = [latest 1 "default" 1; latest 2 "default" 2]
  ∧ tags (final (_fix_artifact_tags_duplications store_duplicates))
    = [latest 2 "default" 2].
Proof.
  vm_compute. repeat split; try reflexivity.
  apply list_elem_of_In. right. left. reflexivity.
Qed.

(** C3: the code at an input where the claim fails.  The tags of a key are
    gathered from all projects, so the group of the first project, which has
    two tags, is left with none: both lose against the artifact of the other
    project. *)
Theorem tags_of_other_project_deleted :
  let r := _fix_artifact_tags_duplications store_two_projects in
  outcome r = Ok tt
  ∧ group_tags "default" "model" "latest" store_two_projects
    = [latest 1 "default" 1; latest 2 "default" 2]
  ∧ group_tags "default" "model" "latest" (final r) = []
  ∧ tags (final r) = [latest 3 "other" 3].
Proof. vm_compute. repeat split; reflexivity. Qed.

Lemma last_updated_loop_earliest (l same : list Artifact) :
  Forall (λ a, art_updated a = Some datetime_min) l →
  last_updated_loop l (None, datetime_min, same) = Ok (None, datetime_min, same ++ l).
Proof.
  revert same. induction l as [| a l IH]; intros same Hl.
  - by rewrite app_nil_r.
  - apply Forall_cons in Hl as [Ha Hl]. cbn [last_updated_loop].
    unfold last_updated_step at 1. rewrite Ha. cbn.
    rewrite IH by done. by rewrite <- app_assoc.
Qed.

(** X22. When every artifact handed to [_find_last_updated_artifact] has the
    earliest time there is as update time, none counts as updated: the first
    of the artifacts handed over is returned, the store is as it was, and what
    is logged is that several artifacts have the same update time, when there
    is more than one, and then that none had an update time. *)
Theorem find_last_updated_artifact_earliest_time
    (first : Artifact) (rest : list Artifact) (s : Store) :
  Forall (λ a, art_updated a = Some datetime_min) (first :: rest) →
  let r := _find_last_updated_artifact (first :: rest) s in
  outcome r = Ok first
  ∧ final r = s
  ∧ emitted r = (if (1 <? length (first :: rest))%nat
                 then [log_same_update_time (first :: rest)] else [])
                ++ [log_no_update_time (first :: rest)].
Proof.
  intros Hl. unfold _find_last_updated_artifact.
  rewrite (last_updated_loop_earliest _ [] Hl). cbn [app].
  unfold log_same_update_time, log_no_update_time. unfold_run.
  by destruct rest.
Qed.

Lemma find_last_updated_artifact_earliest_time_witness :
  outcome (_find_last_updated_artifact
             [model 2 "default" (Some datetime_min); model 1 "default" (Some datetime_min)]
             store_earliest)
  = Ok (model 2 "default" (Some datetime_min)).
Proof.
  apply (find_last_updated_artifact_earliest_time
           (model 2 "default" (Some datetime_min))
           [model 1 "default" (Some datetime_min)] store_earliest).
  repeat constructor.
Defined.

(** ** Rules for the store and the outcome of a run *)

Lemma wp_bind {A B} (m : M A) (f : A → M B) s (Q : Store → PyResult B → Prop) :
  wp m s (λ s1 r1, match r1 with
                   | Ok a => wp (f a) s1 Q
                   | Raise e => Q s1 (Raise e)
                   end) →
  wp (m ≫= f) s Q.
Proof. unfold wp. rewrite run_bind. by destruct (outcome (m s)). Qed.

Lemma wp_ret {A} (a : A) s (Q : Store → PyResult A → Prop) :
  Q s (Ok a) → wp (mret a : M A) s Q.
Proof. done. Qed.

Lemma wp_raise {A} (e : PyExc) s (Q : Store → PyResult A → Prop) :
  Q s (Raise e) → wp (raise e : M A) s Q.
Proof. done. Qed.

Lemma wp_lift {A} (r : PyResult A) s (Q : Store → PyResult A → Prop) :
  Q s r → wp (lift r) s Q.
Proof. done. Qed.

Lemma wp_logger lvl msg kwargs s (Q : Store → PyResult unit → Prop) :
  Q s (Ok tt) → wp (logger lvl msg kwargs) s Q.
Proof. done. Qed.

Lemma wp_emit ev s (Q : Store → PyResult unit → Prop) :
  Q s (Ok tt) → wp (emit ev) s Q.
Proof. done. Qed.

Lemma wp_get_store s (Q : Store → PyResult Store → Prop) :
  Q s (Ok s) → wp get_store s Q.
Proof. done. Qed.

Lemma wp_put_store s' s (Q : Store → PyResult unit → Prop) :
  Q s' (Ok tt) → wp (put_store s') s Q.
Proof. done. Qed.

Lemma wp_when (b : bool) (m : M unit) s (Q : Store → PyResult unit → Prop) :
  (if b then wp m s Q else Q s (Ok tt)) → wp (when b m) s Q.
Proof. by destruct b. Qed.

Lemma wp_try_except {A} (m : M A) (h : PyExc → M A) s (Q : Store → PyResult A → Prop) :
  wp m s (λ s1 r1, match r1 with
                   | Ok a => Q s1 (Ok a)
                   | Raise e => wp (h e) s1 Q
                   end) →
  wp (try_except m h) s Q.
Proof.
  unfold wp, try_except. destruct (outcome (m s)) eqn:Ho; cbn; [by rewrite Ho | done].
Qed.

Lemma wp_try_finally {A} (m : M A) s (Q : Store → PyResult A → Prop) :
  wp m s Q → wp (try_finally m close_session) s Q.
Proof. unfold wp, try_finally. done. Qed.

(** A run that only reads: what is known of its outcome is all there is. *)
Lemma wp_reads {A} (m : M A) s (Q : Store → PyResult A → Prop) :
  preserves eq m → Q s (outcome (m s)) → wp m s Q.
Proof. intros Hm HQ. unfold wp. by rewrite <- (Hm s). Qed.

Lemma wp_mono {A} (m : M A) s (Q Q' : Store → PyResult A → Prop) :
  wp m s Q → (∀ s' r, Q s' r → Q' s' r) → wp m s Q'.
Proof. unfold wp. eauto. Qed.

(** An invariant of the accumulator of a loop, which may speak of the items
    gone through so far. *)
Lemma fold_m_invariant {A B} (I : list A → B → Prop) (f : B → A → M B) :
  (∀ pre a b s b', I pre b → outcome (f b a s) = Ok b' → I (pre ++ [a]) b') →
  ∀ l pre acc s b',
    I pre acc → outcome (fold_m f l acc s) = Ok b' → I (pre ++ l) b'.
Proof.
  intros Hstep l. induction l as [| x l IH]; intros pre acc s b' Hacc Ho.
  - cbn in Ho. simplify_eq. by rewrite app_nil_r.
  - cbn [fold_m] in Ho. rewrite run_bind in Ho.
    destruct (outcome (f acc x s)) as [acc' |] eqn:Hx; cbn in Ho; [| done].
    rewrite (cons_middle x pre l), app_assoc. eapply IH; [| done].
    eapply Hstep; done.
Qed.

(** ** Dictionaries *)

Lemma dict_lookup_set_eq {A} (k : string) (v : A) d :
  dict_lookup k (dict_set k v d) = Some v.
Proof.
  induction d as [| [k' v'] d IH]; cbn.
  - by rewrite String.eqb_refl.
  - destruct (String.eqb k k') eqn:E; cbn; rewrite ?String.eqb_refl, ?E; done.
Qed.

Lemma dict_lookup_set_ne {A} (k k' : string) (v : A) d :
  k ≠ k' → dict_lookup k' (dict_set k v d) = dict_lookup k' d.
Proof.
  intros Hne. induction d as [| [k0 v0] d IH]; cbn.
  - apply not_eq_sym, String.eqb_neq in Hne. by rewrite Hne.
  - destruct (String.eqb_spec k k0) as [-> | Hk0]; cbn.
    + apply not_eq_sym, String.eqb_neq in Hne. by rewrite Hne.
    + by rewrite IH.
Qed.

Lemma dict_lookup_del_eq {A} (k : string) (d : list (string * A)) :
  dict_lookup k (dict_del k d) = None.
Proof.
  unfold dict_del. induction d as [| [k0 v0] d IH]; cbn; [done |].
  destruct (String.eqb_spec k k0) as [-> | Hk0]; cbn; [done |].
  apply String.eqb_neq in Hk0. by rewrite Hk0.
Qed.

Lemma dict_lookup_del_ne {A} (k k' : string) (d : list (string * A)) :
  k ≠ k' → dict_lookup k' (dict_del k d) = dict_lookup k' d.
Proof.
  intros Hne. unfold dict_del. induction d as [| [k0 v0] d IH]; cbn; [done |].
  destruct (String.eqb_spec k k0) as [-> | Hk0]; cbn.
  - apply not_eq_sym, String.eqb_neq in Hne. by rewrite Hne.
  - by rewrite IH.
Qed.

Lemma dict_has_false {A} (k : string) (d : list (string * A)) :
  dict_has k d = false → dict_lookup k d = None.
Proof.
  unfold dict_has. intros H. apply bool_decide_eq_false_1 in H.
  destruct (dict_lookup k d); [| done]. by destruct H.
Qed.

(** ** Large dataset previews *)

Lemma str_take_length (n : nat) (s : string) : (String.length (str_take n s) ≤ n)%nat.
Proof.
  revert s. induction n as [| n IH]; intros [| c s]; cbn; try lia.
  specialize (IH s). lia.
Qed.

Lemma py_slice_to_within (N : nat) (v v' : value) :
  py_slice_to N v = Ok v' → within N v'.
Proof.
  destruct v; cbn; intros H; simplify_eq.
  - eexists; split; [done |]. apply str_take_length.
  - eexists; split; [done |]. rewrite length_take. lia.
Qed.

(** The outcome of a run as a fact about [wp]. *)
Lemma wp_outcome {A} (m : M A) s (P : A → Prop) :
  wp m s (λ _ r, ∀ a, r = Ok a → P a) → ∀ a, outcome (m s) = Ok a → P a.
Proof. unfold wp. eauto. Qed.

(** [x ← lift r; ...]: the cases of [r]. *)
Ltac wp_lift H :=
  apply wp_bind, wp_lift; cbn beta;
  match goal with
  | |- match ?r with _ => _ end => destruct r eqn:H; [| try done]
  end.

Ltac wp_log := apply wp_bind, wp_logger; cbn beta.

Lemma align_preview_rows_within N d rows s rows' :
  outcome (align_preview_rows N d rows s) = Ok rows' → Forall (within N) rows'.
Proof.
  intros H.
  apply (fold_m_invariant (λ _ acc, Forall (within N) acc) _) with (pre := []) in H;
    [done | | done].
  clear. intros _ row acc s acc' Hacc. apply wp_outcome.
  wp_lift Hlen. apply wp_bind, wp_when.
  assert (Hrest : wp (lift (py_slice_to N row) ≫= λ row', mret (acc ++ [row']))
                     s (λ _ r, ∀ acc', r = Ok acc' → Forall (within N) acc')).
  { wp_lift Hrow. apply wp_ret. intros ? [= <-].
    apply Forall_app; split; [done |]. apply Forall_singleton.
    by eapply py_slice_to_within. }
  destruct (_ <? _)%nat; [apply wp_logger |]; exact Hrest.
Qed.

Lemma align_schema_fields_names removed fields s fields' :
  outcome (align_schema_fields removed fields s) = Ok fields' →
  Forall (names_none_of removed) fields'.
Proof.
  intros H.
  apply (fold_m_invariant (λ _ acc, Forall (names_none_of removed) acc) _)
    with (pre := []) in H; [done | | done].
  clear. intros _ field acc s acc' Hacc. apply wp_outcome.
  wp_lift Hname. wp_lift Hin. apply wp_ret. intros ? [= <-].
  match goal with b : bool |- _ => destruct b end; [done |].
  apply Forall_app; split; [done |]. apply Forall_singleton. by eexists.
Qed.

Definition stats_aligned (ad : list (string * value)) (done_ : list value) (d' : value)
  : Prop :=
  ∃ ad', d' = VDict ad'
         ∧ (∀ k, k ≠ "stats" → dict_lookup k ad' = dict_lookup k ad)
         ∧ stats_without done_ ad ad'.

Lemma align_stats_aligned columns ad s d' :
  outcome (align_stats columns (VDict ad) s) = Ok d' → stats_aligned ad columns d'.
Proof.
  intros H.
  apply (fold_m_invariant (stats_aligned ad) _) with (pre := []) in H; [done | |].
  2:{ exists ad. split; [done |]. split; [done |]. split; [done |].
      intros stats Hst. exists stats. split; [done |]. intros c Hc. by apply elem_of_nil in Hc. }
  clear. intros pre col d s d' (ad' & -> & Hothers & Hnone & Hdict). apply wp_outcome.
  wp_lift Hget. cbn in Hget. simplify_eq.
  wp_lift Hin. match goal with b : bool |- _ => destruct b end.
  - (* the column is in the stats, it is deleted *)
    wp_lift Hitem. wp_lift Hdel. apply wp_lift. cbn. intros ? [= <-].
    cbn in Hitem. destruct (dict_lookup "stats" ad') as [st |] eqn:Hst; simplify_eq.
    eexists. split; [done |]. split; [| split].
    + intros k Hk. rewrite dict_lookup_set_ne by done. by apply Hothers.
    + intros Hn. specialize (Hnone Hn). done.
    + intros stats Hstats. destruct (Hdict stats Hstats) as (stats' & Hst' & Hpre).
      simplify_eq. cbn in Hdel.
      destruct col as [| | | k | |]; try done.
      destruct (dict_has k stats'); simplify_eq.
      exists (dict_del k stats'). split; [by rewrite dict_lookup_set_eq |].
      intros c Hc. destruct (decide (k = c)) as [-> | Hne].
      * apply dict_lookup_del_eq.
      * rewrite dict_lookup_del_ne by done. apply Hpre.
        apply elem_of_app in Hc as [Hc | Hc]; [done |].
        apply list_elem_of_singleton in Hc. by simplify_eq.
  - (* the column is not in the stats *)
    apply wp_ret. intros ? [= <-].
    exists ad'. split; [done |]. split; [done |]. split; [done |].
    intros stats Hstats. destruct (Hdict stats Hstats) as (stats' & Hst' & Hpre).
    exists stats'. split; [done |]. intros c Hc.
    apply elem_of_app in Hc as [Hc | Hc]; [by apply Hpre |].
    apply list_elem_of_singleton in Hc. subst col.
    rewrite Hst' in Hin. cbn in Hin. simplify_eq. by apply dict_has_false.
Qed.

(** [x ← lift r; ...] in a run whose failures leave the store as it was. *)
Ltac fix_lift H :=
  apply wp_bind, wp_lift; cbn beta;
  match goal with
  | |- match ?r with _ => _ end =>
      destruct r eqn:H; [| solve [left; eexists; split; reflexivity]]
  end.

Lemma wp_store_artifact key body uid project s (Q : Store → PyResult unit → Prop) :
  Q (set_artifact_body project key uid body s) (Ok tt) →
  wp (_store_artifact key body uid project) s Q.
Proof. done. Qed.

Lemma preview_within_ext N ad ad1 ad' :
  dict_lookup "preview" ad' = dict_lookup "preview" ad1 →
  preview_within N ad ad1 → preview_within N ad ad'.
Proof. unfold preview_within. by intros ->. Qed.

Lemma stats_without_ext columns ad ad1 ad2 ad' :
  dict_lookup "stats" ad1 = dict_lookup "stats" ad →
  dict_lookup "stats" ad' = dict_lookup "stats" ad2 →
  stats_without columns ad1 ad2 → stats_without columns ad ad'.
Proof. unfold stats_without. by intros -> ->. Qed.

(** The block that aligns the preview. *)
Lemma align_preview_block N ad preview s :
  py_get (VDict ad) "preview" VNone = Ok preview →
  wp (if py_truthy preview
      then preview ← lift (py_getitem (VDict ad) "preview");
           rows ← lift (py_iter preview);
           new_preview ← align_preview_rows N (VDict ad) rows;
           lift (py_setitem (VDict ad) "preview" (VList new_preview))
      else mret (VDict ad))
     s
     (λ s1 r1, s1 = s
               ∧ ∀ d1, r1 = Ok d1 →
                   ∃ ad1, d1 = VDict ad1
                          ∧ (∀ k, k ≠ "preview" → dict_lookup k ad1 = dict_lookup k ad)
                          ∧ preview_within N ad ad1).
Proof.
  intros Hget. cbn in Hget. simplify_eq. unfold preview_within.
  destruct (py_truthy _) eqn:Htruthy.
  2:{ apply wp_ret. split; [done |]. intros ? [= <-]. by exists ad. }
  apply wp_bind, wp_lift. cbn beta. destruct (py_getitem _ _) as [preview |]; [| done].
  apply wp_bind, wp_lift. cbn beta. destruct (py_iter _) as [rows |]; [| done].
  apply wp_bind, wp_reads; [unfold align_preview_rows; frame |].
  destruct (outcome (align_preview_rows N (VDict ad) rows s)) as [new |] eqn:Hrows;
    [| done].
  apply wp_lift. split; [done |]. cbn. intros ? [= <-].
  eexists. split; [done |]. split.
  - intros k Hk. by apply dict_lookup_set_ne.
  - exists new. split; [apply dict_lookup_set_eq |].
    by eapply align_preview_rows_within.
Qed.

(** The block that aligns the schema. *)
Lemma align_schema_block removed ad schema fields s :
  py_get (VDict ad) "schema" (VDict []) = Ok schema →
  py_get schema "fields" VNone = Ok fields →
  wp (if py_truthy fields
      then schema ← lift (py_getitem (VDict ad) "schema");
           fields ← lift (py_getitem schema "fields");
           fields ← lift (py_iter fields);
           new_schema_fields ← align_schema_fields removed fields;
           schema ← lift (py_setitem schema "fields" (VList new_schema_fields));
           lift (py_setitem (VDict ad) "schema" schema)
      else mret (VDict ad))
     s
     (λ s1 r1, s1 = s
               ∧ ∀ d1, r1 = Ok d1 →
                   ∃ ad1, d1 = VDict ad1
                          ∧ (∀ k, k ≠ "schema" → dict_lookup k ad1 = dict_lookup k ad)
                          ∧ schema_without removed ad ad1).
Proof.
  intros Hschema Hfields. unfold schema_without.
  destruct (py_truthy fields) eqn:Htruthy.
  2:{ apply wp_ret. split; [done |]. intros ? [= <-]. exists ad.
      split; [done |]. split; [done |]. exists schema, fields. by rewrite Htruthy. }
  apply wp_bind, wp_lift. cbn beta. destruct (py_getitem _ _) as [schema0 |]; [| done].
  apply wp_bind, wp_lift. cbn beta. destruct (py_getitem _ _) as [fields0 |]; [| done].
  apply wp_bind, wp_lift. cbn beta. destruct (py_iter _) as [items |]; [| done].
  apply wp_bind, wp_reads; [unfold align_schema_fields; frame |].
  destruct (outcome (align_schema_fields removed items s)) as [new |] eqn:Hnew; [| done].
  apply wp_bind, wp_lift. cbn beta.
  destruct (py_setitem schema0 _ _) as [schema1 |] eqn:Hset1; [| done].
  apply wp_lift. split; [done |]. cbn. intros ? [= <-].
  eexists. split; [done |]. split.
  - intros k Hk. by apply dict_lookup_set_ne.
  - exists schema, fields. rewrite Htruthy. split; [done |]. split; [done |].
    exists schema1, new. split; [apply dict_lookup_set_eq |].
    destruct schema0; cbn in Hset1; simplify_eq. cbn. rewrite dict_lookup_set_eq.
    split; [done |]. by eapply align_schema_fields_names.
Qed.

Lemma fix_dataset_large_preview_cases N a s :
  wp (fix_dataset_large_preview N a) s (fix_cases N a s).
Proof.
  destruct a as [id project key uid updated d]. unfold fix_dataset_large_preview.
  cbn [art_struct art_project art_key art_uid].
  apply wp_bind.
  destruct (py_truthy d) eqn:Htruthy.
  2:{ apply wp_ret, wp_when. right; left. split; [done |]. split; [done |].
      intros (? & ? & ? & ? & _). cbn [art_struct] in *. congruence. }
  fix_lift Hkind. apply wp_ret, wp_when.
  destruct (py_eq _ _) eqn:Hdataset.
  2:{ right; left. split; [done |]. split; [done |].
      intros (? & ? & ? & ? & ? & ? & _). cbn [art_struct] in *. congruence. }
  fix_lift Hheader. rename a0 into header. apply wp_bind.
  destruct (py_truthy header) eqn:Hhtruthy.
  2:{ apply wp_ret, wp_when. right; left. split; [done |]. split; [done |].
      intros (? & ? & ? & ? & ? & ? & ? & ? & _). cbn [art_struct] in *. congruence. }
  fix_lift Hlen. rename a0 into n. apply wp_ret, wp_when.
  destruct (N <? n)%nat eqn:Hwide.
  2:{ right; left. split; [done |]. split; [done |].
      intros (? & ? & n' & ? & ? & ? & Hh' & ? & Hl' & Hlt). cbn [art_struct] in *.
      apply Nat.ltb_ge in Hwide. rewrite Hheader in Hh'. simplify_eq.
      rewrite Hlen in Hl'. simplify_eq. lia. }
  apply Nat.ltb_lt in Hwide.
  assert (Htoo : too_wide_dataset N d) by (by exists a, header, n).
  destruct d as [| | | | | ad]; try done.
  wp_log. fix_lift Hremoved. rename a0 into removed.
  fix_lift Hpreview.
  (* align preview *)
  apply wp_bind.
  eapply wp_mono; [by apply align_preview_block |]. cbn beta.
  intros ? [d1 |] [-> H1]; [| solve [left; eexists; split; reflexivity]].
  destruct (H1 _ eq_refl) as (ad1 & -> & Hk1 & Hpreview1). clear H1.
  (* align stats *)
  fix_lift Hcolumns. rename a1 into columns.
  apply wp_bind, wp_reads; [unfold align_stats; frame |].
  destruct (outcome (align_stats columns (VDict ad1) s)) as [d2 |] eqn:Hstats;
    [| solve [left; eexists; split; reflexivity]].
  apply align_stats_aligned in Hstats as (ad2 & -> & Hk2 & Hstats2).
  (* align schema *)
  fix_lift Hschema. fix_lift Hfields. apply wp_bind.
  eapply wp_mono; [by eapply (align_schema_block removed) |]. cbn beta.
  intros ? [d3 |] [-> H3]; [| solve [left; eexists; split; reflexivity]].
  destruct (H3 _ eq_refl) as (ad3 & -> & Hk3 & Hschema3). clear H3.
  (* lastly, align headers *)
  fix_lift Hslice. rename a3 into header'.
  apply wp_bind, wp_lift. cbn.
  wp_log. apply wp_store_artifact.
  right; right. eexists. split; [done |]. split; [done |]. split; [done |].
  exists ad, (dict_set "header" header' ad3), header, removed, columns, header'.
  assert (Hothers : ∀ k, k ≠ "header" →
            dict_lookup k (dict_set "header" header' ad3) = dict_lookup k ad3).
  { intros k Hk. by apply dict_lookup_set_ne. }
  split_and!; try done.
  - apply dict_lookup_set_eq.
  - by eapply py_slice_to_within.
  - eapply preview_within_ext; [| done].
    rewrite Hothers, Hk3, Hk2 by done. done.
  - eapply stats_without_ext; [| | done].
    + by apply Hk1.
    + rewrite Hothers, Hk3 by done. done.
  - destruct Hschema3 as (schema & fields & Hs & Hf & Hrest).
    exists schema, fields. split.
    { cbn in Hs |- *. rewrite <- Hk1, <- Hk2 by done. done. }
    split; [done |]. destruct (py_truthy fields).
    + by rewrite Hothers.
    + rewrite Hothers, Hrest, Hk2, Hk1 by done. done.
  - intros k Hk.
    rewrite Hothers, Hk3, Hk2, Hk1; [done | ..];
      intros ->; apply Hk; repeat constructor.
Qed.

(** ** Outcomes that do not depend on the store *)

Lemma oblivious_ret {A} (a : A) : oblivious (mret a : M A).
Proof. done. Qed.

Lemma oblivious_lift {A} (r : PyResult A) : oblivious (lift r).
Proof. done. Qed.

Lemma oblivious_logger lvl msg kwargs : oblivious (logger lvl msg kwargs).
Proof. done. Qed.

Lemma oblivious_store_artifact key body uid project :
  oblivious (_store_artifact key body uid project).
Proof. done. Qed.

Lemma oblivious_bind {A B} (m : M A) (f : A → M B) :
  oblivious m → (∀ a, oblivious (f a)) → oblivious (m ≫= f).
Proof.
  intros Hm Hf s s'. rewrite !run_bind, (Hm s s').
  destruct (outcome (m s')); cbn; [apply Hf | done].
Qed.

Lemma oblivious_when (b : bool) (m : M unit) : oblivious m → oblivious (when b m).
Proof. by destruct b. Qed.

Lemma oblivious_fold_m {A B} (f : B → A → M B) (l : list A) (acc : B) :
  (∀ b a, oblivious (f b a)) → oblivious (fold_m f l acc).
Proof.
  intros Hf. revert acc. induction l as [| x l IH]; intros acc; cbn [fold_m].
  - apply oblivious_ret.
  - apply oblivious_bind; [apply Hf | apply IH].
Qed.

Ltac oblivious_step :=
  first
    [ apply oblivious_ret | apply oblivious_lift | apply oblivious_logger
    | apply oblivious_store_artifact
    | apply oblivious_when
    | apply oblivious_fold_m; intros ? ?
    | apply oblivious_bind; [| intros ?]
    | match goal with
      | |- oblivious (match ?x with _ => _ end) => destruct x
      end ].

Lemma oblivious_fix_dataset_large_preview N a : oblivious (fix_dataset_large_preview N a).
Proof.
  unfold fix_dataset_large_preview, align_preview_rows, align_stats, align_schema_fields.
  repeat oblivious_step.
Qed.

(** ** The loop over the artifacts *)

Lemma run_bind_assoc {A B C} (m : M A) (f : A → M B) (g : B → M C) (s : Store) :
  ((m ≫= f) ≫= g) s = (m ≫= λ a, f a ≫= g) s.
Proof.
  rewrite !run_bind. destruct (outcome (m s)) as [a |]; cbn [final emitted outcome]; [| done].
  rewrite !run_bind. destruct (outcome (f a (final (m s)))); cbn; by rewrite ?app_assoc.
Qed.

Lemma run_bind_ext {A B} (m : M A) (f g : A → M B) (s : Store) :
  (∀ a s', f a s' = g a s') → (m ≫= f) s = (m ≫= g) s.
Proof. intros Hfg. rewrite !run_bind. destruct (outcome (m s)); by rewrite ?Hfg. Qed.

Lemma run_ret_bind {A B} (a : A) (f : A → M B) (s : Store) : (mret a ≫= f) s = f a s.
Proof. rewrite run_bind. cbn. apply run_eta. Qed.

Lemma for_each_app {A} (l1 l2 : list A) (body : A → M unit) (s : Store) :
  for_each (l1 ++ l2) body s = (for_each l1 body ≫= λ _, for_each l2 body) s.
Proof.
  revert s. induction l1 as [| x l1 IH]; intros s.
  - cbn [app for_each]. by rewrite run_ret_bind.
  - cbn [app for_each]. rewrite run_bind_assoc. apply run_bind_ext. intros _ s'. apply IH.
Qed.

Lemma for_each_ok {A} (l : list A) (body : A → M unit) (s : Store) :
  (∀ a s, outcome (body a s) = Ok tt) → outcome (for_each l body s) = Ok tt.
Proof.
  intros Hbody. revert s. induction l as [| x l IH]; intros s; [done |].
  cbn [for_each]. rewrite run_bind, Hbody. cbn. apply IH.
Qed.

(** One turn of the loop: it never raises; the store is left as the body of
    the [try] left it, and a failure of the body is logged. *)
Lemma fix_or_continue_run N a s :
  let body := fix_dataset_large_preview N a s in
  outcome (fix_or_continue N a s) = Ok tt
  ∧ final (fix_or_continue N a s) = final body
  ∧ emitted (fix_or_continue N a s)
    = emitted body ++ match outcome body with
                      | Ok _ => []
                      | Raise e => [log_failed e]
                      end.
Proof.
  cbv zeta. unfold fix_or_continue, try_except.
  pose proof (fix_dataset_large_preview_cases N a s) as Hcases. unfold wp in Hcases.
  destruct (outcome (fix_dataset_large_preview N a s)) as [[] |] eqn:Ho; cbn.
  - by rewrite Ho, app_nil_r.
  - done.
Qed.

Lemma fix_dataset_large_preview_failed N a s e :
  outcome (fix_dataset_large_preview N a s) = Raise e →
  final (fix_dataset_large_preview N a s) = s.
Proof.
  intros Ho. pose proof (fix_dataset_large_preview_cases N a s) as Hcases.
  unfold wp in Hcases. rewrite Ho in Hcases.
  destruct Hcases as [(? & _ & ?) | [(? & _) | (? & ? & _)]]; done.
Qed.

(** C8. The loop of the pass over the dataset previews never raises, whatever
    the artifacts that were listed and whatever the store: no failure in the
    body of the [try] leaves the loop.  When the body of the [try] fails for
    an artifact, the store is as it was before that artifact, the failure is
    logged, and the artifacts after it are gone through as if nothing had
    happened. *)
Theorem large_previews_pass_is_best_effort N :
  (∀ listed s, outcome (for_each listed (fix_or_continue N) s) = Ok tt)
  ∧ (∀ s before a after e,
       artifacts s = before ++ a :: after →
       let r1 := for_each before (fix_or_continue N) s in
       let body := fix_dataset_large_preview N a (final r1) in
       outcome body = Raise e →
       let r2 := for_each after (fix_or_continue N) (final r1) in
       let r := _fix_datasets_large_previews N s in
       final r = final r2
       ∧ emitted r = Log Info "Fixing datasets large previews" []
                     :: emitted r1 ++ emitted body ++ [log_failed e] ++ emitted r2).
Proof.
  assert (Hloop : ∀ l s, outcome (for_each l (fix_or_continue N) s) = Ok tt).
  { intros l s. apply for_each_ok. intros a s'. apply fix_or_continue_run. }
  split; [exact Hloop |].
  - intros s before a after e Hsplit. cbv zeta. intros Hbody.
    unfold _fix_datasets_large_previews, _find_artifacts. unfold_run.
    rewrite Hsplit, for_each_app, run_bind, Hloop.
    cbn [final emitted outcome for_each]. rewrite run_bind.
    destruct (fix_or_continue_run N a (final (for_each before (fix_or_continue N) s)))
      as (Ho & Hf & He).
    rewrite Ho, Hf, He, Hbody. cbn [final emitted outcome].
    rewrite (fix_dataset_large_preview_failed _ _ _ _ Hbody).
    split; [done |]. by rewrite <- !app_assoc.
Qed.

Lemma large_previews_pass_is_best_effort_witness :
  final (_fix_datasets_large_previews 2 store_malformed)
  = final (for_each [dataset 2 "good" (wide ["a"; "b"; "c"]
                                         (VList [VList [VInt 1; VInt 2; VInt 3]]))]
                    (fix_or_continue 2) store_malformed).
Proof.
  destruct (large_previews_pass_is_best_effort 2) as [_ H].
  eapply (H store_malformed []); [reflexivity | reflexivity].
Defined.

Lemma same_artifact_identity a b :
  same_artifact (art_project a) (art_key a) (art_uid a) b = true
  ↔ artifact_identity a = artifact_identity b.
Proof.
  unfold same_artifact, artifact_identity.
  rewrite !andb_true_iff, !String.eqb_eq. split.
  - intros [[-> ->] ->]. done.
  - intros [= -> -> ->]. done.
Qed.

Lemma with_body_same_row a d b :
  same_row b (with_body (art_project a) (art_key a) (art_uid a) d b).
Proof. unfold with_body, same_row, artifact_identity. by destruct (same_artifact _ _ _ _). Qed.

Lemma with_body_other a d b :
  artifact_identity a ≠ artifact_identity b →
  with_body (art_project a) (art_key a) (art_uid a) d b = b.
Proof.
  intros Hne. unfold with_body.
  destruct (same_artifact _ _ _ _) eqn:Hsame; [| done].
  by apply same_artifact_identity in Hsame.
Qed.

Lemma with_body_struct a d b :
  artifact_identity a = artifact_identity b →
  art_struct (with_body (art_project a) (art_key a) (art_uid a) d b) = d.
Proof.
  intros Heq. unfold with_body. apply same_artifact_identity in Heq. by rewrite Heq.
Qed.

Lemma same_row_trans a b c : same_row a b → same_row b c → same_row a c.
Proof. unfold same_row. intros (? & ? & ?) (? & ? & ?). split_and!; congruence. Qed.

(** The rows of the store after the loop over [l]. *)
Lemma previews_loop_rows N s_ref l :
  NoDup (artifact_identity <$> l) →
  ∀ s, Forall2 (row_after N l s_ref) (artifacts s)
               (artifacts (final (for_each l (fix_or_continue N) s))).
Proof.
  induction l as [| a l IH]; intros Hnd s.
  - cbn. apply Forall2_same_length_lookup. split; [done |].
    intros i x y Hx Hy. simplify_eq. split; [done |]. split; [done |].
    intros b Hb. by apply elem_of_nil in Hb.
  - rewrite fmap_cons in Hnd. apply NoDup_cons in Hnd as [Ha Hnd].
    cbn [for_each]. rewrite run_bind.
    destruct (fix_or_continue_run N a s) as (Ho & Hf & _). rewrite Ho, Hf.
    cbn [final]. clear Ho Hf.
    pose proof (fix_dataset_large_preview_cases N a s) as Hcases. unfold wp in Hcases.
    assert (Hfresh : ∀ b, b ∈ l → artifact_identity b ≠ artifact_identity a).
    { intros b Hb Heq. apply Ha. rewrite <- Heq. by apply list_elem_of_fmap_2. }
    set (s1 := final (fix_dataset_large_preview N a s)) in *.
    assert (Hs1 : ∃ f : Artifact → Artifact,
               artifacts s1 = f <$> artifacts s
               ∧ ∀ a0, same_row a0 (f a0)
                       ∧ (artifact_identity a ≠ artifact_identity a0 → f a0 = a0)
                       ∧ (artifact_identity a = artifact_identity a0 →
                          if is_ok (outcome (fix_dataset_large_preview N a s_ref))
                          then (too_wide_dataset N (art_struct a) →
                                truncated N (art_struct a) (art_struct (f a0)))
                               ∧ (¬ too_wide_dataset N (art_struct a) → f a0 = a0)
                          else f a0 = a0)).
    { rewrite (oblivious_fix_dataset_large_preview N a s_ref s).
      destruct Hcases as [(e & -> & ->) | [(-> & -> & Hnot) | (d' & -> & -> & Htoo & Htr)]].
      - exists id. by rewrite list_fmap_id.
      - exists id. by rewrite list_fmap_id.
      - exists (with_body (art_project a) (art_key a) (art_uid a) d'). split; [done |].
        intros a0. split; [apply with_body_same_row |].
        split; [apply with_body_other |].
        intros Heq. cbn. split; [| done]. intros _. by rewrite with_body_struct. }
    destruct Hs1 as (f & Hs1 & Hf).
    specialize (IH Hnd s1). rewrite Hs1, Forall2_fmap_l in IH.
    eapply Forall2_impl; [exact IH |]. clear IH.
    intros a0 a0' (Hrow & Hrest & Hmine). cbn in Hrow, Hrest, Hmine.
    destruct (Hf a0) as (Hrow0 & Hother0 & Hsame0).
    assert (Hid : artifact_identity (f a0) = artifact_identity a0) by apply Hrow0.
    rewrite Hid in Hrest, Hmine.
    split; [by eapply same_row_trans |]. split.
    + intros Hnone. rewrite Hrest.
      * rewrite Hother0; [done |]. apply Hnone. by left.
      * intros b Hb. apply Hnone. by right.
    + intros b Hb Heq. apply elem_of_cons in Hb as [-> | Hb].
      * (* the artifact of this turn *)
        assert (Hkept : art_struct a0' = art_struct (f a0)).
        { apply Hrest. intros b Hb Heq'. apply (Hfresh b Hb). congruence. }
        specialize (Hsame0 Heq). rewrite Hkept.
        destruct (is_ok _); [| by rewrite Hsame0].
        destruct Hsame0 as [Htr Hnot]. split; [done |].
        intros Hn. by rewrite (Hnot Hn).
      * (* an artifact of a later turn *)
        assert (Hne : artifact_identity a ≠ artifact_identity a0).
        { intros Heq'. apply (Hfresh b Hb). congruence. }
        specialize (Hmine b Hb Heq). by rewrite (Hother0 Hne) in Hmine.
Qed.

(** The rows after the pass, one by one. *)
Lemma large_previews_pass_rows N s :
  NoDup (artifact_identity <$> artifacts s) →
  let arts' := artifacts (final (_fix_datasets_large_previews N s)) in
  length (artifacts s) = length arts'
  ∧ ∀ i a a', artifacts s !! i = Some a → arts' !! i = Some a' →
              same_row a a' ∧ preview_fixed N a s (art_struct a').
Proof.
  intros Hnd.
  assert (Hfinal : final (_fix_datasets_large_previews N s)
                   = final (for_each (artifacts s) (fix_or_continue N) s)).
  { unfold _fix_datasets_large_previews, _find_artifacts. by unfold_run. }
  cbn zeta. rewrite Hfinal.
  pose proof (previews_loop_rows N s (artifacts s) Hnd s) as Hrows.
  apply Forall2_same_length_lookup in Hrows as [Hlen Hrows].
  split; [done |].
  intros i a a' Ha Ha'. destruct (Hrows i a a' Ha Ha') as (Hrow & _ & Hmine).
  split; [done |]. unfold preview_fixed.
  apply (Hmine a); [| done]. by eapply list_elem_of_lookup_2.
Qed.

(** C6, as amended.  When no two artifacts have the same project, key and
    uid, the pass leaves every row with its payload alone: a payload that
    declares a dataset with a header of more than [N] entries, and for which
    the pass does not fail, is truncated: its header is the first [N]
    entries, its preview rows are within [N], its stats have none of the
    removed columns as a key and its schema has no field named after one;
    every other payload is as it was. *)
Theorem large_previews_truncated N s :
  NoDup (artifact_identity <$> artifacts s) →
  Forall2 (λ a a', same_row a a' ∧ preview_fixed N a s (art_struct a'))
          (artifacts s) (artifacts (final (_fix_datasets_large_previews N s))).
Proof.
  intros Hnd. destruct (large_previews_pass_rows N s Hnd) as [Hlen Hrows].
  by apply Forall2_same_length_lookup.
Qed.

Lemma large_previews_truncated_witness :
  Forall2 (λ a a', same_row a a' ∧ preview_fixed 2 a store_malformed (art_struct a'))
          (artifacts store_malformed)
          (artifacts (final (_fix_datasets_large_previews 2 store_malformed))).
Proof.
  apply large_previews_truncated.
  apply (bool_decide_unpack _). vm_compute. exact I.
Defined.

(** The claim C6 as it is stated does not hold: a dataset whose header is
    within the bound is not looked at, so its preview rows stay as wide as
    they are; and a dataset for which the pass fails keeps its header. *)
Lemma previews_not_all_bounded :
  ¬ previews_bounded 2 (final (_fix_datasets_large_previews 2 store_wide_rows))
  ∧ ¬ previews_bounded 2 (final (_fix_datasets_large_previews 2 store_malformed)).
Proof.
  split; intros H.
  - destruct (H (dataset 1 "rows" (wide ["a"; "b"] (VList [VList [VInt 1; VInt 2; VInt 3]]))))
      as [_ Hrows].
    { vm_compute. left. }
    { by exists (VStr "dataset"). }
    specialize (Hrows _ _ eq_refl eq_refl).
    apply Forall_cons in Hrows as [(n & Hn & Hle) _]. cbn in Hn. simplify_eq. lia.
  - destruct (H (dataset 1 "bad" (wide ["a"; "b"; "c"] (VInt 5))))
      as [(header & Hheader & n & Hn & Hle) _].
    { vm_compute. left. }
    { by exists (VStr "dataset"). }
    cbn in Hheader. simplify_eq. cbn in Hn. simplify_eq. lia.
Qed.

(** ** Running [init_data] again *)

Lemma quiet_ret {A} (a : A) s : quiet (mret a : M A) s.
Proof. done. Qed.

Lemma quiet_logger lvl msg kwargs s : quiet (logger lvl msg kwargs) s.
Proof. done. Qed.

Lemma quiet_bind {A B} (m : M A) (f : A → M B) s :
  quiet m s → (∀ a, quiet (f a) s) → quiet (m ≫= f) s.
Proof.
  intros [Hf Hw] Hk. unfold quiet. rewrite run_bind.
  destruct (outcome (m s)) as [a |]; cbn; [| done].
  rewrite Hf, writes_app, Hw. apply Hk.
Qed.

Lemma quiet_when (b : bool) (m : M unit) s : quiet m s → quiet (when b m) s.
Proof. by destruct b. Qed.

Lemma quiet_try_finally {A} (m : M A) s : quiet m s → quiet (try_finally m close_session) s.
Proof. intros [Hf Hw]. unfold quiet, try_finally. cbn. by rewrite app_nil_r. Qed.

Lemma quiet_reads {A} (m : M A) s : preserves eq m → emits no_write m → quiet m s.
Proof.
  intros Hp He. split; [by rewrite <- (Hp s) |].
  specialize (He s). unfold writes.
  induction He as [| ev l Hev _ IH]; [done |].
  cbn. destruct ev; try done. by destruct (Hev w).
Qed.

Lemma quiet_external c f s : (f s).1 = s → quiet (external c f) s.
Proof. intros Hf. by split. Qed.

Lemma quiet_resolve_current_data_version s : quiet _resolve_current_data_version s.
Proof.
  apply quiet_reads;
    unfold _resolve_current_data_version, get_current_data_version, list_projects;
    frame; done.
Qed.

Lemma quiet_add_default_marketplace_source config s :
  source_settled config s → quiet (_add_default_marketplace_source_if_needed config) s.
Proof.
  intros Hsettled.
  unfold quiet, _add_default_marketplace_source_if_needed, get_marketplace_source.
  unfold_run.
  case_bool_decide as Hin; unfold_run; [done |].
  destruct Hsettled as [Hin' | Hnone]; [done |]. by rewrite Hnone.
Qed.

Lemma quiet_add_data_version s : marker_set s → quiet _add_data_version s.
Proof.
  intros [text Hdv]. unfold quiet, _add_data_version, get_current_data_version.
  unfold_run. by rewrite Hdv.
Qed.

Lemma quiet_perform_data_migrations N config s :
  marker_current config s → quiet (_perform_data_migrations N config) s.
Proof.
  intros Hcurrent. unfold quiet.
  destruct (String.eqb_spec (data_migrations_mode config) "enabled") as [Hmode | Hmode].
  - destruct (Hcurrent Hmode) as (text & Hdv & Hint).
    by rewrite (perform_data_migrations_enabled N config s text latest_data_version).
  - by rewrite perform_data_migrations_disabled.
Qed.

(** What the seeding and the data migrations leave when they complete. *)
Lemma wp_add_default_marketplace_source config s :
  wp (_add_default_marketplace_source_if_needed config) s
     (λ s' r, r = Ok tt → source_settled config s').
Proof.
  unfold wp, source_settled, _add_default_marketplace_source_if_needed,
    get_marketplace_source, session_add_source.
  unfold_run.
  destruct (bool_decide_reflect (default_source_name config ∈ marketplace_sources s))
    as [Hin | Hnot]; unfold_run; [by left |].
  unfold generate_default_source.
  destruct (default_source_create config); unfold_run; intros _; [left | by right].
  apply elem_of_app. right. by apply list_elem_of_singleton.
Qed.

Lemma reads_resolve_current_data_version : preserves eq _resolve_current_data_version.
Proof.
  unfold _resolve_current_data_version, get_current_data_version, list_projects.
  apply preserves_try_except; [apply _ | | intros exc].
  - frame.
  - destruct (negb _); [frame |].
    apply preserves_bind; [apply _ | frame |]. intros ps.
    repeat match goal with |- preserves _ (if ?b then _ else _) => destruct b end; frame.
Qed.

Lemma wp_add_data_version s :
  wp _add_data_version s
     (λ s' r, r = Ok tt →
              marker_set s' ∧ marketplace_sources s' = marketplace_sources s).
Proof.
  pose proof (eq_sym (reads_resolve_current_data_version s)) as Hfinal.
  unfold wp, _add_data_version, get_current_data_version. unfold_run.
  destruct (data_version s) as [reason | [text |]] eqn:Hdv; unfold_run; [done | | ].
  { intros _. split; [by exists text | done]. }
  rewrite Hfinal.
  destruct (outcome (_resolve_current_data_version s)) as [v |]; cbn; [| done].
  unfold create_data_version. unfold_run. rewrite Hdv. unfold_run.
  intros _. split; [by eexists | done].
Qed.

Lemma perform_data_migrations_unreadable N config s text e :
  data_migrations_mode config = "enabled" →
  data_version s = Rows (Some text) → py_int text = Raise e →
  outcome (_perform_data_migrations N config s) = Raise e.
Proof.
  intros Hmode Hdv Hint. unfold _perform_data_migrations, get_current_data_version.
  rewrite Hmode. unfold_run. rewrite Hdv. unfold_run. by rewrite Hint.
Qed.

Lemma wp_perform_data_migrations N config s :
  marker_set s →
  wp (_perform_data_migrations N config) s
     (λ s' r, r = Ok tt →
              marker_set s' ∧ marker_current config s'
              ∧ marketplace_sources s' = marketplace_sources s).
Proof.
  intros [text Hdv]. unfold wp.
  destruct (String.eqb_spec (data_migrations_mode config) "enabled") as [Hmode | Hmode].
  2:{ rewrite perform_data_migrations_disabled by done. cbn. intros _.
      split; [by exists text |]. split; [| done]. by intros ?. }
  destruct (py_int text) as [v | e] eqn:Hint.
  2:{ by rewrite (perform_data_migrations_unreadable N config s text e). }
  rewrite (perform_data_migrations_enabled N config s text v) by done. cbv zeta.
  pose proof (preserves_version_1 N s) as [_ Hsources].
  assert (Hlatest : ∀ s0, marker_set (set_data_version (py_str latest_data_version) s0)
                          ∧ marker_current config
                              (set_data_version (py_str latest_data_version) s0)).
  { intros s0. split; [by eexists |]. intros _. by eexists. }
  destruct (Z.eqb_spec v latest_data_version) as [-> | Hstale]; cbn.
  { intros _. split; [by exists text |]. split; [| done]. intros _. by exists text. }
  destruct (v <? 1).
  - destruct (outcome (_perform_version_1_data_migrations N s)); cbn; [| done].
    intros _. destruct (Hlatest (final (_perform_version_1_data_migrations N s))).
    done.
  - cbn. intros _. by destruct (Hlatest s).
Qed.

Lemma wp_after {A B} (m : M A) (f : A → M B) s (Q : Store → PyResult B → Prop) :
  (∀ e s', Q s' (Raise e)) → (∀ a s', wp (f a) s' Q) → wp (m ≫= f) s Q.
Proof. intros Hraise Hf. apply wp_bind. unfold wp at 1. destruct (outcome (m s)); eauto. Qed.

(** The seeding and the data migrations, when they complete, leave a store
    that is initialised, whatever store they start from. *)
Lemma seeded_and_migrated N config s :
  wp (_add_initial_data config ≫= λ _, _perform_data_migrations N config) s
     (λ s' r, r = Ok tt → initialised config s').
Proof.
  apply wp_bind. unfold _add_initial_data. apply wp_bind.
  eapply wp_mono; [apply wp_add_default_marketplace_source |]. cbn beta.
  intros s1 [[] | e] Hsource; [| done]. specialize (Hsource eq_refl).
  eapply wp_mono; [apply wp_add_data_version |]. cbn beta.
  intros s2 [[] | e] Hmarker; [| done]. destruct (Hmarker eq_refl) as [Hset Hsources].
  eapply wp_mono; [by apply wp_perform_data_migrations |]. cbn beta.
  intros s3 r Hr Hok. destruct (Hr Hok) as (Hset' & Hcurrent & Hsources').
  split; [| done]. unfold source_settled in *. by rewrite Hsources', Hsources.
Qed.

(** ** Running a repair pass again *)

#[local] Instance only_artifacts_preorder : PreOrder only_artifacts.
Proof.
  split; [by intros s |].
  intros s1 s2 s3 (? & ? & ? & ?) (? & ? & ? & ?). split_and!; congruence.
Qed.

#[local] Instance only_tags_preorder : PreOrder only_tags.
Proof.
  split; [by intros s |].
  intros s1 s2 s3 (? & ? & ? & ?) (? & ? & ? & ?). split_and!; congruence.
Qed.

Lemma filter_none {A} (f : A → bool) (l : list A) :
  (∀ x, x ∈ l → f x = false) → List.filter f l = [].
Proof.
  induction l as [| x l IH]; intros Hl; [done |]. cbn.
  rewrite (Hl x) by left. apply IH. intros y Hy. apply Hl. by right.
Qed.

Lemma enrich_row_idempotent (r : ProjectRow) : enrich_row (enrich_row r) = enrich_row r.
Proof. by destruct r as [[d|] [st|]]. Qed.

Lemma enrich_row_settled (r : ProjectRow) : needs_enrichment (enrich_row r) = false.
Proof. by destruct r as [[d|] [st|]]. Qed.

(** The enrichment of the project states changes nothing when it is run on
    the store it has left. *)
Lemma enrich_project_state_again (s : Store) :
  quiet _enrich_project_state (final (_enrich_project_state s)).
Proof.
  destruct (projects s) as [reason | m] eqn:Hm.
  - assert (Hrun : ∀ s0, projects s0 = Unavailable reason →
                         final (_enrich_project_state s0) = s0
                         ∧ writes (emitted (_enrich_project_state s0)) = []).
    { intros s0 H0. unfold _enrich_project_state, list_projects. unfold_run.
      by rewrite H0. }
    destruct (Hrun s Hm) as [Hf _]. rewrite Hf. by apply Hrun.
  - destruct (enrich_project_state_run s m Hm) as (_ & Hf & _).
    rewrite Hf, enrich_fold_map.
    destruct (enrich_project_state_run (set_projects (enrich_row <$> m) s)
                (enrich_row <$> m) eq_refl) as (_ & Hf' & Hw).
    split.
    + rewrite Hf', enrich_fold_map.
      assert (enrich_row <$> (enrich_row <$> m) = enrich_row <$> m) as ->; [| done].
      rewrite <- map_fmap_compose. apply map_fmap_ext. intros k r _.
      apply enrich_row_idempotent.
    + (* no row is left to enrich *)
      rewrite Hw, filter_none; [done |].
      intros [k r] Hin. apply elem_of_map_to_list in Hin.
      rewrite lookup_fmap in Hin. destruct (m !! k); simplify_eq/=.
      apply enrich_row_settled.
Qed.

Lemma truncated_not_too_wide N d d' : truncated N d d' → ¬ too_wide_dataset N d'.
Proof.
  intros (ad & ad' & header & removed & columns & header' & -> & -> & _ & _ & _ & _
          & Hheader' & (n & Hn & Hle) & _)
         (kind & header'' & n' & _ & _ & _ & Hget & _ & Hlen & Hlt).
  cbn in Hget. rewrite Hheader' in Hget. simplify_eq/=. rewrite Hn in Hlen.
  simplify_eq. lia.
Qed.

Lemma preserves_fix_datasets_only_artifacts N :
  preserves only_artifacts (_fix_datasets_large_previews N).
Proof.
  assert (∀ key body uid project,
            preserves only_artifacts (_store_artifact key body uid project))
    by (by intros ? ? ? ? s).
  assert (preserves only_artifacts _find_artifacts) by (by intros s).
  unfold _fix_datasets_large_previews, fix_or_continue, fix_dataset_large_preview,
    align_preview_rows, align_stats, align_schema_fields.
  frame.
Qed.

Lemma same_row_identities (l l' : list Artifact) :
  Forall2 same_row l l' → artifact_identity <$> l' = artifact_identity <$> l.
Proof.
  induction 1 as [| a a' l l' (_ & Hid & _) _ IH]; [done |].
  cbn. by rewrite Hid, IH.
Qed.

(** The truncation of the large previews leaves the store as it is when it is
    run on the store it has left. *)
Lemma fix_datasets_large_previews_again N s :
  NoDup (artifact_identity <$> artifacts s) →
  let s1 := final (_fix_datasets_large_previews N s) in
  final (_fix_datasets_large_previews N s1) = s1.
Proof.
  intros Hnd s1.
  assert (Hpass : ∀ s0, NoDup (artifact_identity <$> artifacts s0) →
            Forall2 (λ a a', same_row a a' ∧ preview_fixed N a s0 (art_struct a'))
                    (artifacts s0) (artifacts (final (_fix_datasets_large_previews N s0)))).
  { intros s0 H0. by apply Forall2_same_length_lookup, large_previews_pass_rows. }
  pose proof (Hpass s Hnd) as Hfirst. fold s1 in Hfirst.
  assert (Hnd1 : NoDup (artifact_identity <$> artifacts s1)).
  { rewrite (same_row_identities (artifacts s) (artifacts s1)); [done |].
    eapply Forall2_impl; [exact Hfirst |]. by intros ? ? [? _]. }
  pose proof (Hpass s1 Hnd1) as Hsecond.
  set (s2 := final (_fix_datasets_large_previews N s1)) in *.
  destruct (preserves_fix_datasets_only_artifacts N s1) as (Hdv & Hps & Htags & Hsrc).
  fold s2 in Hdv, Hps, Htags, Hsrc.
  assert (Harts : artifacts s2 = artifacts s1).
  { apply Forall2_same_length_lookup in Hfirst as [_ Hfirst].
    apply Forall2_same_length_lookup in Hsecond as [Hlen Hsecond].
    symmetry. apply list_eq_same_length with (length (artifacts s1)); [done | done |].
    intros i a1 a2 _ H1 H2.
    destruct (Hsecond i a1 a2 H1 H2) as [(Hid & Hident & Hupd) Hfixed].
    assert (Hstruct : art_struct a2 = art_struct a1).
    { destruct (lookup_lt_is_Some_2 (artifacts s) i) as [a0 H0].
      { apply lookup_lt_Some in H1.
        pose proof (Forall2_length _ _ _ (Hpass s Hnd)). fold s1 in H.
        lia. }
      destruct (Hfirst i a0 a1 H0 H1) as [(Hid0 & Hident0 & Hupd0) Hfixed0].
      unfold preview_fixed in Hfixed, Hfixed0.
      destruct (is_ok (outcome (fix_dataset_large_preview N a1 s1))) eqn:Hok1; [| done].
      destruct Hfixed as [_ Hsame]. apply Hsame.
      destruct (is_ok (outcome (fix_dataset_large_preview N a0 s))) eqn:Hok0.
      - destruct Hfixed0 as [Htr Hnot]. intros Htoo.
        assert (Hnot0 : ¬ too_wide_dataset N (art_struct a0)).
        { intros Htoo0. by apply (truncated_not_too_wide _ _ _ (Htr Htoo0)). }
        rewrite (Hnot Hnot0) in Htoo. done.
      - (* the first run failed on this artifact, which is as it was *)
        assert (a1 = a0) as ->.
        { destruct a0, a1. unfold artifact_identity in *. cbn in *. by simplify_eq. }
        rewrite (oblivious_fix_dataset_large_preview N a0 s1 s) in Hok1. congruence. }
    destruct a1, a2. unfold artifact_identity in *. cbn in *. by simplify_eq. }
  destruct s1, s2. cbn in *. by subst.
Qed.

(** *** Lists and loops *)

Lemma elem_of_List_filter {A} (f : A → bool) (l : list A) (x : A) :
  x ∈ List.filter f l ↔ x ∈ l ∧ f x = true.
Proof. rewrite !list_elem_of_In. apply List.filter_In. Qed.

Lemma elem_of_set_items (l : list string) (x : string) : x ∈ set_items l ↔ x ∈ l.
Proof.
  induction l as [| y l IH]; [done |]. cbn [set_items].
  rewrite !elem_of_cons, elem_of_List_filter, IH.
  destruct (String.eqb_spec y x) as [-> | Hne]; [naive_solver |].
  split; [naive_solver |]. intros [-> | Hx]; [by left | by right].
Qed.

(** The invariant of a loop whose steps are only known for the items of the
    list. *)
Lemma fold_m_invariant_in {A B} (I : list A → B → Prop) (f : B → A → M B) (l : list A) :
  (∀ pre a b s b', a ∈ l → I pre b → outcome (f b a s) = Ok b' → I (pre ++ [a]) b') →
  ∀ pre acc s b', I pre acc → outcome (fold_m f l acc s) = Ok b' → I (pre ++ l) b'.
Proof.
  intros Hstep.
  enough (∀ l', (∀ a, a ∈ l' → a ∈ l) →
            ∀ pre acc s b', I pre acc → outcome (fold_m f l' acc s) = Ok b' →
                            I (pre ++ l') b') by eauto.
  induction l' as [| x l' IH]; intros Hsub pre acc s b' Hacc Ho.
  - cbn in Ho. simplify_eq. by rewrite app_nil_r.
  - cbn [fold_m] in Ho. rewrite run_bind in Ho.
    destruct (outcome (f acc x s)) as [acc' |] eqn:Hx; cbn in Ho; [| done].
    rewrite (cons_middle x pre l'), app_assoc. eapply IH; [| | done].
    + intros a Ha. apply Hsub. by right.
    + eapply Hstep; [| done | done]. apply Hsub. by left.
Qed.

(** A loop that gathers tags and only reads: what it has gathered stays, and
    every item has made its contribution [C]. *)
Lemma fold_m_collects {A} (f : list Tag → A → M (list Tag))
    (C : Store → A → list Tag → Prop) (l : list A) :
  (∀ acc x, preserves eq (f acc x)) →
  (∀ acc x D s, x ∈ l → outcome (f acc x s) = Ok D → acc ⊆ D ∧ C s x D) →
  (∀ s x D D', C s x D → D ⊆ D' → C s x D') →
  ∀ acc s D, outcome (fold_m f l acc s) = Ok D → acc ⊆ D ∧ ∀ x, x ∈ l → C s x D.
Proof.
  intros Hreads Hstep Hup.
  enough (∀ l', (∀ a, a ∈ l' → a ∈ l) →
            ∀ acc s D, outcome (fold_m f l' acc s) = Ok D →
                       acc ⊆ D ∧ ∀ x, x ∈ l' → C s x D) by eauto.
  induction l' as [| x l' IH]; intros Hsub acc s D Ho.
  - cbn in Ho. simplify_eq. split; [done |]. intros x Hx. by apply elem_of_nil in Hx.
  - cbn [fold_m] in Ho. rewrite run_bind in Ho.
    destruct (outcome (f acc x s)) as [acc' |] eqn:Hx; cbn in Ho; [| done].
    rewrite <- (Hreads acc x s) in Ho.
    destruct (Hstep acc x acc' s) as [Hacc HC]; [apply Hsub; by left | done |].
    destruct (IH (λ a Ha, Hsub a (list_elem_of_further _ _ _ Ha)) acc' s D Ho) as [Hacc' HC'].
    split; [by etrans |]. intros y Hy. apply elem_of_cons in Hy as [-> | Hy]; [| by apply HC'].
    by eapply Hup.
Qed.

(** *** The map of the artifacts *)

Lemma artifact_record_id_map_lookup (arts : list Artifact) (i : nat) (a : Artifact) :
  artifact_record_id_map arts !! i = Some a → art_id a = i ∧ a ∈ arts.
Proof.
  unfold artifact_record_id_map.
  enough (∀ m0 : gmap nat Artifact,
            foldl (λ m artifact, <[art_id artifact := artifact]> m) m0 arts !! i = Some a →
            (art_id a = i ∧ a ∈ arts) ∨ m0 !! i = Some a) as H.
  { intros Hl. destruct (H ∅ Hl) as [? | Hempty]; [done |]. by rewrite lookup_empty in Hempty. }
  induction arts as [| b arts IH]; intros m0 Hl; [by right |].
  cbn [foldl] in Hl. destruct (IH _ Hl) as [[Hid Hin] | Hm0].
  - left. split; [done | by right].
  - destruct (decide (art_id b = i)) as [<- | Hne].
    + rewrite lookup_insert_eq in Hm0. simplify_eq. left. split; [done | by left].
    + rewrite lookup_insert_ne in Hm0 by done. by right.
Qed.

(** *** The parts of the deduplication only read *)

Lemma reads_find_last_updated_artifact l : preserves eq (_find_last_updated_artifact l).
Proof. unfold _find_last_updated_artifact. frame. Qed.

Lemma reads_lookup_artifact m i : preserves eq (lookup_artifact m i).
Proof. unfold lookup_artifact. frame. Qed.

Lemma reads_collect_key_tags m key tgs : preserves eq (collect_key_tags m key tgs).
Proof. unfold collect_key_tags. pose proof reads_lookup_artifact. frame. Qed.

Lemma reads_name_tags_to_delete m g : preserves eq (name_tags_to_delete m g).
Proof.
  unfold name_tags_to_delete.
  pose proof reads_lookup_artifact. pose proof reads_find_last_updated_artifact.
  destruct (length g =? 1)%nat; frame.
Qed.

Lemma reads_key_tags_to_delete m tgs acc key : preserves eq (key_tags_to_delete m tgs acc key).
Proof.
  unfold key_tags_to_delete.
  pose proof reads_collect_key_tags. pose proof reads_name_tags_to_delete. frame.
Qed.

Lemma reads_project_tags_to_delete m arts tgs acc project :
  preserves eq (project_tags_to_delete m arts tgs acc project).
Proof. unfold project_tags_to_delete. pose proof reads_key_tags_to_delete. frame. Qed.

Lemma reads_tags_to_delete_plan s0 : preserves eq (tags_to_delete_plan s0).
Proof. unfold tags_to_delete_plan. pose proof reads_project_tags_to_delete. frame. Qed.

(** *** What each part computes *)

Lemma last_updated_loop_elem (P : Artifact → Prop) (l : list Artifact) :
  ∀ acc last t same,
    last_updated_loop l acc = Ok (last, t, same) →
    (∀ a, acc.1.1 = Some a → P a) → (∀ a, a ∈ l → P a) →
    ∀ a, last = Some a → P a.
Proof.
  induction l as [| x l IH]; intros [[last0 t0] same0] last t same Hrun Hacc Hl a Ha.
  - cbn in Hrun. simplify_eq. by apply Hacc.
  - cbn [last_updated_loop] in Hrun. unfold last_updated_step in Hrun at 1.
    destruct (art_updated x) as [u |]; [| done].
    assert (P x) as Hx by (apply Hl; by left).
    assert (∀ b, b ∈ l → P b) as Hl' by (intros b Hb; apply Hl; by right).
    destruct (t0 <? u)%N; [| destruct (u =? t0)%N];
      cbn in Hrun; eapply (IH _ _ _ _ Hrun); cbn; try done; by intros; simplify_eq.
Qed.

(** The artifact [_find_last_updated_artifact] returns is one of those given. *)
Lemma find_last_updated_artifact_elem (l : list Artifact) (s : Store) (w : Artifact) :
  outcome (_find_last_updated_artifact l s) = Ok w → w ∈ l.
Proof.
  destruct l as [| first rest]; [done |]. revert w.
  apply wp_outcome. unfold _find_last_updated_artifact.
  wp_lift Hloop. destruct a as [[last t] same].
  apply wp_bind, wp_reads; [destruct (1 <? length same)%nat; cbn; frame |].
  destruct (outcome _) as [[] |]; [| done]. destruct last as [a |].
  - apply wp_ret. intros w ?. simplify_eq.
    eapply (last_updated_loop_elem (λ a, a ∈ first :: rest)); [done | done | done | done].
  - apply wp_bind, wp_logger, wp_ret. intros w ?. simplify_eq. by left.
Qed.

(** The tags [collect_key_tags] hands out are those of the key. *)
Lemma collect_key_tags_filter m key tgs s G :
  outcome (collect_key_tags m key tgs s) = Ok G → G = List.filter (has_key m key) tgs.
Proof.
  unfold collect_key_tags. intros Ho.
  eapply (fold_m_invariant (λ pre acc, acc = List.filter (has_key m key) pre)) with (pre := [])
    in Ho; [done | | done].
  clear. intros pre t acc s acc' -> Ho. rewrite List.filter_app. cbn [List.filter].
  revert acc' Ho. apply wp_outcome.
  apply wp_bind, wp_reads; [destruct (negb _); cbn; frame |].
  destruct (outcome _) as [[] |]; [| done].
  unfold lookup_artifact, has_key. destruct (m !! tag_obj_id t) as [a |].
  - apply wp_bind, wp_ret, wp_ret. intros acc' ?. simplify_eq.
    destruct (art_key a =? key)%string; [done | by rewrite app_nil_r].
  - apply wp_bind, wp_raise. done.
Qed.

Lemma has_key_spec m key t : has_key m key t = true ↔ key_of m t = Some key.
Proof.
  unfold has_key, key_of. destruct (m !! tag_obj_id t) as [a |]; cbn; [| done].
  rewrite String.eqb_eq. naive_solver.
Qed.

Lemma dict_elem_of_set {A} (k k' : string) (v v' : A) d :
  (k', v') ∈ dict_set k v d → (k', v') = (k, v) ∨ (k', v') ∈ d.
Proof.
  induction d as [| [k0 v0] d IH]; cbn.
  - intros Hin. apply list_elem_of_singleton in Hin. by left.
  - destruct (String.eqb k k0); rewrite !elem_of_cons; naive_solver.
Qed.

Lemma dict_lookup_elem {A} (k : string) (v : A) d : dict_lookup k d = Some v → (k, v) ∈ d.
Proof.
  induction d as [| [k0 v0] d IH]; cbn; [done |].
  destruct (String.eqb_spec k k0) as [-> | Hne]; intros Hl.
  - simplify_eq. by left.
  - right. by apply IH.
Qed.

Lemma tag_name_tags_map_snoc (l : list Tag) (t : Tag) :
  tag_name_tags_map (l ++ [t])
  = dict_set (tag_name t)
      (from_option id [] (dict_lookup (tag_name t) (tag_name_tags_map l)) ++ [t])
      (tag_name_tags_map l).
Proof. unfold tag_name_tags_map. by rewrite foldl_app. Qed.

(** The tags filed under a name are the tags of that name, in their order. *)
Lemma tag_name_tags_map_lookup (l : list Tag) (n : string) :
  dict_lookup n (tag_name_tags_map l)
  = match List.filter (has_name n) l with [] => None | g => Some g end.
Proof.
  induction l as [| t l IH] using rev_ind; [done |].
  rewrite tag_name_tags_map_snoc, List.filter_app. cbn [List.filter]. unfold has_name at 2.
  destruct (String.eqb_spec (tag_name t) n) as [<- | Hne].
  - rewrite dict_lookup_set_eq, IH.
    by destruct (List.filter (has_name (tag_name t)) l).
  - rewrite dict_lookup_set_ne, app_nil_r by done. apply IH.
Qed.

Lemma tag_name_tags_map_elem (l : list Tag) (n : string) (g : list Tag) (t : Tag) :
  (n, g) ∈ tag_name_tags_map l → t ∈ g → t ∈ l ∧ tag_name t = n.
Proof.
  revert n g. induction l as [| t0 l IH] using rev_ind; intros n g Hg Ht.
  - by apply elem_of_nil in Hg.
  - rewrite tag_name_tags_map_snoc in Hg.
    apply dict_elem_of_set in Hg as [Heq | Hg].
    + simplify_eq. rewrite tag_name_tags_map_lookup in Ht.
      apply elem_of_app in Ht as [Ht | Ht].
      * assert (t ∈ List.filter (has_name (tag_name t0)) l) as Hin
          by (by destruct (List.filter (has_name (tag_name t0)) l)).
        apply elem_of_List_filter in Hin as [Hin Hname].
        apply String.eqb_eq in Hname. split; [| done]. apply elem_of_app. by left.
      * apply list_elem_of_singleton in Ht as ->. split; [| done].
        apply elem_of_app. right. by left.
    + destruct (IH _ _ Hg Ht) as [Hin Hname]. split; [| done]. apply elem_of_app. by left.
Qed.

Lemma tag_name_tags_map_group (l : list Tag) (t : Tag) :
  t ∈ l → (tag_name t, List.filter (has_name (tag_name t)) l) ∈ tag_name_tags_map l.
Proof.
  intros Ht. apply dict_lookup_elem. rewrite tag_name_tags_map_lookup.
  assert (t ∈ List.filter (has_name (tag_name t)) l) as Hin.
  { apply elem_of_List_filter. split; [done |]. apply String.eqb_refl. }
  destruct (List.filter (has_name (tag_name t)) l); [| done]. by apply elem_of_nil in Hin.
Qed.

(** The tags of one name to delete: none when there is one tag, otherwise the
    tags that do not point to one artifact, to which a tag of the name
    points. *)
Lemma name_tags_to_delete_cases m g s more :
  outcome (name_tags_to_delete m g s) = Ok more →
  (length g = 1%nat ∧ more = [])
  ∨ ∃ w t, t ∈ g ∧ m !! tag_obj_id t = Some w
           ∧ more = List.filter (λ tag, negb (Nat.eqb (tag_obj_id tag) (art_id w))) g.
Proof.
  unfold name_tags_to_delete. destruct (Nat.eqb_spec (length g) 1) as [Hone | Hmore].
  { intros Ho. cbn in Ho. simplify_eq. by left. }
  revert more. apply wp_outcome.
  apply wp_bind, wp_reads; [pose proof reads_lookup_artifact; frame |].
  destruct (outcome _) as [arts |] eqn:Harts; [| done].
  eapply (fold_m_invariant (λ pre acc, Forall2 (λ t a, m !! tag_obj_id t = Some a) pre acc))
    with (pre := []) in Harts; [| | done].
  2:{ clear. intros pre t acc s acc' Hacc. apply wp_outcome. unfold lookup_artifact.
      destruct (m !! tag_obj_id t) as [a |] eqn:Ha.
      - apply wp_bind, wp_ret, wp_ret. intros ? ?. simplify_eq.
        apply Forall2_app; [done |]. by constructor.
      - apply wp_bind, wp_raise. done. }
  cbn [app] in Harts.
  apply wp_bind, wp_reads; [apply reads_find_last_updated_artifact |].
  destruct (outcome _) as [w |] eqn:Hw; [| done].
  apply find_last_updated_artifact_elem in Hw.
  apply wp_ret. intros more ?. simplify_eq. right.
  apply list_elem_of_lookup in Hw as [i Hi].
  destruct (Forall2_lookup_r _ _ _ _ _ Harts Hi) as (t & Ht & Hm).
  exists w, t. split; [by eapply list_elem_of_lookup_2 |]. done.
Qed.

(** *** Deleting the tags *)

Lemma for_each_session_delete (D : list Tag) (s : Store) :
  let s' := final (for_each D session_delete s) in
  only_tags s s'
  ∧ ∀ t, t ∈ tags s' ↔ t ∈ tags s ∧ ∀ d, d ∈ D → tag_id t ≠ tag_id d.
Proof.
  revert s. induction D as [| d D IH]; intros s; cbn zeta.
  - split; [done |]. intros t. split; [| naive_solver].
    intros Ht. split; [done |]. intros d Hd. by apply elem_of_nil in Hd.
  - cbn [for_each]. rewrite run_bind.
    change (outcome (session_delete d s)) with (Ok tt : PyResult unit).
    change (final (session_delete d s)) with (remove_tag d s). cbn [final].
    destruct (IH (remove_tag d s)) as [Hframe Htags]. split.
    + etrans; [| apply Hframe]. done.
    + intros t. rewrite Htags. cbn [remove_tag tags]. rewrite elem_of_List_filter.
      rewrite negb_true_iff, Nat.eqb_neq. split.
      * intros [[Ht Hd] HD]. split; [done |]. intros d' Hd'.
        apply elem_of_cons in Hd' as [-> | Hd']; [done | by apply HD].
      * intros [Ht HD]. split_and!; [done | apply HD; by left |].
        intros d' Hd'. apply HD. by right.
Qed.

(** The deduplication is its plan followed by the deletions: when the plan
    raises, nothing has been deleted. *)
Lemma fix_artifact_tags_duplications_run (s : Store) :
  let r := _fix_artifact_tags_duplications s in
  match outcome (tags_to_delete_plan s s) with
  | Ok D => final r = final (for_each D session_delete s) ∧ outcome r = Ok tt
  | Raise e => final r = s ∧ outcome r = Raise e
  end.
Proof.
  cbn zeta.
  enough (wp _fix_artifact_tags_duplications s
            (λ s' r, match outcome (tags_to_delete_plan s s) with
                     | Ok D => s' = final (for_each D session_delete s) ∧ r = Ok tt
                     | Raise e => s' = s ∧ r = Raise e
                     end)) as H by exact H.
  unfold _fix_artifact_tags_duplications, _find_artifacts, query_tags.
  wp_log. apply wp_bind, wp_bind, wp_get_store, wp_ret.
  apply wp_bind, wp_bind, wp_get_store, wp_ret.
  apply wp_bind, wp_reads; [apply (reads_tags_to_delete_plan s) |].
  fold (tags_to_delete_plan s).
  destruct (outcome (tags_to_delete_plan s s)) as [[| d D] | e]; [by apply wp_ret | | done].
  apply wp_bind, wp_logger. unfold wp.
  split; [done |]. apply for_each_ok. done.
Qed.

(** *** The tags to delete *)

Lemma key_tags_to_delete_collects m tgs acc key D s :
  outcome (key_tags_to_delete m tgs acc key s) = Ok D → acc ⊆ D ∧ key_done m tgs s key D.
Proof.
  unfold key_tags_to_delete. rewrite run_bind, <- (reads_collect_key_tags m key tgs s).
  destruct (outcome (collect_key_tags m key tgs s)) as [G |] eqn:HG; [| done].
  apply collect_key_tags_filter in HG as ->. cbn [outcome].
  apply (fold_m_collects _ (name_done m)).
  - intros acc' ng. pose proof reads_name_tags_to_delete. frame.
  - clear. intros acc [n g] D s _. rewrite run_bind.
    destruct (outcome (name_tags_to_delete m (n, g).2 s)) as [more |] eqn:Hmore; [| done].
    cbn. intros ?. simplify_eq. split.
    + intros t Ht. apply elem_of_app. by left.
    + exists more. split; [done |]. intros t Ht. apply elem_of_app. by right.
  - clear. intros s ng D D' (more & Hmore & Hsub) HD. exists more. split; [done | by etrans].
Qed.

Lemma project_tags_to_delete_collects m arts tgs acc project D s :
  outcome (project_tags_to_delete m arts tgs acc project s) = Ok D →
  acc ⊆ D ∧ project_done m arts tgs s project D.
Proof.
  unfold project_tags_to_delete. apply (fold_m_collects _ (key_done m tgs)).
  - intros. apply reads_key_tags_to_delete.
  - intros acc' key D' s' _. apply key_tags_to_delete_collects.
  - clear. intros s key D D' Hkey HD ng Hng.
    destruct (Hkey ng Hng) as (more & Hmore & Hsub). exists more. split; [done | by etrans].
Qed.

Lemma tags_to_delete_plan_collects s0 s D :
  outcome (tags_to_delete_plan s0 s) = Ok D →
  ∀ project, project ∈ set_items (art_project <$> artifacts s0) →
    project_done (artifact_record_id_map (artifacts s0)) (artifacts s0) (tags s0) s project D.
Proof.
  unfold tags_to_delete_plan. intros Ho.
  eapply (fold_m_collects _ (project_done _ (artifacts s0) (tags s0))) in Ho; [apply Ho | | |].
  - intros. apply reads_project_tags_to_delete.
  - intros acc' p D' s' _. apply project_tags_to_delete_collects.
  - clear. intros s p D D' Hp HD key Hkey ng Hng.
    destruct (Hp key Hkey ng Hng) as (more & Hmore & Hsub).
    exists more. split; [done | by etrans].
Qed.

(** Of two tags of one name and one key, one is to be deleted unless they
    point to the same artifact. *)
Lemma tags_to_delete_plan_complete s0 s D t1 t2 key :
  outcome (tags_to_delete_plan s0 s) = Ok D →
  t1 ∈ tags s0 → t2 ∈ tags s0 →
  key_of (artifact_record_id_map (artifacts s0)) t1 = Some key →
  key_of (artifact_record_id_map (artifacts s0)) t2 = Some key →
  tag_name t1 = tag_name t2 →
  t1 ∉ D → t2 ∉ D → tag_obj_id t1 = tag_obj_id t2.
Proof.
  set (m := artifact_record_id_map (artifacts s0)).
  intros Hplan Ht1 Ht2 Hk1 Hk2 Hname Hn1 Hn2.
  pose proof (tags_to_delete_plan_collects s0 s D Hplan) as Hdone. fold m in Hdone.
  (* the key is one of the keys of the project of the artifact of [t1] *)
  assert (∃ a, m !! tag_obj_id t1 = Some a ∧ art_key a = key) as (a & Ha & Hkey).
  { unfold key_of in Hk1. destruct (m !! tag_obj_id t1) as [a |]; [| done].
    exists a. by simplify_eq/=. }
  apply artifact_record_id_map_lookup in Ha as [_ Ha].
  assert (Hp : art_project a ∈ set_items (art_project <$> artifacts s0)).
  { apply elem_of_set_items, list_elem_of_fmap. by exists a. }
  assert (Hkeys : key ∈ set_items (art_key <$> List.filter
                    (λ a', String.eqb (art_project a') (art_project a)) (artifacts s0))).
  { apply elem_of_set_items, list_elem_of_fmap. exists a. split; [done |].
    apply elem_of_List_filter. split; [done |]. apply String.eqb_refl. }
  specialize (Hdone _ Hp _ Hkeys).
  (* the two tags are in the group of their name *)
  set (G := List.filter (has_key m key) (tags s0)) in *.
  assert (HG1 : t1 ∈ G) by (apply elem_of_List_filter; by rewrite has_key_spec).
  assert (HG2 : t2 ∈ G) by (apply elem_of_List_filter; by rewrite has_key_spec).
  set (g := List.filter (has_name (tag_name t1)) G).
  assert (Hg1 : t1 ∈ g).
  { apply elem_of_List_filter. split; [done |]. apply String.eqb_refl. }
  assert (Hg2 : t2 ∈ g).
  { apply elem_of_List_filter. split; [done |]. by apply String.eqb_eq. }
  destruct (Hdone (tag_name t1, g)) as (more & Hmore & Hsub).
  { by apply tag_name_tags_map_group. }
  cbn [snd] in Hmore.
  apply name_tags_to_delete_cases in Hmore as [[Hlen _] | (w & _ & _ & _ & ->)].
  - destruct g as [| x [| ? ?]]; try done.
    apply list_elem_of_singleton in Hg1, Hg2. congruence.
  - assert (Hkept : ∀ t, t ∈ g → t ∉ D → tag_obj_id t = art_id w).
    { intros t Ht HD. destruct (Nat.eqb_spec (tag_obj_id t) (art_id w)) as [| Hne]; [done |].
      exfalso. apply HD, Hsub, elem_of_List_filter. split; [done |].
      by apply negb_true_iff, Nat.eqb_neq. }
    rewrite (Hkept t1), (Hkept t2); done.
Qed.

(** When the tags are settled, there is no tag to delete. *)
Lemma tags_to_delete_plan_settled s0 s D :
  settled (artifact_record_id_map (artifacts s0)) (tags s0) →
  outcome (tags_to_delete_plan s0 s) = Ok D → D = [].
Proof.
  set (m := artifact_record_id_map (artifacts s0)). intros Hsettled Hplan.
  unfold tags_to_delete_plan in Hplan. fold m in Hplan.
  eapply (fold_m_invariant (λ _ acc, acc = [])) with (pre := []) in Hplan; [done | | done].
  clear s D Hplan. intros _ project acc s D -> Hproject.
  unfold project_tags_to_delete in Hproject.
  eapply (fold_m_invariant (λ _ acc, acc = [])) with (pre := []) in Hproject; [done | | done].
  clear s D Hproject. intros _ key acc s D -> Hkey.
  unfold key_tags_to_delete in Hkey. rewrite run_bind in Hkey.
  destruct (outcome (collect_key_tags m key (tags s0) s)) as [G |] eqn:HG; [| done].
  apply collect_key_tags_filter in HG as ->. cbn [outcome] in Hkey.
  eapply (fold_m_invariant_in (λ _ acc, acc = [])) with (pre := []) in Hkey; [done | | done].
  clear s D Hkey. intros _ [n g] acc s D Hg -> Hname.
  rewrite run_bind in Hname. cbn [snd] in Hname.
  destruct (outcome (name_tags_to_delete m g s)) as [more |] eqn:Hmore; [| done].
  cbn in Hname. simplify_eq.
  apply name_tags_to_delete_cases in Hmore as [[_ ->] | (w & t & Ht & Hw & ->)]; [done |].
  apply filter_none. intros t' Ht'. apply negb_false_iff, Nat.eqb_eq.
  apply artifact_record_id_map_lookup in Hw as Hid. destruct Hid as [-> _].
  (* the tags of the group are tags of the key with the same name *)
  destruct (tag_name_tags_map_elem _ _ _ _ Hg Ht) as [HGt Hnt].
  destruct (tag_name_tags_map_elem _ _ _ _ Hg Ht') as [HGt' Hnt'].
  apply elem_of_List_filter in HGt as [Hin Hk], HGt' as [Hin' Hk'].
  apply has_key_spec in Hk, Hk'.
  apply (Hsettled t' t key); try done. congruence.
Qed.

(** The deduplication of the artifact tags leaves the store as it is when it
    is run on the store it has left. *)
Lemma fix_artifact_tags_duplications_again (s : Store) :
  let s1 := final (_fix_artifact_tags_duplications s) in
  final (_fix_artifact_tags_duplications s1) = s1.
Proof.
  pose proof (fix_artifact_tags_duplications_run s) as Hfirst. cbn zeta in *.
  destruct (outcome (tags_to_delete_plan s s)) as [D |] eqn:Hplan.
  2:{ destruct Hfirst as [Hfinal _]. by rewrite !Hfinal. }
  destruct Hfirst as [Hfinal _]. rewrite Hfinal.
  set (s1 := final (for_each D session_delete s)).
  destruct (for_each_session_delete D s) as [(_ & _ & Harts & _) Htags]. fold s1 in Harts, Htags.
  pose proof (fix_artifact_tags_duplications_run s1) as Hsecond. cbn zeta in Hsecond.
  destruct (outcome (tags_to_delete_plan s1 s1)) as [D1 |] eqn:Hplan1.
  2:{ by destruct Hsecond. }
  destruct Hsecond as [-> _].
  apply tags_to_delete_plan_settled in Hplan1 as ->; [done |].
  rewrite Harts. intros t1 t2 key Ht1 Ht2 Hk1 Hk2 Hname.
  apply Htags in Ht1 as [Ht1 Hd1], Ht2 as [Ht2 Hd2].
  apply (tags_to_delete_plan_complete s s D t1 t2 key); try done.
  - intros Hin. by apply (Hd1 t1).
  - intros Hin. by apply (Hd2 t2).
Qed.

(** The write of the marker, once it has completed, changes nothing when it
    is run again. *)
Lemma add_data_version_again (s : Store) :
  outcome (_add_data_version s) = Ok tt →
  quiet _add_data_version (final (_add_data_version s)).
Proof.
  intros Hok. pose proof (wp_add_data_version s) as H. unfold wp in H.
  destruct (H Hok) as [Hset _]. by apply quiet_add_data_version.
Qed.

(** ** Running [init_data] again *)

Section Idempotence.

Variable N : nat.
Variable init_alembic : string → bool → bool → Store → Store * PyResult unit.
Variable transfer : Store → Store * PyResult unit.
Variable init_db : Store → Store * PyResult unit.

(** The external collaborators find nothing to change in a store that a
    completed run of [init_data] has left. *)
Hypothesis externals_settled : ∀ config from_scratch s,
  outcome (init_data N init_alembic transfer init_db config from_scratch s) = Ok tt →
  let s' := final (init_data N init_alembic transfer init_db config from_scratch s) in
  (∀ file data_is_latest use_backups,
     (init_alembic file data_is_latest use_backups s').1 = s')
  ∧ (transfer s').1 = s'
  ∧ (init_db s').1 = s'.

Lemma init_data_initialised config from_scratch s :
  wp (init_data N init_alembic transfer init_db config from_scratch) s
     (λ s' r, r = Ok tt → initialised config s').
Proof.
  unfold init_data.
  apply wp_after; [done |]. intros _ s1.
  apply wp_after; [done |]. intros _ s2.
  apply wp_after; [done |]. intros _ s3.
  apply wp_bind, wp_try_finally, wp_after; [done |]. intros _ s4.
  eapply wp_mono; [apply seeded_and_migrated |]. cbn beta.
  intros s5 [[] | e] Hinit; [| done]. by apply wp_logger.
Qed.

(** C2. When a run of [init_data] has completed, a second run on the store
    it left changes nothing: it leaves the same store and makes no write to
    the database, no repair pass and no write of the marker among them.  So
    does each step on its own, run on the store that a run of it has left:
    the enrichment of the project states leaves the store and writes
    nothing, the deduplication of the tags leaves the store, the truncation
    of the previews leaves the store when no two artifacts have the same
    project, key and uid, and the write of the marker, once it has completed,
    leaves the store and writes nothing. *)
Theorem init_data_idempotent config from_scratch s :
  outcome (init_data N init_alembic transfer init_db config from_scratch s) = Ok tt →
  quiet (init_data N init_alembic transfer init_db config from_scratch)
        (final (init_data N init_alembic transfer init_db config from_scratch s))
  ∧ (∀ s0, quiet _enrich_project_state (final (_enrich_project_state s0)))
  ∧ (∀ s0, let s1 := final (_fix_artifact_tags_duplications s0) in
           final (_fix_artifact_tags_duplications s1) = s1)
  ∧ (∀ s0, NoDup (artifact_identity <$> artifacts s0) →
           let s1 := final (_fix_datasets_large_previews N s0) in
           final (_fix_datasets_large_previews N s1) = s1)
  ∧ (∀ s0, outcome (_add_data_version s0) = Ok tt →
           quiet _add_data_version (final (_add_data_version s0))).
Proof.
  intros Hok.
  split; [| split_and!;
              [ apply enrich_project_state_again
              | apply fix_artifact_tags_duplications_again
              | apply fix_datasets_large_previews_again
              | apply add_data_version_again ]].
  destruct (externals_settled config from_scratch s Hok) as (Halembic & Htransfer & Hdb).
  pose proof (init_data_initialised config from_scratch s) as Hinit. unfold wp in Hinit.
  destruct (Hinit Hok) as (Hsource & Hset & Hcurrent). clear Hinit.
  set (s1 := final (init_data N init_alembic transfer init_db config from_scratch s)) in *.
  unfold init_data at 1.
  apply quiet_bind; [apply quiet_logger |]. intros _.
  apply quiet_bind.
  { unfold _perform_schema_migrations, _is_latest_data_version.
    apply quiet_bind.
    - apply quiet_bind; [| intros ?; apply quiet_ret].
      apply quiet_try_finally, quiet_resolve_current_data_version.
    - intros b. by apply quiet_external. }
  intros _. apply quiet_bind.
  { unfold _perform_database_migration. by apply quiet_when, quiet_external. }
  intros _. apply quiet_bind; [| intros _; apply quiet_logger].
  apply quiet_try_finally.
  apply quiet_bind; [by apply quiet_external |]. intros _.
  apply quiet_bind.
  - unfold _add_initial_data.
    apply quiet_bind; [by apply quiet_add_default_marketplace_source |].
    intros _. by apply quiet_add_data_version.
  - intros _. by apply quiet_perform_data_migrations.
Qed.

End Idempotence.


Lemma init_data_idempotent_witness :
  quiet (init_data_example (enabled "enabled"))
        (final (init_data_example (enabled "enabled") store_duplicates))
  ∧ (let s1 := final (_fix_artifact_tags_duplications store_duplicates) in
     final (_fix_artifact_tags_duplications s1) = s1).
Proof.
  unfold init_data_example.
  refine (let H := init_data_idempotent 2 (λ _ _ _, nothing_to_do) nothing_to_do
                     nothing_to_do _ (enabled "enabled") false store_duplicates _ in
          conj (proj1 H) (proj1 (proj2 (proj2 H)) store_duplicates)).
  - intros config from_scratch s _. cbv zeta. repeat split.
  - vm_compute. reflexivity.
Defined.
(** * Further properties of the code *)

(** ** When the resolution of the data version fails *)

Ltac settle_raise :=
  repeat (first [split | intro]);
  repeat match goal with
         | H : _ ∨ _ |- _ => destruct H
         | H : ∃ _, _ |- _ => destruct H
         | H : _ ∧ _ |- _ => destruct H
         end;
  simplify_eq/=; try done; try congruence; try lia;
  try solve [left; eexists; split; [reflexivity | done]].

(** X1. [_resolve_current_data_version] raises in two cases only: the marker
    is there and is not the text of an integer, which is the [ValueError] of
    [int]; or reading the marker fails for another reason than a missing
    table while there are projects, which is the failure of the read itself.
    Nothing is logged then. *)
Theorem resolve_current_data_version_raises (s : Store) (e : PyExc) :
  let r := _resolve_current_data_version s in
  (outcome r = Raise e ↔
     (∃ text, data_version s = Rows (Some text) ∧ py_int text = Raise e)
     ∨ (∃ reason n, data_version s = Unavailable reason
                    ∧ project_count s = Some (S n)
                    ∧ str_contains "no such table" reason = false
                    ∧ e = operational_error reason))
  ∧ (outcome r = Raise e → emitted r = []).
Proof.
  destruct s as [dv ps arts tgs srcs].
  unfold _resolve_current_data_version, project_count, get_current_data_version,
    list_projects.
  assert (Hempty : ∀ m : gmap string ProjectRow,
             bool_decide (project_of_row <$> map_to_list m = []) = true ↔ size m = 0%nat).
  { intros m. rewrite bool_decide_eq_true. apply project_listing_empty. }
  destruct dv as [reason | [text |]]; unfold_run.
  - destruct ps as [preason | m]; unfold_run; [settle_raise |].
    specialize (Hempty m).
    destruct (bool_decide (project_of_row <$> map_to_list m = [])); unfold_run.
    { assert (size m = 0%nat) by naive_solver. settle_raise. }
    assert (size m ≠ 0%nat) by naive_solver.
    destruct (str_contains "no such table" reason) eqn:Hr; unfold_run; [settle_raise |].
    split; [| done]. split.
    + intros ?. simplify_eq. right. exists reason, (pred (size m)).
      split_and!; try done. f_equal. lia.
    + intros [(? & ? & _) | (? & ? & ? & _ & _ & ->)]; by simplify_eq.
  - destruct (py_int text) as [v | e'] eqn:Ht; unfold_run; [settle_raise |].
    pose proof (py_int_raises _ _ Ht) as Hty.
    destruct e' as [t msg]; simpl in Hty; subst t.
    unfold_run. settle_raise.
  - destruct ps as [preason | m]; unfold_run; [settle_raise |].
    specialize (Hempty m).
    destruct (bool_decide (project_of_row <$> map_to_list m = [])); unfold_run.
    { assert (size m = 0%nat) by naive_solver. settle_raise. }
    assert (size m ≠ 0%nat) by naive_solver. settle_raise.
Qed.
(** ** Seeding *)

(** Without a row for the marker, the version resolved is 1: the latest when
    there is no project, the version prior to the table otherwise. *)
Lemma resolve_current_data_version_unmarked (s : Store) :
  data_version s = Rows None →
  outcome (_resolve_current_data_version s) = Ok 1.
Proof.
  destruct s as [dv ps arts tgs srcs]. cbn [data_version]. intros ->.
  assert (Hempty : ∀ m : gmap string ProjectRow,
             bool_decide (project_of_row <$> map_to_list m = []) = true ↔ size m = 0%nat).
  { intros m. rewrite bool_decide_eq_true. apply project_listing_empty. }
  unfold _resolve_current_data_version, get_current_data_version, list_projects.
  unfold_run.
  destruct ps as [preason | m]; unfold_run; [done |].
  destruct (bool_decide (project_of_row <$> map_to_list m = [])); unfold_run; done.
Qed.

Lemma get_current_data_version_run (raise_on_not_found : bool) (s : Store) :
  get_current_data_version raise_on_not_found s
  = mkRun s [] (match data_version s with
                | Unavailable reason => Raise (operational_error reason)
                | Rows (Some v) => Ok (Some v)
                | Rows None => if raise_on_not_found
                               then Raise (not_found "No data version found")
                               else Ok None
                end).
Proof.
  unfold get_current_data_version. unfold_run.
  by destruct (data_version s) as [| [|]], raise_on_not_found.
Qed.

Lemma create_data_version_run (v : string) (s : Store) :
  create_data_version v s
  = match data_version s with
    | Unavailable reason => mkRun s [] (Raise (operational_error reason))
    | Rows _ => mkRun (set_data_version v s) [Wrote (WDataVersion v)] (Ok tt)
    end.
Proof. unfold create_data_version. unfold_run. by destruct (data_version s). Qed.

Lemma no_write_resolve_current_data_version (s : Store) :
  writes (emitted (_resolve_current_data_version s)) = [].
Proof. apply quiet_resolve_current_data_version. Qed.

(** Without a row for the marker, [_add_data_version] writes that of version 1. *)
Lemma add_data_version_unmarked (s : Store) :
  data_version s = Rows None →
  let r := _add_data_version s in
  outcome r = Ok tt ∧ final r = set_data_version "1" s
  ∧ writes (emitted r) = [WDataVersion "1"].
Proof.
  intros Hdv. cbn zeta. unfold _add_data_version.
  rewrite run_bind, get_current_data_version_run, Hdv. cbn [outcome final emitted].
  rewrite run_bind, <- (reads_resolve_current_data_version s),
    (resolve_current_data_version_unmarked s Hdv).
  cbn [outcome final emitted]. rewrite run_bind. cbn [logger emit outcome final emitted].
  rewrite create_data_version_run, Hdv. cbn [outcome final emitted].
  split; [done |]. split; [done |].
  rewrite !writes_app, no_write_resolve_current_data_version. done.
Qed.

(** With a marker, or without a table to read, [_add_data_version] ends after
    the read. *)
Lemma add_data_version_after_read (s : Store) :
  data_version s ≠ Rows None →
  _add_data_version s
  = mkRun s [] (match data_version s with
                | Unavailable reason => Raise (operational_error reason)
                | Rows _ => Ok tt
                end).
Proof.
  intros Hdv. unfold _add_data_version.
  rewrite run_bind, get_current_data_version_run.
  by destruct (data_version s) as [reason | [text |]].
Qed.

(** X2. [_add_data_version] never touches a marker that is there.  When the
    table is there without a row, the marker written is that of version 1,
    whatever the projects are; when the table cannot be read, the failure of
    the read escapes and nothing is written. *)
Theorem add_data_version_cases (s : Store) :
  let r := _add_data_version s in
  match data_version s with
  | Unavailable reason =>
      r = mkRun s [] (Raise (operational_error reason))
  | Rows (Some _) => r = mkRun s [] (Ok tt)
  | Rows None =>
      outcome r = Ok tt ∧ final r = set_data_version "1" s
      ∧ writes (emitted r) = [WDataVersion "1"]
  end.
Proof.
  cbn zeta. pose proof (add_data_version_after_read s) as Hread.
  destruct (data_version s) as [reason | [text |]] eqn:Hdv.
  - by apply Hread.
  - by apply Hread.
  - by apply add_data_version_unmarked.
Qed.

Lemma add_default_marketplace_source_run (config : Config) (s : Store) :
  let name := default_source_name config in
  _add_default_marketplace_source_if_needed config s
  = if bool_decide (name ∈ marketplace_sources s) then mkRun s [] (Ok tt)
    else if default_source_create config
         then mkRun (add_marketplace_source name s)
                    [Log Info "Adding default marketplace source" [];
                     Wrote (WMarketplaceSource name)] (Ok tt)
         else mkRun s [Log Info "Not adding default marketplace source, per configuration" []]
                    (Ok tt).
Proof.
  cbn zeta.
  unfold _add_default_marketplace_source_if_needed, get_marketplace_source,
    session_add_source, generate_default_source.
  unfold_run. case_bool_decide; unfold_run; [done |].
  by destruct (default_source_create config).
Qed.

Lemma add_default_marketplace_source_frame (config : Config) (s : Store) :
  let r := _add_default_marketplace_source_if_needed config s in
  outcome r = Ok tt ∧ only_sources s (final r).
Proof.
  cbn zeta. rewrite add_default_marketplace_source_run. cbn zeta.
  case_bool_decide; [done |]. by destruct (default_source_create config).
Qed.

(** X3. [_add_default_marketplace_source_if_needed] never raises and changes
    the marketplace sources only: the sources that are there stay, in their
    order, and the default source is added after them when it is missing and
    the configuration asks for it, so that it never comes to be there twice.
    Another run on the store it has left writes nothing. *)
Theorem add_default_marketplace_source_once (config : Config) (s : Store) :
  let name := default_source_name config in
  let r := _add_default_marketplace_source_if_needed config s in
  outcome r = Ok tt
  ∧ only_sources s (final r)
  ∧ marketplace_sources (final r)
    = marketplace_sources s
        ++ (if bool_decide (name ∉ marketplace_sources s) && default_source_create config
            then [name] else [])
  ∧ (NoDup (marketplace_sources s) → NoDup (marketplace_sources (final r)))
  ∧ quiet (_add_default_marketplace_source_if_needed config) (final r).
Proof.
  cbn zeta. unfold quiet. rewrite !add_default_marketplace_source_run. cbn zeta.
  destruct (bool_decide_reflect (default_source_name config ∈ marketplace_sources s))
    as [Hin | Hnot].
  - rewrite (bool_decide_eq_false_2 (_ ∉ _)) by (intros H; by apply H).
    cbn. rewrite app_nil_r, (bool_decide_eq_true_2 _ Hin). done.
  - rewrite (bool_decide_eq_true_2 (_ ∉ _)) by done.
    destruct (default_source_create config) eqn:Hcreate; cbn.
    + rewrite bool_decide_eq_true_2
        by (apply elem_of_app; right; by apply list_elem_of_singleton).
      split_and!; try done.
      intros Hnd. apply NoDup_app. split_and!; [done | | apply NoDup_singleton].
      intros x Hx Hx'. apply list_elem_of_singleton in Hx' as ->. done.
    + rewrite app_nil_r, (bool_decide_eq_false_2 _ Hnot). done.
Qed.

(** ** Seeding and then migrating *)

(** X4. When the table of the marker is there without a row, the seeding
    completes and writes the marker of version 1, which is the latest
    version: the data migrations that follow in [init_data] find nothing to
    do and no repair pass runs, also when there are projects. *)
Theorem seeded_marker_needs_no_migration (N : nat) (config : Config) (s : Store) :
  data_version s = Rows None →
  let seeded := _add_initial_data config s in
  outcome seeded = Ok tt
  ∧ data_version (final seeded) = Rows (Some "1")
  ∧ _perform_data_migrations N config (final seeded) = mkRun (final seeded) [] (Ok tt).
Proof.
  intros Hdv. cbn zeta.
  destruct (add_default_marketplace_source_frame config s) as (Ho & Hdv1 & _).
  destruct (add_data_version_unmarked
              (final (_add_default_marketplace_source_if_needed config s)))
    as (Ho2 & Hf2 & _); [by rewrite Hdv1 |].
  assert (Hseeded : outcome (_add_initial_data config s) = Ok tt
                    ∧ data_version (final (_add_initial_data config s)) = Rows (Some "1")).
  { unfold _add_initial_data. rewrite run_bind, Ho. cbn [outcome final].
    by rewrite Ho2, Hf2. }
  destruct Hseeded as [Hok Hmarker]. split; [done |]. split; [done |].
  destruct (String.eqb_spec (data_migrations_mode config) "enabled") as [Hmode | Hmode].
  - by rewrite (perform_data_migrations_enabled N config _ "1" 1).
  - by rewrite perform_data_migrations_disabled.
Qed.

Lemma seeded_marker_needs_no_migration_witness :
  _perform_data_migrations 2 (enabled "enabled")
    (final (_add_initial_data (enabled "enabled") store_unmarked))
  = mkRun (final (_add_initial_data (enabled "enabled") store_unmarked)) [] (Ok tt).
Proof.
  apply (seeded_marker_needs_no_migration 2 (enabled "enabled") store_unmarked).
  reflexivity.
Defined.

(** ** A marker that cannot be read *)

(** A marker that is not the text of an integer: the resolution raises the
    [ValueError] of [int], which is not among the exceptions it handles. *)
Lemma resolve_current_data_version_garbled (s : Store) (text : string) (e : PyExc) :
  data_version s = Rows (Some text) → py_int text = Raise e →
  _resolve_current_data_version s = mkRun s [] (Raise e).
Proof.
  intros Hdv Hint. pose proof (py_int_raises _ _ Hint) as Hty.
  unfold _resolve_current_data_version.
  unfold try_except at 1. rewrite run_bind, get_current_data_version_run, Hdv.
  cbn [outcome final emitted lift int_of_marker]. rewrite Hint. cbn [outcome final emitted].
  destruct e as [t msg]. cbn in Hty. subst t. done.
Qed.

(** X5. With the data migrations enabled, a marker that cannot be read as an
    integer makes [_perform_data_migrations] raise before anything is logged,
    repaired or written: the operational error when the table cannot be
    read, a not-found error when the row is missing, the [ValueError] of
    [int] when the text is not that of an integer. *)
Theorem perform_data_migrations_unreadable_marker (N : nat) (config : Config) (s : Store) :
  data_migrations_mode config = "enabled" →
  let r := _perform_data_migrations N config s in
  match data_version s with
  | Unavailable reason => r = mkRun s [] (Raise (operational_error reason))
  | Rows None => ∃ e, exc_type e = MLRunNotFoundError ∧ r = mkRun s [] (Raise e)
  | Rows (Some text) =>
      ∀ e, py_int text = Raise e → exc_type e = ValueError ∧ r = mkRun s [] (Raise e)
  end.
Proof.
  intros Hmode. cbn zeta. unfold _perform_data_migrations. rewrite Hmode.
  cbn [String.eqb Ascii.eqb Bool.eqb when].
  rewrite run_bind, get_current_data_version_run.
  destruct (data_version s) as [reason | [text |]]; cbn [outcome final emitted].
  - done.
  - intros e Hint. split; [by eapply py_int_raises |].
    rewrite run_bind. cbn [lift int_of_marker outcome final emitted]. by rewrite Hint.
  - eexists. split; [| reflexivity]. reflexivity.
Qed.

Lemma perform_data_migrations_unreadable_marker_witness :
  ∃ e, exc_type e = ValueError
       ∧ _perform_data_migrations 2 (enabled "enabled") store_garbled
         = mkRun store_garbled [] (Raise e).
Proof.
  eexists.
  apply (perform_data_migrations_unreadable_marker 2 (enabled "enabled") store_garbled
           eq_refl).
  reflexivity.
Defined.

(** X6. A marker that is not the text of an integer makes [init_data] raise
    the [ValueError] of [int] while it resolves the data version for the
    schema migrations: no external collaborator has been called, nothing has
    been written and the store is as it was. *)
Theorem init_data_garbled_marker N init_alembic transfer init_db
    (config : Config) (from_scratch : bool) (s : Store) (text : string) (e : PyExc) :
  data_version s = Rows (Some text) → py_int text = Raise e →
  init_data N init_alembic transfer init_db config from_scratch s
  = mkRun s [Log Info "Creating initial data" []] (Raise e).
Proof.
  intros Hdv Hint.
  assert (Hschema : _perform_schema_migrations init_alembic config s
                    = mkRun s [] (Raise e)).
  { unfold _perform_schema_migrations, _is_latest_data_version.
    rewrite run_bind, run_bind. unfold try_finally.
    rewrite (resolve_current_data_version_garbled s text e Hdv Hint).
    reflexivity. }
  unfold init_data.
  rewrite run_bind. cbn [logger emit outcome final emitted].
  rewrite run_bind, Hschema. reflexivity.
Qed.

Lemma init_data_garbled_marker_witness :
  ∃ e, exc_type e = ValueError
       ∧ init_data_example (enabled "enabled") store_garbled
         = mkRun store_garbled [Log Info "Creating initial data" []] (Raise e).
Proof.
  eexists. split; [| unfold init_data_example;
                     apply (init_data_garbled_marker 2 _ _ _ _ _ store_garbled "one");
                     reflexivity].
  reflexivity.
Defined.

(** ** What a completed run of [init_data] leaves *)

(** X7. Whatever the external collaborators do, a run of [init_data] that
    completes leaves a marker; with the data migrations enabled the marker
    reads the latest version; the default marketplace source is there unless
    the configuration says not to create it; and neither the seeding nor the
    data migrations would change or write anything if they were run again on
    that store. *)
Theorem init_data_completed N init_alembic transfer init_db
    (config : Config) (from_scratch : bool) (s : Store) :
  outcome (init_data N init_alembic transfer init_db config from_scratch s) = Ok tt →
  let s' := final (init_data N init_alembic transfer init_db config from_scratch s) in
  (∃ text, data_version s' = Rows (Some text)
           ∧ (data_migrations_mode config = "enabled" →
              py_int text = Ok latest_data_version))
  ∧ (default_source_create config = true →
     default_source_name config ∈ marketplace_sources s')
  ∧ quiet (_add_initial_data config) s'
  ∧ quiet (_perform_data_migrations N config) s'.
Proof.
  intros Hok. cbn zeta.
  pose proof (init_data_initialised N init_alembic transfer init_db config from_scratch s)
    as Hinit.
  unfold wp in Hinit. destruct (Hinit Hok) as (Hsource & [text Hset] & Hcurrent).
  split_and!.
  - exists text. split; [done |]. intros Hmode.
    destruct (Hcurrent Hmode) as (text' & Hdv & Hint). congruence.
  - intros Hcreate. destruct Hsource as [Hin | Hnone]; [done |].
    unfold generate_default_source in Hnone. by rewrite Hcreate in Hnone.
  - unfold _add_initial_data. apply quiet_bind.
    + by apply quiet_add_default_marketplace_source.
    + intros _. apply quiet_add_data_version. by exists text.
  - by apply quiet_perform_data_migrations.
Qed.

Lemma init_data_completed_witness :
  quiet (_perform_data_migrations 2 (enabled "enabled"))
        (final (init_data_example (enabled "enabled") store_stale)).
Proof.
  unfold init_data_example.
  apply (init_data_completed 2 (λ _ _ _, nothing_to_do) nothing_to_do nothing_to_do
           (enabled "enabled") false store_stale).
  vm_compute. reflexivity.
Defined.

(** ** The schema migrations *)

(** When the marker cannot be read and a version is resolved, it is 1. *)
Lemma resolve_current_data_version_unreadable (s : Store) (exc : PyExc) (v : Z) :
  marker_failure s = Some exc →
  outcome (_resolve_current_data_version s) = Ok v → v = 1.
Proof.
  destruct s as [dv ps arts tgs srcs].
  unfold marker_failure, _resolve_current_data_version, get_current_data_version,
    list_projects.
  destruct dv as [reason | [text |]]; unfold_run; [| done |].
  - intros _. destruct ps as [preason | m]; unfold_run; [by intros [= <-] |].
    destruct (bool_decide (project_of_row <$> map_to_list m = [])); unfold_run;
      [by intros [= <-] |].
    destruct (str_contains "no such table" reason); unfold_run; by intros [= <-].
  - intros _. destruct ps as [preason | m]; unfold_run; [by intros [= <-] |].
    destruct (bool_decide (project_of_row <$> map_to_list m = [])); unfold_run; by intros [= <-].
Qed.

(** X8. [_perform_schema_migrations] calls alembic once, after the events of
    the resolution of the data version, with the configuration file of the
    database in use, the backup mode of the configuration, and the answer to
    whether the version resolved is the latest; when the resolution raises,
    alembic is not called.  When the marker cannot be read the answer is
    yes: alembic is told that the data is the latest for a database used
    before the marker was introduced as for a new one. *)
Theorem schema_migrations_call init_alembic (config : Config) (s : Store) :
  let r := _perform_schema_migrations init_alembic config s in
  let resolved := _resolve_current_data_version s in
  match outcome resolved with
  | Raise e => r = mkRun s (emitted resolved) (Raise e)
  | Ok v =>
      emitted r
      = emitted resolved
          ++ [Call (CallAlembic (alembic_config_file_name config) (v =? latest_data_version)
                      (String.eqb (database_backup_mode config) "enabled"))]
      ∧ (marker_failure s ≠ None → (v =? latest_data_version) = true)
  end.
Proof.
  cbn zeta. pose proof (reads_resolve_current_data_version s) as Hreads.
  unfold _perform_schema_migrations, _is_latest_data_version, alembic_config_file_name.
  rewrite run_bind, run_bind. unfold try_finally, close_session.
  cbn [mret M_ret outcome final emitted].
  destruct (outcome (_resolve_current_data_version s)) as [v | e] eqn:Ho.
  - cbn [outcome final emitted external]. rewrite !app_nil_r. split; [done |].
    intros Hfail. destruct (marker_failure s) as [exc |] eqn:Hexc; [| done].
    by rewrite (resolve_current_data_version_unreadable s exc v Hexc Ho).
  - cbn [outcome final emitted]. by rewrite app_nil_r, <- Hreads.
Qed.

(** ** What the repair passes leave alone *)

Lemma sublist_List_filter {A} (f : A → bool) (l : list A) : List.filter f l `sublist_of` l.
Proof.
  induction l as [| x l IH]; [done |]. cbn.
  destruct (f x); [by apply sublist_skip | by apply sublist_cons].
Qed.

Lemma for_each_session_delete_sublist (D : list Tag) (s : Store) :
  tags (final (for_each D session_delete s)) `sublist_of` tags s.
Proof.
  revert s. induction D as [| d D IH]; intros s; [done |].
  cbn [for_each]. rewrite run_bind.
  change (outcome (session_delete d s)) with (Ok tt : PyResult unit).
  change (final (session_delete d s)) with (remove_tag d s). cbn [final].
  etrans; [apply IH |]. apply sublist_List_filter.
Qed.

(** X9. Each repair pass keeps to its table.  The enrichment changes the
    projects only and keeps their names; the deduplication changes the tags
    only, and the tags it leaves are tags that were there, in their order;
    the truncation changes the artifacts only, and leaves as many. *)
Theorem repair_passes_keep_to_their_table (N : nat) (s : Store) :
  let enriched := final (_enrich_project_state s) in
  let deduplicated := final (_fix_artifact_tags_duplications s) in
  let aligned := final (_fix_datasets_large_previews N s) in
  (only_projects s enriched
   ∧ ∀ m, projects s = Rows m → ∃ m', projects enriched = Rows m' ∧ dom m' = dom m)
  ∧ (only_tags s deduplicated ∧ tags deduplicated `sublist_of` tags s)
  ∧ (only_artifacts s aligned ∧ length (artifacts aligned) = length (artifacts s)).
Proof.
  cbn zeta. split_and!.
  - destruct (projects s) as [reason | m] eqn:Hm.
    + assert (final (_enrich_project_state s) = s) as ->; [| done].
      unfold _enrich_project_state, list_projects. unfold_run. by rewrite Hm.
    + destruct (enrich_project_state_run s m Hm) as (_ & -> & _). done.
  - intros m Hm. destruct (enrich_project_state_run s m Hm) as (_ & -> & _).
    rewrite enrich_fold_map. eexists. split; [done |]. apply dom_fmap_L.
  - pose proof (fix_artifact_tags_duplications_run s) as Hrun. cbn zeta in Hrun.
    destruct (outcome (tags_to_delete_plan s s)) as [D |]; destruct Hrun as [-> _]; [| done].
    apply for_each_session_delete.
  - pose proof (fix_artifact_tags_duplications_run s) as Hrun. cbn zeta in Hrun.
    destruct (outcome (tags_to_delete_plan s s)) as [D |]; destruct Hrun as [-> _]; [| done].
    apply for_each_session_delete_sublist.
  - apply preserves_fix_datasets_only_artifacts.
  - assert (Hfinal : final (_fix_datasets_large_previews N s)
                     = final (for_each (artifacts s) (fix_or_continue N) s)).
    { unfold _fix_datasets_large_previews, _find_artifacts. by unfold_run. }
    rewrite Hfinal.
    enough (∀ l s0, length (artifacts (final (for_each l (fix_or_continue N) s0)))
                    = length (artifacts s0)) by done.
    clear. induction l as [| a l IH]; intros s; [done |].
    cbn [for_each]. rewrite run_bind.
    destruct (fix_or_continue_run N a s) as (Ho & Hf & _). rewrite Ho. cbn [final].
    rewrite IH, Hf.
    pose proof (fix_dataset_large_preview_cases N a s) as Hcases. unfold wp in Hcases.
    destruct Hcases as [(? & _ & ->) | [(_ & -> & _) | (d' & _ & -> & _)]]; try done.
    cbn [set_artifact_body artifacts]. apply length_fmap.
Qed.

(** ** The artifact last updated *)

Lemma last_updated_loop_seen (l seen : list Artifact)
    (acc acc' : option Artifact * datetime * list Artifact) :
  last_updated_seen seen acc → last_updated_loop l acc = Ok acc' →
  last_updated_seen (seen ++ l) acc'.
Proof.
  revert seen acc. induction l as [| x l IH]; intros seen acc Hseen Hloop.
  - cbn in Hloop. simplify_eq. by rewrite app_nil_r.
  - cbn [last_updated_loop] in Hloop.
    destruct (last_updated_step acc x) as [acc1 |] eqn:Hstep; [| done].
    cbn in Hloop. rewrite (cons_middle x seen l), app_assoc.
    apply (IH _ acc1); [| done]. clear IH Hloop.
    destruct acc as [[last t] same]. unfold last_updated_step in Hstep.
    destruct (art_updated x) as [u |] eqn:Hu; [| done].
    destruct Hseen as (Hsame & Hby & Hlast).
    destruct (N.ltb_spec t u) as [Hlt | Hge]; [| destruct (N.eqb_spec u t) as [-> | Hne]];
      simplify_eq; unfold last_updated_seen.
    + (* a later update time *)
      assert (Hbefore : Forall (updated_before u) seen).
      { eapply Forall_impl; [exact Hby |]. intros a (u' & Ha & Hle). exists u'. split; [done | lia]. }
      split_and!.
      * assert (has_time u x = true) as Hx by (unfold has_time; by rewrite Hu, N.eqb_refl).
        rewrite List.filter_app. cbn [List.filter]. rewrite Hx, filter_none; [done |].
        intros a Ha. rewrite Forall_forall in Hbefore.
        destruct (Hbefore a Ha) as (u' & Hu' & Hlt'). unfold has_time. rewrite Hu'.
        apply N.eqb_neq. lia.
      * apply Forall_app. split.
        -- eapply Forall_impl; [exact Hbefore |]. intros a (u' & ? & ?). exists u'. split; [done | lia].
        -- constructor; [| done]. exists u. split; [done | lia].
      * unfold datetime_min in *. destruct last; lia.
      * exists seen, []. done.
    + (* the same update time *)
      split_and!.
      * assert (has_time t x = true) as Hx by (unfold has_time; by rewrite Hu, N.eqb_refl).
        rewrite List.filter_app. cbn [List.filter]. by rewrite Hx.
      * apply Forall_app. split; [done |]. constructor; [| done]. exists t. split; [done | lia].
      * destruct last as [w |]; [| done]. destruct Hlast as (Hmin & b & a & -> & Hw & Hb).
        split; [done |]. exists b, (a ++ [x]). by rewrite <- app_assoc.
    + (* an earlier update time *)
      split_and!.
      * assert (has_time t x = false) as Hx
          by (unfold has_time; rewrite Hu; by apply N.eqb_neq).
        rewrite List.filter_app. cbn [List.filter]. by rewrite Hx, app_nil_r.
      * apply Forall_app. split; [done |]. constructor; [| done]. exists u. split; [done | lia].
      * destruct last as [w |]; [| done]. destruct Hlast as (Hmin & b & a & -> & Hw & Hb).
        split; [done |]. exists b, (a ++ [x]). by rewrite <- app_assoc.
Qed.

(** X10. The artifact that [_find_last_updated_artifact] returns is the first
    of the artifacts given that has the greatest update time: those before
    it were updated earlier, those after it not later.  A warning lists the
    artifacts that have that update time when there are several, and another
    follows when that time is the earliest there is. *)
Theorem find_last_updated_artifact_first_greatest
    (l : list Artifact) (s : Store) (w : Artifact) :
  let r := _find_last_updated_artifact l s in
  outcome r = Ok w →
  ∃ before after t,
    l = before ++ w :: after
    ∧ art_updated w = Some t
    ∧ Forall (updated_before t) before
    ∧ Forall (updated_by t) after
    ∧ emitted r
      = (let same := List.filter (has_time t) l in
         if (1 <? length same)%nat then [log_same_update_time same] else [])
        ++ (if (t =? datetime_min)%N then [log_no_update_time l] else []).
Proof.
  cbn zeta. destruct l as [| first rest]; [done |].
  unfold _find_last_updated_artifact. rewrite run_bind. cbn [lift outcome final emitted].
  destruct (last_updated_loop (first :: rest) (None, datetime_min, [])) as [acc |] eqn:Hloop;
    [| done].
  apply (last_updated_loop_seen _ []) in Hloop; [| done]. cbn [app] in Hloop.
  destruct acc as [[last t] same]. destruct Hloop as (Hsame & Hby & Hlast).
  rewrite run_bind.
  assert (Hwhen : when (1 <? length same)%nat (logger Warning
                     "Found several artifact with same update time, heuristically choosing the first"
                     [("artifacts", AArtifacts same)]) s
                  = mkRun s (if (1 <? length same)%nat then [log_same_update_time same] else [])
                          (Ok tt)).
  { by destruct (1 <? length same)%nat. }
  rewrite Hwhen. cbn [outcome final emitted]. clear Hwhen.
  destruct last as [w' |].
  - destruct Hlast as (Hmin & b & a & Hl & Hw & Hb).
    cbn [mret M_ret outcome emitted]. intros [= <-]. subst same.
    exists b, a, t. cbn zeta. split_and!; try done.
    + rewrite Hl in Hby. apply Forall_app in Hby as [_ Hby]. by apply Forall_cons in Hby as [_ ?].
    + apply N.lt_neq, not_eq_sym, N.eqb_neq in Hmin. by rewrite Hmin.
  - subst t. rewrite run_bind. cbn [logger emit mret M_ret outcome final emitted].
    intros [= <-]. subst same. exists [], rest, datetime_min. cbn zeta.
    apply Forall_cons in Hby as [(u & Hu & Hle) Hby].
    split_and!; try done.
    rewrite Hu. f_equal. unfold datetime_min in *. lia.
Qed.

Lemma find_last_updated_artifact_first_greatest_witness :
  ∃ before after,
    artifacts store_duplicates = before ++ model 2 "default" (Some 2%N) :: after
    ∧ Forall (updated_before 2%N) before.
Proof.
  destruct (find_last_updated_artifact_first_greatest
              (artifacts store_duplicates) store_duplicates (model 2 "default" (Some 2%N)))
    as (before & after & t & Hl & Ht & Hb & _); [reflexivity |].
  exists before, after. cbn in Ht. by simplify_eq.
Defined.

Lemma last_updated_loop_outcome (l : list Artifact)
    (acc : option Artifact * datetime * list Artifact) :
  match last_updated_loop l acc with
  | Ok _ => Forall (λ a, is_Some (art_updated a)) l
  | Raise e => Exists (λ a, art_updated a = None) l ∧ exc_type e = TypeError
  end.
Proof.
  revert acc. induction l as [| x l IH]; intros acc; [by constructor |].
  cbn [last_updated_loop]. destruct acc as [[last t] same]. unfold last_updated_step at 1.
  destruct (art_updated x) as [u |] eqn:Hu.
  - assert (Hx : is_Some (art_updated x)) by (by rewrite Hu).
    destruct (t <? u)%N; [| destruct (u =? t)%N]; cbn;
      match goal with |- context [last_updated_loop l ?a] => specialize (IH a) end;
      destruct (last_updated_loop l _); try (by constructor);
      destruct IH; split; try done; by apply Exists_cons_tl.
  - cbn. split; [by apply Exists_cons_hd | done].
Qed.

(** X11. [_find_last_updated_artifact] only reads.  It returns an artifact
    exactly when it is given at least one artifact and each artifact given
    has an update time; without any artifact it raises the [RuntimeError]
    that says so, and an artifact without update time makes the comparison
    raise a [TypeError]. *)
Theorem find_last_updated_artifact_outcome (l : list Artifact) (s : Store) :
  let r := _find_last_updated_artifact l s in
  final r = s
  ∧ match outcome r with
    | Ok _ => l ≠ [] ∧ Forall (λ a, is_Some (art_updated a)) l
    | Raise e =>
        (l = [] ∧ e = mkExc RuntimeError "No artifacts given")
        ∨ (Exists (λ a, art_updated a = None) l ∧ exc_type e = TypeError)
    end.
Proof.
  cbn zeta. split; [symmetry; apply reads_find_last_updated_artifact |].
  destruct l as [| first rest]; [by left |].
  unfold _find_last_updated_artifact. rewrite run_bind. cbn [lift outcome final emitted].
  pose proof (last_updated_loop_outcome (first :: rest) (None, datetime_min, [])) as Hloop.
  destruct (last_updated_loop (first :: rest) (None, datetime_min, [])) as [[[last t] same] |];
    [| by right].
  rewrite run_bind.
  assert (Hwhen : outcome (when (1 <? length same)%nat (logger Warning
                     "Found several artifact with same update time, heuristically choosing the first"
                     [("artifacts", AArtifacts same)]) s) = Ok tt).
  { by destruct (1 <? length same)%nat. }
  rewrite Hwhen. cbn [outcome]. destruct last; [done |].
  rewrite run_bind. done.
Qed.

(** ** The tags that the deduplication keeps *)

Lemma dict_set_keys {A} (k : string) (v : A) (d : list (string * A)) :
  NoDup d.*1 → NoDup (dict_set k v d).*1 ∧ ∀ k', k' ∈ (dict_set k v d).*1 → k' = k ∨ k' ∈ d.*1.
Proof.
  induction d as [| [k0 v0] d IH]; cbn.
  - intros _. split; [apply NoDup_singleton |]. intros k' Hk'.
    apply list_elem_of_singleton in Hk'. by left.
  - intros Hnd. apply NoDup_cons in Hnd as [Hk0 Hnd].
    destruct (String.eqb_spec k k0) as [-> | Hne]; cbn.
    + split; [by apply NoDup_cons |]. intros k' Hk'. by right.
    + destruct (IH Hnd) as [IHnd IHin]. split.
      * apply NoDup_cons. split; [| done]. intros Hin.
        destruct (IHin _ Hin) as [-> | ?]; done.
      * intros k' Hk'. apply elem_of_cons in Hk' as [-> | Hk'].
        -- right. by left.
        -- destruct (IHin _ Hk') as [-> | ?]; [by left | right; by right].
Qed.

Lemma dict_elem_lookup {A} (k : string) (v : A) (d : list (string * A)) :
  NoDup d.*1 → (k, v) ∈ d → dict_lookup k d = Some v.
Proof.
  induction d as [| [k0 v0] d IH]; cbn; intros Hnd Hin.
  - by apply elem_of_nil in Hin.
  - apply NoDup_cons in Hnd as [Hk0 Hnd].
    apply elem_of_cons in Hin as [Heq | Hin].
    + simplify_eq. by rewrite String.eqb_refl.
    + destruct (String.eqb_spec k k0) as [-> | Hne]; [| by apply IH].
      exfalso. apply Hk0. apply list_elem_of_fmap. by exists (k0, v).
Qed.

Lemma tag_name_tags_map_names (l : list Tag) : NoDup (tag_name_tags_map l).*1.
Proof.
  induction l as [| t l IH] using rev_ind; [constructor |].
  rewrite tag_name_tags_map_snoc. by apply dict_set_keys.
Qed.

(** The tags filed under a name are all the tags of that name. *)
Lemma tag_name_tags_map_group_eq (l : list Tag) (n : string) (g : list Tag) :
  (n, g) ∈ tag_name_tags_map l → g = List.filter (has_name n) l ∧ g ≠ [].
Proof.
  intros Hin. apply dict_elem_lookup in Hin; [| apply tag_name_tags_map_names].
  rewrite tag_name_tags_map_lookup in Hin.
  destruct (List.filter (has_name n) l); by simplify_eq.
Qed.

(** The tags of one name to delete, when they are computed: none when there
    is one tag; otherwise the tags that do not point to the artifact that
    [_find_last_updated_artifact] picks among the artifacts of the tags. *)
Lemma name_tags_to_delete_outcome m (g : list Tag) (s : Store) (more : list Tag) :
  outcome (name_tags_to_delete m g s) = Ok more →
  (length g = 1%nat ∧ more = [])
  ∨ (length g ≠ 1%nat
     ∧ length (tags_artifacts m g) = length g
     ∧ ∃ w, outcome (_find_last_updated_artifact (tags_artifacts m g) s) = Ok w
            ∧ more = List.filter (λ tag, negb (Nat.eqb (tag_obj_id tag) (art_id w))) g).
Proof.
  unfold name_tags_to_delete. destruct (Nat.eqb_spec (length g) 1) as [Hone | Hmore].
  { intros Ho. cbn in Ho. simplify_eq. by left. }
  revert more. apply wp_outcome.
  apply wp_bind, wp_reads; [pose proof reads_lookup_artifact; frame |].
  destruct (outcome _) as [arts |] eqn:Harts; [| done].
  eapply (fold_m_invariant (λ pre acc, acc = tags_artifacts m pre
                                        ∧ length acc = length pre))
    with (pre := []) in Harts; [| | done].
  2:{ clear. intros pre t acc s acc' [-> Hlen]. revert acc'. apply wp_outcome.
      unfold lookup_artifact.
      destruct (m !! tag_obj_id t) as [a |] eqn:Ha.
      - apply wp_bind, wp_ret, wp_ret. intros ? ?. simplify_eq.
        unfold tags_artifacts. rewrite omap_app. cbn. rewrite Ha.
        split; [done |]. rewrite !length_app. cbn. unfold tags_artifacts in Hlen. lia.
      - apply wp_bind, wp_raise. done. }
  cbn [app] in Harts. destruct Harts as [-> Hlen].
  apply wp_bind, wp_reads; [apply reads_find_last_updated_artifact |].
  destruct (outcome _) as [w |] eqn:Hw; [| done].
  apply wp_ret. intros more ?. simplify_eq. right. split; [done |]. split; [done |].
  by exists w.
Qed.

(** The invariant of a loop that only reads, run from the store [s]. *)
Lemma fold_m_invariant_reads {A B} (I : list A → B → Prop) (f : B → A → M B)
    (l : list A) (s : Store) :
  (∀ acc x, preserves eq (f acc x)) →
  (∀ pre a b b', a ∈ l → I pre b → outcome (f b a s) = Ok b' → I (pre ++ [a]) b') →
  ∀ pre acc b', I pre acc → outcome (fold_m f l acc s) = Ok b' → I (pre ++ l) b'.
Proof.
  intros Hreads Hstep.
  enough (∀ l', (∀ a, a ∈ l' → a ∈ l) →
            ∀ pre acc b', I pre acc → outcome (fold_m f l' acc s) = Ok b' →
                          I (pre ++ l') b') by eauto.
  induction l' as [| x l' IH]; intros Hsub pre acc b' Hacc Ho.
  - cbn in Ho. simplify_eq. by rewrite app_nil_r.
  - cbn [fold_m] in Ho. rewrite run_bind in Ho.
    destruct (outcome (f acc x s)) as [acc' |] eqn:Hx; cbn in Ho; [| done].
    rewrite <- (Hreads acc x s) in Ho.
    rewrite (cons_middle x pre l'), app_assoc. eapply IH; [| | done].
    + intros a Ha. apply Hsub. by right.
    + eapply Hstep; [| done | done]. apply Hsub. by left.
Qed.

(** Every tag to delete has been handed out for the group of its key and
    name. *)
Lemma tags_to_delete_plan_sound (s0 s : Store) (D : list Tag) :
  outcome (tags_to_delete_plan s0 s) = Ok D →
  ∀ d, d ∈ D → handed_out (artifact_record_id_map (artifacts s0)) (tags s0) s d.
Proof.
  set (m := artifact_record_id_map (artifacts s0)). intros Hplan.
  unfold tags_to_delete_plan in Hplan. fold m in Hplan.
  set (I := λ (_ : list string) (acc : list Tag),
              ∀ d, d ∈ acc → handed_out m (tags s0) s d).
  eapply (fold_m_invariant_reads I) with (pre := []) in Hplan;
    [done | intros; apply reads_project_tags_to_delete | | by intros ? ?%elem_of_nil].
  clear D Hplan. intros pre project acc D _ Hacc Hproject. unfold I in Hacc |- *. clear pre.
  unfold project_tags_to_delete in Hproject.
  eapply (fold_m_invariant_reads I) with (pre := []) in Hproject;
    [done | intros; apply reads_key_tags_to_delete | | done].
  clear acc D Hacc Hproject. intros pre key acc D _ Hacc Hkey. unfold I in Hacc |- *. clear pre.
  unfold key_tags_to_delete in Hkey.
  rewrite run_bind, <- (reads_collect_key_tags m key (tags s0) s) in Hkey.
  destruct (outcome (collect_key_tags m key (tags s0) s)) as [G |] eqn:HG; [| done].
  apply collect_key_tags_filter in HG as ->. cbn [outcome] in Hkey.
  set (I2 := λ (_ : list (string * list Tag)) (acc : list Tag),
               ∀ d, d ∈ acc → handed_out m (tags s0) s d).
  eapply (fold_m_invariant_reads I2) with (pre := []) in Hkey; [exact Hkey | | | exact Hacc].
  { intros acc' ng. pose proof reads_name_tags_to_delete. frame. }
  clear acc D Hacc Hkey. intros pre [n g] acc D Hg Hacc Hname. unfold I2 in Hacc |- *. clear pre.
  rewrite run_bind in Hname. cbn [snd] in Hname.
  destruct (outcome (name_tags_to_delete m g s)) as [more |] eqn:Hmore; [| done].
  cbn in Hname. simplify_eq. intros d Hd.
  apply elem_of_app in Hd as [Hd | Hd]; [by apply Hacc |].
  apply tag_name_tags_map_group_eq in Hg as [Hg _].
  assert (Hdg : d ∈ g).
  { apply name_tags_to_delete_outcome in Hmore as [[_ ->] | (_ & _ & w & _ & ->)].
    - by apply elem_of_nil in Hd.
    - by apply elem_of_List_filter in Hd as [? _]. }
  rewrite Hg in Hdg. apply elem_of_List_filter in Hdg as [HdG Hdn].
  apply elem_of_List_filter in HdG as [Hdt Hdk].
  apply String.eqb_eq in Hdn. subst n. apply has_key_spec in Hdk.
  exists key, more. unfold same_key_and_name. by rewrite <- Hg.
Qed.

(** The group of the key and name of a tag has been gone through. *)
Lemma tags_to_delete_plan_group_done (s0 s : Store) (D : list Tag) (t : Tag) (key : string) :
  outcome (tags_to_delete_plan s0 s) = Ok D →
  t ∈ tags s0 →
  key_of (artifact_record_id_map (artifacts s0)) t = Some key →
  ∃ more,
    outcome (name_tags_to_delete (artifact_record_id_map (artifacts s0))
               (same_key_and_name (artifact_record_id_map (artifacts s0)) key
                  (tag_name t) (tags s0)) s) = Ok more
    ∧ more ⊆ D.
Proof.
  set (m := artifact_record_id_map (artifacts s0)). intros Hplan Ht Hk.
  pose proof (tags_to_delete_plan_collects s0 s D Hplan) as Hdone. fold m in Hdone.
  assert (∃ a, m !! tag_obj_id t = Some a ∧ art_key a = key) as (a & Ha & Hkey).
  { unfold key_of in Hk. destruct (m !! tag_obj_id t) as [a |]; [| done].
    exists a. by simplify_eq/=. }
  apply artifact_record_id_map_lookup in Ha as [_ Ha].
  assert (Hp : art_project a ∈ set_items (art_project <$> artifacts s0)).
  { apply elem_of_set_items, list_elem_of_fmap. by exists a. }
  assert (Hkeys : key ∈ set_items (art_key <$> List.filter
                    (λ a', String.eqb (art_project a') (art_project a)) (artifacts s0))).
  { apply elem_of_set_items, list_elem_of_fmap. exists a. split; [done |].
    apply elem_of_List_filter. split; [done |]. apply String.eqb_refl. }
  specialize (Hdone _ Hp _ Hkeys).
  assert (HG : t ∈ List.filter (has_key m key) (tags s0))
    by (apply elem_of_List_filter; by rewrite has_key_spec).
  apply (Hdone (tag_name t, _)). by apply tag_name_tags_map_group.
Qed.

Lemma same_key_and_name_elem m key name tgs t :
  t ∈ same_key_and_name m key name tgs
  ↔ t ∈ tgs ∧ key_of m t = Some key ∧ tag_name t = name.
Proof.
  unfold same_key_and_name. rewrite !elem_of_List_filter, has_key_spec.
  unfold has_name. rewrite String.eqb_eq. naive_solver.
Qed.

Lemma tags_artifacts_elem m g w :
  w ∈ tags_artifacts m g → ∃ t, t ∈ g ∧ m !! tag_obj_id t = Some w.
Proof. unfold tags_artifacts. rewrite list_elem_of_omap. naive_solver. Qed.

(** X12. When the deduplication completes on tags of distinct ids, the tags
    it leaves are these: a tag stays when it is the only tag of its name
    among the tags of the artifacts of its key, or when it points to the
    artifact that [_find_last_updated_artifact] picks among the artifacts of
    these tags, taken in the order of the tags; every other tag is deleted.
    So no name is lost for a key: of the tags of a key and a name one at
    least stays. *)
Theorem fix_artifact_tags_duplications_kept (s : Store) :
  NoDup (tag_id <$> tags s) →
  outcome (_fix_artifact_tags_duplications s) = Ok tt →
  let m := artifact_record_id_map (artifacts s) in
  let s' := final (_fix_artifact_tags_duplications s) in
  (∀ t, t ∈ tags s' ↔
        t ∈ tags s
        ∧ ∀ key, key_of m t = Some key →
            let g := same_key_and_name m key (tag_name t) (tags s) in
            length g = 1%nat
            ∨ ∃ w, outcome (_find_last_updated_artifact (tags_artifacts m g) s) = Ok w
                   ∧ tag_obj_id t = art_id w)
  ∧ (∀ t key, t ∈ tags s → key_of m t = Some key →
        ∃ t', t' ∈ tags s' ∧ key_of m t' = Some key ∧ tag_name t' = tag_name t).
Proof.
  intros Hnd Hok m s'.
  pose proof (fix_artifact_tags_duplications_run s) as Hrun. cbn zeta in Hrun.
  destruct (outcome (tags_to_delete_plan s s)) as [D |] eqn:Hplan.
  2:{ destruct Hrun as [_ Hraise]. congruence. }
  destruct Hrun as [Hfinal _]. subst s'. rewrite Hfinal.
  destruct (for_each_session_delete D s) as [_ Htags].
  pose proof (tags_to_delete_plan_sound s s D Hplan) as Hsound. fold m in Hsound.
  (* a tag is deleted when it is among the tags to delete *)
  assert (Hgone : ∀ t, t ∈ tags s →
            (∀ d, d ∈ D → tag_id t ≠ tag_id d) ↔ t ∉ D).
  { intros t Ht. split.
    - intros Hids Hin. by apply (Hids t).
    - intros Hnot d Hd Hid. apply Hnot.
      destruct (Hsound d Hd) as (_ & _ & _ & Hdt & _).
      assert (t = d) as ->; [| done].
      apply list_elem_of_lookup in Ht as [i Hi], Hdt as [j Hj].
      assert (i = j) as ->; [| congruence].
      eapply NoDup_lookup; [exact Hnd | |]; rewrite list_lookup_fmap.
      + by rewrite Hi.
      + rewrite Hj. cbn. by rewrite Hid. }
  (* whether a tag is among the tags to delete *)
  assert (Hkept : ∀ t, t ∈ tags s →
            t ∉ D ↔
            ∀ key, key_of m t = Some key →
              let g := same_key_and_name m key (tag_name t) (tags s) in
              length g = 1%nat
              ∨ ∃ w, outcome (_find_last_updated_artifact (tags_artifacts m g) s) = Ok w
                     ∧ tag_obj_id t = art_id w).
  { intros t Ht. split.
    - intros Hnot key Hkey. cbn zeta.
      destruct (tags_to_delete_plan_group_done s s D t key Hplan Ht Hkey)
        as (more & Hmore & Hsub). fold m in Hmore.
      apply name_tags_to_delete_outcome in Hmore
        as [[Hlen _] | (_ & _ & w & Hw & ->)]; [by left |].
      right. exists w. split; [done |].
      destruct (Nat.eqb_spec (tag_obj_id t) (art_id w)) as [| Hne]; [done |].
      exfalso. apply Hnot, Hsub, elem_of_List_filter. split.
      + by apply same_key_and_name_elem.
      + by apply negb_true_iff, Nat.eqb_neq.
    - intros Hkeys Hin.
      destruct (Hsound t Hin) as (key & more & Hkey & _ & Hmore & Htm).
      specialize (Hkeys key Hkey). cbn zeta in Hkeys.
      apply name_tags_to_delete_outcome in Hmore
        as [[_ ->] | (Hlen & _ & w & Hw & ->)]; [by apply elem_of_nil in Htm |].
      destruct Hkeys as [Hone | (w' & Hw' & Hobj)]; [done |].
      rewrite Hw in Hw'. simplify_eq.
      apply elem_of_List_filter in Htm as [_ Hne].
      apply negb_true_iff, Nat.eqb_neq in Hne. done. }
  split.
  - intros t. rewrite Htags. split.
    + intros [Ht Hids]. split; [done |]. apply Hkept; [done |]. by apply Hgone.
    + intros [Ht Hkeys]. split; [done |]. apply Hgone; [done |]. by apply Hkept.
  - intros t key Ht Hkey.
    set (g := same_key_and_name m key (tag_name t) (tags s)).
    assert (Htg : t ∈ g) by (by apply same_key_and_name_elem).
    destruct (tags_to_delete_plan_group_done s s D t key Hplan Ht Hkey)
      as (more & Hmore & Hsub). fold m g in Hmore.
    assert (Hstay : ∀ t', t' ∈ g → t' ∉ more → t' ∈ tags (final (for_each D session_delete s))).
    { intros t' Ht' Hnot. apply same_key_and_name_elem in Ht' as (Ht' & Hk' & Hn').
      apply Htags. split; [done |]. apply Hgone; [done |]. intros Hin.
      destruct (Hsound t' Hin) as (key' & more' & Hkey' & _ & Hmore' & Htm').
      rewrite Hk' in Hkey'. simplify_eq. rewrite Hn' in Hmore'. fold g in Hmore'.
      congruence. }
    apply name_tags_to_delete_outcome in Hmore as Hcases.
    destruct Hcases as [[_ ->] | (Hlen & _ & w & Hw & ->)].
    + exists t. split; [| done]. apply Hstay; [done |]. by intros ?%elem_of_nil.
    + apply find_last_updated_artifact_elem, tags_artifacts_elem in Hw
        as (t' & Ht' & Hlookup).
      exists t'. apply same_key_and_name_elem in Ht' as Hparts.
      destruct Hparts as (_ & Hk' & Hn'). split; [| done].
      apply Hstay; [done |]. intros Hin. apply elem_of_List_filter in Hin as [_ Hne].
      apply negb_true_iff, Nat.eqb_neq in Hne.
      apply artifact_record_id_map_lookup in Hlookup as [Hid _]. congruence.
Qed.

Lemma fix_artifact_tags_duplications_kept_witness :
  ∃ t', t' ∈ tags (final (_fix_artifact_tags_duplications store_duplicates))
        ∧ tag_name t' = "latest".
Proof.
  destruct (fix_artifact_tags_duplications_kept store_duplicates) as [_ Hstay].
  - apply (bool_decide_unpack _). vm_compute. exact I.
  - vm_compute. reflexivity.
  - destruct (Hstay (latest 1 "default" 1) "model") as (t' & Ht' & _ & Hn').
    + vm_compute. left.
    + vm_compute. reflexivity.
    + exists t'. split; [exact Ht' | exact Hn'].
Defined.

(** ** When the deduplication fails *)

(** A loop that only reads and raises: one of its turns raises. *)
Lemma fold_m_raises {A B} (f : B → A → M B) (l : list A) (s : Store) :
  (∀ acc x, preserves eq (f acc x)) →
  ∀ acc e, outcome (fold_m f l acc s) = Raise e →
           ∃ x acc', x ∈ l ∧ outcome (f acc' x s) = Raise e.
Proof.
  intros Hreads. induction l as [| x l IH]; intros acc e Ho; [done |].
  cbn [fold_m] in Ho. rewrite run_bind in Ho.
  destruct (outcome (f acc x s)) as [acc' |] eqn:Hx; cbn in Ho.
  - rewrite <- (Hreads acc x s) in Ho. destruct (IH _ _ Ho) as (y & acc'' & Hy & Hraise).
    exists y, acc''. split; [by right | done].
  - simplify_eq. exists x, acc. split; [by left | done].
Qed.

Lemma lookup_artifact_raises m i s e :
  outcome (lookup_artifact m i s) = Raise e → exc_type e = KeyError.
Proof. unfold lookup_artifact. destruct (m !! i); cbn; [done |]. by intros [= <-]. Qed.

Lemma collect_key_tags_raises m key tgs s e :
  outcome (collect_key_tags m key tgs s) = Raise e → exc_type e = KeyError.
Proof.
  unfold collect_key_tags. intros Ho.
  apply fold_m_raises in Ho as (t & acc & _ & Ho).
  2:{ intros. pose proof reads_lookup_artifact. frame. }
  rewrite run_bind in Ho.
  assert (Hwhen : ∀ b ev, outcome (when b (emit ev) s) = Ok tt) by (by intros []).
  unfold logger in Ho. rewrite Hwhen in Ho. cbn [outcome] in Ho.
  assert (Hsame : ∀ b ev, final (when b (emit ev) s) = s) by (by intros []).
  rewrite Hsame, run_bind in Ho.
  destruct (outcome (lookup_artifact m (tag_obj_id t) s)) eqn:Hl; [done |].
  cbn in Ho. simplify_eq. by eapply lookup_artifact_raises.
Qed.

Lemma find_last_updated_artifact_raises l s e :
  outcome (_find_last_updated_artifact l s) = Raise e → l = [] ∨ exc_type e = TypeError.
Proof.
  destruct l as [| first rest]; [by left |]. right. revert H.
  unfold _find_last_updated_artifact. rewrite run_bind. cbn [lift outcome final emitted].
  pose proof (last_updated_loop_outcome (first :: rest) (None, datetime_min, [])) as Hloop.
  destruct (last_updated_loop (first :: rest) (None, datetime_min, [])) as [[[last t] same] |].
  - rewrite run_bind.
    assert (Hwhen : ∀ b ev, outcome (when b (emit ev) s) = Ok tt) by (by intros []).
    unfold logger. rewrite Hwhen. cbn [outcome]. destruct last; [done |].
    by rewrite run_bind.
  - cbn. intros [= <-]. by destruct Hloop.
Qed.

Lemma name_tags_to_delete_raises m g s e :
  g ≠ [] → outcome (name_tags_to_delete m g s) = Raise e →
  exc_type e = KeyError ∨ exc_type e = TypeError.
Proof.
  intros Hg. unfold name_tags_to_delete. destruct (length g =? 1)%nat; [done |].
  rewrite run_bind.
  destruct (outcome (fold_m _ g [] s)) as [arts |] eqn:Harts.
  - eapply (fold_m_invariant (λ pre acc, length acc = length pre)) with (pre := [])
      in Harts as Hlen; [| | done].
    2:{ clear. intros pre t acc s acc' Hlen. rewrite run_bind.
        destruct (outcome (lookup_artifact m (tag_obj_id t) s)); [| done].
        cbn. intros [= <-]. rewrite !length_app. cbn. lia. }
    cbn [outcome]. rewrite run_bind.
    destruct (outcome (_find_last_updated_artifact arts _)) eqn:Hw; [done |].
    cbn. intros [= <-]. apply find_last_updated_artifact_raises in Hw as [-> | ?]; [| by right].
    cbn in Hlen. destruct g; done.
  - cbn. intros [= <-]. left.
    apply fold_m_raises in Harts as (t & acc & _ & Ho).
    2:{ intros. pose proof reads_lookup_artifact. frame. }
    rewrite run_bind in Ho.
    destruct (outcome (lookup_artifact m (tag_obj_id t) s)) eqn:Hl; [done |].
    cbn in Ho. simplify_eq. by eapply lookup_artifact_raises.
Qed.

Lemma tags_to_delete_plan_raises (s0 s : Store) (e : PyExc) :
  outcome (tags_to_delete_plan s0 s) = Raise e →
  exc_type e = KeyError ∨ exc_type e = TypeError.
Proof.
  set (m := artifact_record_id_map (artifacts s0)). unfold tags_to_delete_plan. fold m.
  intros Ho. apply fold_m_raises in Ho as (project & acc & _ & Ho);
    [| intros; apply reads_project_tags_to_delete].
  unfold project_tags_to_delete in Ho.
  apply fold_m_raises in Ho as (key & acc' & _ & Ho);
    [| intros; apply reads_key_tags_to_delete].
  unfold key_tags_to_delete in Ho.
  rewrite run_bind, <- (reads_collect_key_tags m key (tags s0) s) in Ho.
  destruct (outcome (collect_key_tags m key (tags s0) s)) as [G |] eqn:HG.
  2:{ cbn in Ho. simplify_eq. left. by eapply collect_key_tags_raises. }
  cbn [outcome] in Ho.
  apply fold_m_raises in Ho as ([n g] & acc'' & Hg & Ho).
  2:{ intros. pose proof reads_name_tags_to_delete. frame. }
  apply tag_name_tags_map_group_eq in Hg as [_ Hg].
  rewrite run_bind in Ho. cbn [snd] in Ho.
  destruct (outcome (name_tags_to_delete m g s)) eqn:Hname; [done |].
  cbn in Ho. simplify_eq. by eapply name_tags_to_delete_raises.
Qed.

Lemma no_write_tags_to_delete_plan (s0 : Store) : emits no_write (tags_to_delete_plan s0).
Proof.
  unfold tags_to_delete_plan, project_tags_to_delete, key_tags_to_delete,
    collect_key_tags, name_tags_to_delete, lookup_artifact, _find_last_updated_artifact.
  frame; done.
Qed.

Lemma writes_none (events : list Event) : Forall no_write events → writes events = [].
Proof.
  induction 1 as [| ev events Hev _ IH]; [done |]. cbn.
  destruct ev as [| | w]; try done. by destruct (Hev w).
Qed.

(** The events of the deduplication: those of the plan, then the deletions. *)
Lemma fix_artifact_tags_duplications_emitted (s : Store) :
  let plan := tags_to_delete_plan s s in
  writes (emitted (_fix_artifact_tags_duplications s))
  = match outcome plan with
    | Ok D => writes (emitted (for_each D session_delete s))
    | Raise _ => []
    end.
Proof.
  cbn zeta. pose proof (reads_tags_to_delete_plan s s) as Hreads.
  pose proof (writes_none _ (no_write_tags_to_delete_plan s s)) as Hnone.
  unfold _fix_artifact_tags_duplications, _find_artifacts, query_tags.
  rewrite run_bind. cbn [logger emit outcome final emitted].
  rewrite run_bind, run_bind. cbn [get_store mret M_ret outcome final emitted].
  rewrite run_bind, run_bind. cbn [get_store mret M_ret outcome final emitted].
  rewrite run_bind. fold (tags_to_delete_plan s).
  assert (Hlog : ∀ lvl msg kw l, writes (Log lvl msg kw :: l) = writes l) by done.
  destruct (outcome (tags_to_delete_plan s s)) as [[| d D] |] eqn:Hplan;
    cbn [outcome final emitted app]; rewrite Hlog, ?writes_app, ?Hnone; try done.
  rewrite <- Hreads, run_bind. cbn [logger emit outcome final emitted].
  by rewrite writes_app.
Qed.

(** X13. When the deduplication raises, no tag has been deleted: the store is
    as it was and nothing has been written.  What its loops over the
    artifacts and the tags that were listed raise is a [KeyError], for a tag
    without artifact, or a [TypeError], for an artifact without update time
    among those of duplicated tags. *)
Theorem fix_artifact_tags_duplications_raises (s : Store) (e : PyExc) :
  let r := _fix_artifact_tags_duplications s in
  (outcome r = Raise e → final r = s ∧ writes (emitted r) = [])
  ∧ (outcome (tags_to_delete_plan s s) = Raise e →
     exc_type e = KeyError ∨ exc_type e = TypeError).
Proof.
  cbn zeta. split; [| apply tags_to_delete_plan_raises].
  intros Hraise.
  pose proof (fix_artifact_tags_duplications_run s) as Hrun. cbn zeta in Hrun.
  pose proof (fix_artifact_tags_duplications_emitted s) as Hwrites. cbn zeta in Hwrites.
  destruct (outcome (tags_to_delete_plan s s)) as [D | e'] eqn:Hplan.
  { destruct Hrun as [_ Hok]. congruence. }
  by destruct Hrun as [Hfinal _].
Qed.

Lemma fix_artifact_tags_duplications_raises_witness :
  final (_fix_artifact_tags_duplications store_untimed) = store_untimed.
Proof.
  eapply (proj1 (fix_artifact_tags_duplications_raises store_untimed _)).
  vm_compute. reflexivity.
Defined.

(** ** Tags without artifact *)

Lemma first_orphan (s : Store) (l : list Tag) (t : Tag) :
  t ∈ l → is_orphan s t →
  ∃ before t0 after,
    l = before ++ t0 :: after ∧ Forall (λ t', ¬ is_orphan s t') before ∧ is_orphan s t0.
Proof.
  intros Hin Ht. induction l as [| x l IH]; [by apply elem_of_nil in Hin |].
  destruct (artifact_record_id_map (artifacts s) !! tag_obj_id x) as [a |] eqn:Hx.
  - apply elem_of_cons in Hin as [-> | Hin]; [unfold is_orphan in Ht; congruence |].
    destruct (IH Hin) as (before & t0 & after & -> & Hbefore & Ht0).
    exists (x :: before), t0, after. split; [done |]. split; [| done].
    constructor; [| done]. unfold is_orphan. congruence.
  - exists [], x, l. split; [done |]. split; [constructor | done].
Qed.

(** X14. A tag whose artifact is not among the artifacts.  When there is no
    artifact at all, no tag is looked at: the pass completes, says nothing of
    the tag and leaves it.  When there are artifacts, the pass says of the
    first such tag that it deletes it and then raises the [KeyError] of the
    lookup of its artifact: neither that tag nor any other is deleted. *)
Theorem orphan_tag_stops_deduplication (s : Store) (t : Tag) :
  t ∈ tags s → is_orphan s t →
  let r := _fix_artifact_tags_duplications s in
  match artifacts s with
  | [] => r = mkRun s [Log Info "Fixing artifact tags duplications" []] (Ok tt)
  | _ :: _ =>
      ∃ before t0 after,
        tags s = before ++ t0 :: after
        ∧ Forall (λ t', ¬ is_orphan s t') before ∧ is_orphan s t0
        ∧ r = mkRun s [Log Info "Fixing artifact tags duplications" []; log_orphan t0]
                    (Raise (mkExc KeyError (py_str (Z.of_nat (tag_obj_id t0)))))
  end.
Proof.
  intros Hin Ht. cbn zeta. destruct (artifacts s) as [| first rest] eqn:Harts.
  - unfold _fix_artifact_tags_duplications, _find_artifacts, query_tags. unfold_run.
    by rewrite Harts.
  - destruct (first_orphan s (tags s) t Hin Ht) as (before & t0 & after & Htags & Hb & Ht0).
    exists before, t0, after. split_and!; try done.
    by apply (orphan_tag_raises s first rest before t0 after).
Qed.

Lemma orphan_tag_stops_deduplication_witness :
  ∃ t0, is_orphan store_orphan_and_duplicates t0
        ∧ tags (final (_fix_artifact_tags_duplications store_orphan_and_duplicates))
          = tags store_orphan_and_duplicates.
Proof.
  pose proof (orphan_tag_stops_deduplication store_orphan_and_duplicates
                (latest 3 "default" 99)) as H.
  destruct H as (before & t0 & after & _ & _ & Ht0 & Hrun).
  - vm_compute. right. right. left.
  - reflexivity.
  - exists t0. split; [exact Ht0 |]. cbv zeta in Hrun. rewrite Hrun. reflexivity.
Defined.

(** ** Artifacts that the truncation leaves alone *)

(** A payload that is not that of a dataset with too many columns: the body
    of the [try] ends early, with or without an exception, and nothing is
    logged or stored. *)
Lemma fix_dataset_large_preview_not_wide N a s :
  ¬ too_wide_dataset N (art_struct a) →
  final (fix_dataset_large_preview N a s) = s
  ∧ emitted (fix_dataset_large_preview N a s) = [].
Proof.
  intros Hnot. unfold fix_dataset_large_preview. rewrite run_bind.
  destruct (py_truthy (art_struct a)) eqn:Htruthy; [| done].
  rewrite run_bind. cbn [lift outcome final emitted].
  destruct (py_get (art_struct a) "kind" VNone) as [kind |] eqn:Hkind; [| done].
  cbn [mret M_ret outcome final emitted app].
  destruct (py_eq kind (VStr DatasetArtifact_kind)) eqn:Hdataset; [| done].
  cbn [when]. rewrite run_bind. cbn [lift outcome final emitted].
  destruct (py_get (art_struct a) "header" (VList [])) as [header |] eqn:Hheader; [| done].
  rewrite run_bind.
  destruct (py_truthy header) eqn:Hhtruthy; [| done].
  rewrite run_bind. cbn [lift outcome final emitted].
  destruct (py_len header) as [n |] eqn:Hlen; [| done].
  cbn [mret M_ret outcome final emitted app].
  destruct (Nat.ltb_spec N n) as [Hwide | _]; [| done].
  exfalso. apply Hnot. by exists kind, header, n.
Qed.

(** X15. When no artifact is a dataset with more than [N] columns in its
    header, the truncation pass completes, leaves the store as it is and
    writes nothing, whatever else the payloads are. *)
Theorem fix_datasets_large_previews_nothing_to_do (N : nat) (s : Store) :
  (∀ a, a ∈ artifacts s → ¬ too_wide_dataset N (art_struct a)) →
  let r := _fix_datasets_large_previews N s in
  outcome r = Ok tt ∧ final r = s ∧ writes (emitted r) = [].
Proof.
  intros Hnone. cbn zeta.
  assert (Hloop : ∀ l, (∀ a, a ∈ l → ¬ too_wide_dataset N (art_struct a)) →
            outcome (for_each l (fix_or_continue N) s) = Ok tt
            ∧ final (for_each l (fix_or_continue N) s) = s
            ∧ writes (emitted (for_each l (fix_or_continue N) s)) = []).
  { induction l as [| a l IH]; intros Hl; [done |].
    cbn [for_each]. rewrite run_bind.
    destruct (fix_or_continue_run N a s) as (Ho & Hf & He).
    destruct (fix_dataset_large_preview_not_wide N a s) as [Hsame Hquiet];
      [apply Hl; by left |].
    rewrite Ho, Hf, He, Hsame, Hquiet. cbn [outcome final emitted app].
    destruct IH as (IHo & IHf & IHe); [intros b Hb; apply Hl; by right |].
    rewrite IHo, IHf, writes_app, IHe. split; [done |]. split; [done |].
    by destruct (outcome (fix_dataset_large_preview N a s)). }
  destruct (Hloop (artifacts s) Hnone) as (Ho & Hf & He).
  unfold _fix_datasets_large_previews, _find_artifacts.
  rewrite run_bind. cbn [logger emit outcome final emitted].
  rewrite run_bind, run_bind. cbn [get_store mret M_ret outcome final emitted app].
  rewrite Ho, Hf. cbn [outcome final emitted].
  assert (Hlog : ∀ lvl msg kw l, writes (Log lvl msg kw :: l) = writes l) by done.
  by rewrite Hlog, He.
Qed.

Lemma fix_datasets_large_previews_nothing_to_do_witness :
  final (_fix_datasets_large_previews 2 store_wide_rows) = store_wide_rows.
Proof.
  apply (fix_datasets_large_previews_nothing_to_do 2 store_wide_rows).
  intros a Ha (kind & header & n & _ & _ & _ & Hheader & _ & Hlen & Hlt).
  apply list_elem_of_singleton in Ha. subst a.
  vm_compute in Hheader. injection Hheader as <-.
  vm_compute in Hlen. injection Hlen as <-. lia.
Defined.

(** ** Steps that fail half way *)

(** X16. The repair passes of version 1 run one after the other and stop at
    the first that raises.  When the projects cannot be listed, nothing is
    done.  When the enrichment completes and the deduplication then raises,
    what the enrichment has written stays, no tag has been deleted, and the
    previews are not looked at: the artifacts are as they were. *)
Theorem version_1_migrations_stop_at_first_failure (N : nat) (s : Store) :
  let r := _perform_version_1_data_migrations N s in
  let enriched := _enrich_project_state s in
  (∀ reason, projects s = Unavailable reason →
     r = mkRun s [Log Info "Enriching projects state" []]
               (Raise (operational_error reason)))
  ∧ (∀ e, outcome enriched = Ok tt →
          outcome (_fix_artifact_tags_duplications (final enriched)) = Raise e →
          outcome r = Raise e
          ∧ final r = final enriched
          ∧ writes (emitted r) = writes (emitted enriched)
          ∧ tags (final r) = tags s ∧ artifacts (final r) = artifacts s).
Proof.
  cbn zeta. unfold _perform_version_1_data_migrations. split.
  - intros reason Hps. rewrite run_bind.
    assert (Henrich : _enrich_project_state s
                      = mkRun s [Log Info "Enriching projects state" []]
                              (Raise (operational_error reason))).
    { unfold _enrich_project_state, list_projects. unfold_run. by rewrite Hps. }
    by rewrite Henrich.
  - intros e Hok Hraise. rewrite run_bind, Hok. cbn [outcome final emitted].
    rewrite run_bind, Hraise. cbn [outcome final emitted].
    pose proof (fix_artifact_tags_duplications_run (final (_enrich_project_state s)))
      as Hrun.
    pose proof (fix_artifact_tags_duplications_emitted (final (_enrich_project_state s)))
      as Hwrites.
    cbn zeta in Hrun, Hwrites.
    destruct (outcome (tags_to_delete_plan _ _)) as [D | e'].
    { destruct Hrun as [_ Hout]. congruence. }
    destruct Hrun as [Hfinal _]. rewrite Hfinal, writes_app, Hwrites, app_nil_r.
    split_and!; try done.
    + destruct (projects s) as [reason | m] eqn:Hm.
      * assert (final (_enrich_project_state s) = s) as ->; [| done].
        unfold _enrich_project_state, list_projects. unfold_run. by rewrite Hm.
      * by destruct (enrich_project_state_run s m Hm) as (_ & -> & _).
    + destruct (projects s) as [reason | m] eqn:Hm.
      * assert (final (_enrich_project_state s) = s) as ->; [| done].
        unfold _enrich_project_state, list_projects. unfold_run. by rewrite Hm.
      * by destruct (enrich_project_state_run s m Hm) as (_ & -> & _).
Qed.

Lemma version_1_migrations_stop_at_first_failure_witness :
  writes (emitted (_perform_version_1_data_migrations 2 store_orphan))
  = writes (emitted (_enrich_project_state store_orphan))
  ∧ tags (final (_perform_version_1_data_migrations 2 store_orphan)) = tags store_orphan.
Proof.
  destruct (version_1_migrations_stop_at_first_failure 2 store_orphan) as [_ H].
  destruct (H (mkExc KeyError "99")) as (_ & _ & Hw & Ht & _).
  - vm_compute. reflexivity.
  - vm_compute. reflexivity.
  - split; [exact Hw | exact Ht].
Defined.

(** X17. [_add_initial_data] seeds the default marketplace source before the
    marker.  When the table of the marker can be read, it completes, leaves a
    marker and changes nothing but the sources and the marker.  When it
    cannot, the failure of the read escapes after the source has been
    seeded: a source that was added stays. *)
Theorem add_initial_data_cases (config : Config) (s : Store) :
  let r := _add_initial_data config s in
  let seeded := _add_default_marketplace_source_if_needed config s in
  match data_version s with
  | Unavailable reason =>
      r = mkRun (final seeded) (emitted seeded) (Raise (operational_error reason))
  | Rows _ =>
      outcome r = Ok tt
      ∧ marker_set (final r)
      ∧ marketplace_sources (final r) = marketplace_sources (final seeded)
      ∧ projects (final r) = projects s
      ∧ artifacts (final r) = artifacts s ∧ tags (final r) = tags s
  end.
Proof.
  cbn zeta. unfold _add_initial_data. rewrite run_bind.
  destruct (add_default_marketplace_source_frame config s)
    as (Ho & Hdv & Hps & Harts & Htags).
  rewrite Ho. cbn [outcome final emitted].
  set (s1 := final (_add_default_marketplace_source_if_needed config s)) in *.
  destruct (data_version s) as [reason | [text |]] eqn:Hmarker.
  - rewrite (add_data_version_after_read s1), Hdv by congruence.
    cbn [outcome final emitted]. by rewrite app_nil_r.
  - rewrite (add_data_version_after_read s1), Hdv by congruence.
    cbn [outcome final emitted]. split_and!; try done. exists text. congruence.
  - destruct (add_data_version_unmarked s1) as (Ho2 & Hf2 & _); [congruence |].
    rewrite Ho2, Hf2. split_and!; try done. by eexists.
Qed.

Lemma add_initial_data_cases_witness :
  marker_set (final (_add_initial_data (enabled "enabled") store_unmarked)).
Proof.
  pose proof (add_initial_data_cases (enabled "enabled") store_unmarked) as H.
  cbv zeta in H. change (data_version store_unmarked) with (@Rows (option string) None) in H.
  exact (proj1 (proj2 H)).
Defined.

(** ** The calls to the external collaborators *)

Lemma calls_app (l1 l2 : list Event) : calls (l1 ++ l2) = calls l1 ++ calls l2.
Proof. apply omap_app. Qed.

Lemma calls_none (events : list Event) : Forall no_call events → calls events = [].
Proof.
  induction 1 as [| ev events Hev _ IH]; [done |]. cbn.
  destruct ev as [| c |]; try done. by destruct (Hev c).
Qed.

Lemma bind_ok {A B} (m : M A) (f : A → M B) (s : Store) (b : B) :
  outcome ((m ≫= f) s) = Ok b →
  ∃ a, outcome (m s) = Ok a
       ∧ outcome (f a (final (m s))) = Ok b
       ∧ emitted ((m ≫= f) s) = emitted (m s) ++ emitted (f a (final (m s))).
Proof.
  rewrite run_bind. destruct (outcome (m s)) as [a |]; [| done]. cbn. by exists a.
Qed.

Lemma try_finally_close_session {A} (m : M A) (s : Store) :
  try_finally m close_session s = m s.
Proof.
  unfold try_finally, close_session. cbn. rewrite app_nil_r. by destruct (m s).
Qed.

Lemma no_call_resolve_current_data_version : emits no_call _resolve_current_data_version.
Proof.
  unfold _resolve_current_data_version, get_current_data_version, list_projects.
  frame; done.
Qed.

Lemma no_call_add_initial_data config : emits no_call (_add_initial_data config).
Proof.
  unfold _add_initial_data, _add_default_marketplace_source_if_needed, _add_data_version,
    get_marketplace_source, session_add_source, create_data_version,
    get_current_data_version.
  pose proof no_call_resolve_current_data_version.
  frame; done.
Qed.

Lemma no_call_perform_data_migrations N config :
  emits no_call (_perform_data_migrations N config).
Proof.
  unfold _perform_data_migrations, _perform_version_1_data_migrations,
    _enrich_project_state, list_projects, enrich_project, store_project,
    _fix_artifact_tags_duplications, _find_artifacts, query_tags, project_tags_to_delete,
    key_tags_to_delete, collect_key_tags, name_tags_to_delete, lookup_artifact,
    _find_last_updated_artifact, session_delete,
    _fix_datasets_large_previews, fix_or_continue, fix_dataset_large_preview,
    align_preview_rows, align_stats, align_schema_fields, _store_artifact,
    create_data_version, get_current_data_version.
  frame; done.
Qed.

(** X18. A run of [init_data] that completes has called alembic once, with
    the answer to whether the version resolved at the start is the latest,
    then the legacy transfer, once, when it is not run from scratch and the
    database migration mode is enabled, and not at all otherwise, then
    [init_db] once; [main] runs it not from scratch. *)
Theorem init_data_calls N init_alembic transfer init_db
    (config : Config) (from_scratch : bool) (s : Store) :
  let r := init_data N init_alembic transfer init_db config from_scratch s in
  outcome r = Ok tt →
  (∃ v, outcome (_resolve_current_data_version s) = Ok v
        ∧ calls (emitted r)
          = CallAlembic (alembic_config_file_name config) (v =? latest_data_version)
                        (String.eqb (database_backup_mode config) "enabled")
            :: (if negb from_scratch
                   && String.eqb (database_migration_mode config) "enabled"
                then [CallTransfer] else [])
            ++ [CallInitDb])
  ∧ main N init_alembic transfer init_db config
    = init_data N init_alembic transfer init_db config false.
Proof.
  cbn zeta. intros Hok. split; [| done].
  unfold init_data in Hok |- *.
  apply bind_ok in Hok as ([] & _ & Hok & ->).
  apply bind_ok in Hok as ([] & Hschema & Hok & ->).
  apply bind_ok in Hok as ([] & Htransfer & Hok & ->).
  apply bind_ok in Hok as ([] & Hbody & _ & ->).
  rewrite try_finally_close_session in Hbody |- *.
  apply bind_ok in Hbody as ([] & Hdb & Hbody & ->).
  apply bind_ok in Hbody as ([] & _ & _ & ->).
  (* the schema migrations *)
  unfold _perform_schema_migrations in Hschema |- *.
  apply bind_ok in Hschema as (b & Hlatest & _ & ->).
  unfold _is_latest_data_version in Hlatest |- *.
  apply bind_ok in Hlatest as (v & Hv & Hb & ->).
  rewrite try_finally_close_session in Hv, Hb |- *.
  change (final (logger Info "Creating initial data" [] s)) with s in *.
  cbn in Hb. simplify_eq.
  exists v. split; [done |].
  rewrite !calls_app.
  rewrite (calls_none _ (no_call_resolve_current_data_version s)).
  rewrite (calls_none _ (no_call_add_initial_data config _)).
  rewrite (calls_none _ (no_call_perform_data_migrations N config _)).
  cbn [logger emit emitted calls omap app mret M_ret external].
  unfold alembic_config_file_name. f_equal.
  unfold _perform_database_migration. 
  by destruct (negb from_scratch && _).
Qed.

Lemma init_data_calls_witness :
  calls (emitted (init_data_example (enabled "enabled") store_stale))
  = [CallAlembic "alembic.ini" false true; CallTransfer; CallInitDb].
Proof.
  unfold init_data_example.
  destruct (init_data_calls 2 (λ _ _ _, nothing_to_do) nothing_to_do nothing_to_do
              (enabled "enabled") false store_stale) as [(v & Hv & Hcalls) _].
  - vm_compute. reflexivity.
  - rewrite Hcalls. vm_compute in Hv. injection Hv as <-. reflexivity.
Defined.

(** ** The marker, written and read back *)

Lemma py_digits_string_of_uint (d : Decimal.uint) (after_digit : bool) (acc : Z) :
  d ≠ Decimal.Nil ∨ after_digit = true →
  py_digits after_digit acc (NilEmpty.string_of_uint d) = Some (uint_value d acc).
Proof.
  revert after_digit acc.
  induction d as [| d IH | d IH | d IH | d IH | d IH | d IH | d IH | d IH | d IH | d IH];
    intros after_digit acc Hd;
    [ destruct Hd as [? | ->]; done | .. ];
    cbn [NilEmpty.string_of_uint py_digits uint_value];
    match goal with
    | |- context [is_py_digit ?c] => change (is_py_digit c) with true
    end; cbn match; rewrite IH by (by right); done.
Qed.

Lemma uint_value_of_uint_acc (d : Decimal.uint) (p : positive) :
  Z.pos (Pos.of_uint_acc d p) = uint_value d (Z.pos p).
Proof.
  revert p.
  induction d as [| d IH | d IH | d IH | d IH | d IH | d IH | d IH | d IH | d IH | d IH];
    intros p; cbn [Pos.of_uint_acc uint_value]; [done | ..];
    rewrite IH; f_equal; lia.
Qed.

Lemma uint_value_of_uint (d : Decimal.uint) : Z.of_N (Pos.of_uint d) = uint_value d 0.
Proof.
  induction d as [| d IH | d IH | d IH | d IH | d IH | d IH | d IH | d IH | d IH | d IH];
    cbn [Pos.of_uint uint_value]; [done | exact IH | ..];
    cbn [Z.of_N]; rewrite uint_value_of_uint_acc; f_equal.
Qed.

Lemma rstrip_string_of_uint (d : Decimal.uint) :
  rstrip (NilEmpty.string_of_uint d) = NilEmpty.string_of_uint d.
Proof.
  induction d as [| d IH | d IH | d IH | d IH | d IH | d IH | d IH | d IH | d IH | d IH];
    [done | ..]; cbn [NilEmpty.string_of_uint rstrip]; rewrite IH;
    by destruct (NilEmpty.string_of_uint d).
Qed.

Lemma py_int_string_of_uint (d : Decimal.uint) :
  d ≠ Decimal.Nil →
  py_int (NilEmpty.string_of_uint d) = Ok (Z.of_N (Pos.of_uint d))
  ∧ py_int (String "-" (NilEmpty.string_of_uint d)) = Ok (- Z.of_N (Pos.of_uint d)).
Proof.
  intros Hd. pose proof (py_digits_string_of_uint d false 0 (or_introl Hd)) as Hdigits.
  pose proof (rstrip_string_of_uint d) as Hstrip.
  rewrite uint_value_of_uint. unfold py_int. split.
  - assert (lstrip (NilEmpty.string_of_uint d) = NilEmpty.string_of_uint d) as ->
      by (by destruct d).
    cbv zeta. rewrite Hstrip.
    assert (match NilEmpty.string_of_uint d with
            | String "-" rest => Z.opp <$> py_digits false 0 rest
            | String "+" rest => py_digits false 0 rest
            | _ => py_digits false 0 (NilEmpty.string_of_uint d)
            end = py_digits false 0 (NilEmpty.string_of_uint d)) as -> by (by destruct d).
    by rewrite Hdigits.
  - cbv zeta. cbn [lstrip]. change (is_py_space "-") with false. cbn match.
    cbn [rstrip]. rewrite Hstrip.
    assert (match NilEmpty.string_of_uint d with
            | EmptyString => if is_py_space "-" then EmptyString else String "-" EmptyString
            | String a s => String "-" (String a s)
            end = String "-" (NilEmpty.string_of_uint d)) as -> by (by destruct d).
    by rewrite Hdigits.
Qed.

(** [int(str(z))] is [z]. *)
Lemma py_int_py_str (z : Z) : py_int (py_str z) = Ok z.
Proof.
  unfold py_str. destruct z as [| p | p]; [done | |]; cbn [Z.to_int NilZero.string_of_int].
  - assert (Hne : Pos.to_uint p ≠ Decimal.Nil).
    { intros Hnil. pose proof (DecimalPos.Unsigned.of_to p) as Hof.
      rewrite Hnil in Hof. done. }
    assert (NilZero.string_of_uint (Pos.to_uint p) = NilEmpty.string_of_uint (Pos.to_uint p))
      as -> by (by destruct (Pos.to_uint p)).
    destruct (py_int_string_of_uint _ Hne) as [-> _].
    by rewrite DecimalPos.Unsigned.of_to.
  - assert (Hne : Pos.to_uint p ≠ Decimal.Nil).
    { intros Hnil. pose proof (DecimalPos.Unsigned.of_to p) as Hof.
      rewrite Hnil in Hof. done. }
    assert (NilZero.string_of_uint (Pos.to_uint p) = NilEmpty.string_of_uint (Pos.to_uint p))
      as -> by (by destruct (Pos.to_uint p)).
    destruct (py_int_string_of_uint _ Hne) as [_ ->].
    by rewrite DecimalPos.Unsigned.of_to.
Qed.

(** X19. The marker is kept as text: a version that is written as [str] of
    an integer is read back as that integer, whatever the integer, by the
    resolution of the data version and by the data migrations, which do
    nothing when it is the latest version. *)
Theorem data_version_round_trip (N : nat) (config : Config) (z : Z) (s : Store) :
  (∃ row, data_version s = Rows row) →
  let written := create_data_version (py_str z) s in
  outcome written = Ok tt
  ∧ _resolve_current_data_version (final written) = mkRun (final written) [] (Ok z)
  ∧ (z = latest_data_version →
     _perform_data_migrations N config (final written) = mkRun (final written) [] (Ok tt)).
Proof.
  intros [row Hrow]. cbn zeta. rewrite create_data_version_run, Hrow. cbn [outcome final].
  split; [done |]. split.
  - unfold _resolve_current_data_version, try_except.
    rewrite run_bind, get_current_data_version_run.
    cbn [set_data_version data_version outcome final emitted lift int_of_marker].
    by rewrite py_int_py_str.
  - intros ->.
    destruct (String.eqb_spec (data_migrations_mode config) "enabled") as [Hmode | Hmode].
    + by rewrite (perform_data_migrations_enabled N config _ (py_str latest_data_version)
                    latest_data_version).
    + by rewrite perform_data_migrations_disabled.
Qed.

Lemma data_version_round_trip_witness :
  _resolve_current_data_version (final (create_data_version (py_str (-42)) store_marked))
  = mkRun (final (create_data_version (py_str (-42)) store_marked)) [] (Ok (-42)).
Proof.
  apply (data_version_round_trip 2 (enabled "enabled") (-42) store_marked).
  by eexists.
Defined.

(** ** What the truncation keeps *)

Lemma align_preview_rows_cut N d rows s rows' :
  outcome (align_preview_rows N d rows s) = Ok rows' → Forall2 (cut_to N) rows rows'.
Proof.
  intros H.
  apply (fold_m_invariant (λ pre acc, Forall2 (cut_to N) pre acc) _) with (pre := []) in H;
    [done | | done].
  clear. intros pre row acc s acc' Hacc. revert acc'. apply wp_outcome.
  wp_lift Hlen. apply wp_bind, wp_when.
  assert (Hrest : wp (lift (py_slice_to N row) ≫= λ row', mret (acc ++ [row']))
                     s (λ _ r, ∀ acc', r = Ok acc' → Forall2 (cut_to N) (pre ++ [row]) acc')).
  { wp_lift Hrow. apply wp_ret. intros ? [= <-].
    apply Forall2_app; [done |]. by constructor. }
  destruct (_ <? _)%nat; [apply wp_logger |]; exact Hrest.
Qed.

Lemma align_schema_fields_filter removed fields s fields' :
  outcome (align_schema_fields removed fields s) = Ok fields' →
  fields' = List.filter (λ f, negb (names_one_of removed f)) fields.
Proof.
  intros H.
  apply (fold_m_invariant
           (λ pre acc, acc = List.filter (λ f, negb (names_one_of removed f)) pre) _)
    with (pre := []) in H; [done | | done].
  clear. intros pre field acc s acc' ->. revert acc'. apply wp_outcome.
  wp_lift Hname. wp_lift Hin. apply wp_ret. intros ? [= <-].
  match goal with
  | b : bool |- _ =>
      assert (Hfield : names_one_of removed field = b)
        by (unfold names_one_of; by rewrite Hname, Hin);
      rewrite List.filter_app; cbn [List.filter]; rewrite Hfield;
      destruct b; cbn; by rewrite ?app_nil_r
  end.
Qed.

Lemma align_stats_kept columns ad s d' :
  outcome (align_stats columns (VDict ad) s) = Ok d' →
  ∃ ad', d' = VDict ad'
         ∧ (∀ k, k ≠ "stats" → dict_lookup k ad' = dict_lookup k ad)
         ∧ ∀ stats, dict_lookup "stats" ad = Some (VDict stats) →
             ∃ stats', dict_lookup "stats" ad' = Some (VDict stats')
                       ∧ ∀ key, VStr key ∉ columns →
                                dict_lookup key stats' = dict_lookup key stats.
Proof.
  intros H.
  set (I := λ (pre : list value) (d' : value),
         ∃ ad', d' = VDict ad'
                ∧ (∀ k, k ≠ "stats" → dict_lookup k ad' = dict_lookup k ad)
                ∧ ∀ stats, dict_lookup "stats" ad = Some (VDict stats) →
                    ∃ stats', dict_lookup "stats" ad' = Some (VDict stats')
                              ∧ ∀ key, VStr key ∉ pre →
                                       dict_lookup key stats' = dict_lookup key stats).
  apply (fold_m_invariant I _) with (pre := []) in H; [exact H | |].
  2:{ exists ad. split; [done |]. split; [done |]. intros stats Hst. by exists stats. }
  clear. intros pre col d s d' (ad' & -> & Hothers & Hdict). revert d'. apply wp_outcome.
  wp_lift Hget. cbn in Hget. simplify_eq.
  wp_lift Hin. match goal with b : bool |- _ => destruct b end.
  - wp_lift Hitem. wp_lift Hdel. apply wp_lift. cbn. intros ? [= <-].
    cbn in Hitem. destruct (dict_lookup "stats" ad') as [st |] eqn:Hst; simplify_eq.
    eexists. split; [done |]. split.
    + intros k Hk. rewrite dict_lookup_set_ne by done. by apply Hothers.
    + intros stats Hstats. destruct (Hdict stats Hstats) as (stats' & Hst' & Hpre).
      simplify_eq. cbn in Hdel.
      destruct col as [| | | k | |]; try done.
      destruct (dict_has k stats'); simplify_eq.
      exists (dict_del k stats'). split; [by rewrite dict_lookup_set_eq |].
      intros key Hkey. rewrite dict_lookup_del_ne.
      * apply Hpre. intros Hin'. apply Hkey, elem_of_app. by left.
      * intros ->. apply Hkey, elem_of_app. right. by left.
  - apply wp_ret. intros ? [= <-].
    exists ad'. split; [done |]. split; [done |].
    intros stats Hstats. destruct (Hdict stats Hstats) as (stats' & Hst' & Hpre).
    exists stats'. split; [done |]. intros key Hkey.
    apply Hpre. intros Hin'. apply Hkey, elem_of_app. by left.
Qed.

Lemma align_preview_block_cut N ad preview s :
  py_get (VDict ad) "preview" VNone = Ok preview →
  wp (if py_truthy preview
      then preview ← lift (py_getitem (VDict ad) "preview");
           rows ← lift (py_iter preview);
           new_preview ← align_preview_rows N (VDict ad) rows;
           lift (py_setitem (VDict ad) "preview" (VList new_preview))
      else mret (VDict ad))
     s
     (λ s1 r1, s1 = s
               ∧ ∀ d1, r1 = Ok d1 →
                   ∃ ad1, d1 = VDict ad1
                          ∧ (∀ k, k ≠ "preview" → dict_lookup k ad1 = dict_lookup k ad)
                          ∧ ∀ rows, dict_lookup "preview" ad = Some (VList rows) → rows ≠ [] →
                              ∃ rows', dict_lookup "preview" ad1 = Some (VList rows')
                                       ∧ Forall2 (cut_to N) rows rows').
Proof.
  intros Hget. cbn in Hget. simplify_eq.
  destruct (py_truthy _) eqn:Htruthy.
  2:{ apply wp_ret. split; [done |]. intros ? [= <-]. exists ad.
      split; [done |]. split; [done |]. intros rows Hrows Hne.
      rewrite Hrows in Htruthy. cbn in Htruthy.
      by rewrite bool_decide_eq_false_2 in Htruthy. }
  apply wp_bind, wp_lift. cbn beta.
  destruct (py_getitem _ _) as [preview |] eqn:Hitem; [| done].
  apply wp_bind, wp_lift. cbn beta. destruct (py_iter _) as [items |] eqn:Hiter; [| done].
  apply wp_bind, wp_reads; [unfold align_preview_rows; frame |].
  destruct (outcome (align_preview_rows N (VDict ad) items s)) as [new |] eqn:Hrows;
    [| done].
  apply wp_lift. split; [done |]. cbn. intros ? [= <-].
  eexists. split; [done |]. split.
  - intros k Hk. by apply dict_lookup_set_ne.
  - intros rows Hlookup _. exists new. split; [apply dict_lookup_set_eq |].
    cbn in Hitem. rewrite Hlookup in Hitem. simplify_eq. cbn in Hiter. simplify_eq.
    by eapply align_preview_rows_cut.
Qed.

Lemma align_schema_block_filter removed ad schema fields s :
  py_get (VDict ad) "schema" (VDict []) = Ok schema →
  py_get schema "fields" VNone = Ok fields →
  wp (if py_truthy fields
      then schema ← lift (py_getitem (VDict ad) "schema");
           fields ← lift (py_getitem schema "fields");
           fields ← lift (py_iter fields);
           new_schema_fields ← align_schema_fields removed fields;
           schema ← lift (py_setitem schema "fields" (VList new_schema_fields));
           lift (py_setitem (VDict ad) "schema" schema)
      else mret (VDict ad))
     s
     (λ s1 r1, s1 = s
               ∧ ∀ d1, r1 = Ok d1 →
                   ∃ ad1, d1 = VDict ad1
                          ∧ (∀ k, k ≠ "schema" → dict_lookup k ad1 = dict_lookup k ad)
                          ∧ ∀ schema0 fields0,
                              dict_lookup "schema" ad = Some (VDict schema0) →
                              dict_lookup "fields" schema0 = Some (VList fields0) →
                              fields0 ≠ [] →
                              ∃ schema',
                                dict_lookup "schema" ad1 = Some (VDict schema')
                                ∧ dict_lookup "fields" schema'
                                  = Some (VList (List.filter
                                                   (λ f, negb (names_one_of removed f))
                                                   fields0))
                                ∧ ∀ k, k ≠ "fields" →
                                       dict_lookup k schema' = dict_lookup k schema0).
Proof.
  intros Hschema Hfields.
  destruct (py_truthy fields) eqn:Htruthy.
  2:{ apply wp_ret. split; [done |]. intros ? [= <-]. exists ad.
      split; [done |]. split; [done |]. intros schema0 fields0 Hs Hf Hne.
      cbn in Hschema. rewrite Hs in Hschema. cbn in Hschema. simplify_eq.
      cbn in Hfields. rewrite Hf in Hfields. cbn in Hfields. simplify_eq.
      cbn in Htruthy. by rewrite bool_decide_eq_false_2 in Htruthy. }
  apply wp_bind, wp_lift. cbn beta.
  destruct (py_getitem _ _) as [schema1 |] eqn:Hitem; [| done].
  apply wp_bind, wp_lift. cbn beta.
  destruct (py_getitem schema1 _) as [fields1 |] eqn:Hitem1; [| done].
  apply wp_bind, wp_lift. cbn beta. destruct (py_iter _) as [items |] eqn:Hiter; [| done].
  apply wp_bind, wp_reads; [unfold align_schema_fields; frame |].
  destruct (outcome (align_schema_fields removed items s)) as [new |] eqn:Hnew; [| done].
  apply wp_bind, wp_lift. cbn beta.
  destruct (py_setitem schema1 _ _) as [schema2 |] eqn:Hset1; [| done].
  apply wp_lift. split; [done |]. cbn. intros ? [= <-].
  eexists. split; [done |]. split.
  - intros k Hk. by apply dict_lookup_set_ne.
  - intros schema0 fields0 Hs Hf _.
    cbn in Hitem. rewrite Hs in Hitem. simplify_eq.
    cbn in Hitem1. rewrite Hf in Hitem1. simplify_eq.
    cbn in Hiter. simplify_eq. cbn in Hset1. simplify_eq.
    apply align_schema_fields_filter in Hnew as ->.
    eexists. split; [apply dict_lookup_set_eq |]. split; [apply dict_lookup_set_eq |].
    intros k Hk. by apply dict_lookup_set_ne.
Qed.

(** X20. What the truncation keeps.  When the body of the [try] completes for
    a dataset with more than [N] columns in its header, the payload stored
    has the header cut to its first [N] entries, and of the rest it has lost
    the removed columns only: it has as many preview rows, each the row that
    was there cut to its first [N] cells; the stats of the columns that stay;
    the fields of the schema that are not named after a removed column, in
    their order, with what else the schema holds; and every other key as it
    was. *)
Theorem fix_dataset_large_preview_keeps (N : nat) (a : Artifact) (s : Store) :
  let r := fix_dataset_large_preview N a s in
  outcome r = Ok tt → too_wide_dataset N (art_struct a) →
  ∃ ad ad' header removed columns header',
    art_struct a = VDict ad
    ∧ final r = set_artifact_body (art_project a) (art_key a) (art_uid a) (VDict ad') s
    ∧ py_get (VDict ad) "header" (VList []) = Ok header
    ∧ py_slice_from N header = Ok removed
    ∧ py_iter removed = Ok columns
    ∧ py_slice_to N header = Ok header'
    ∧ dict_lookup "header" ad' = Some header'
    ∧ kept N removed columns ad ad'
    ∧ ∀ k, k ∉ ["header"; "preview"; "stats"; "schema"] →
           dict_lookup k ad' = dict_lookup k ad.
Proof.
  cbn zeta. intros Hok Htoo. revert Hok.
  enough (wp (fix_dataset_large_preview N a) s
            (λ s' r, r = Ok tt →
               ∃ ad ad' header removed columns header',
                 art_struct a = VDict ad
                 ∧ s' = set_artifact_body (art_project a) (art_key a) (art_uid a)
                          (VDict ad') s
                 ∧ py_get (VDict ad) "header" (VList []) = Ok header
                 ∧ py_slice_from N header = Ok removed
                 ∧ py_iter removed = Ok columns
                 ∧ py_slice_to N header = Ok header'
                 ∧ dict_lookup "header" ad' = Some header'
                 ∧ kept N removed columns ad ad'
                 ∧ ∀ k, k ∉ ["header"; "preview"; "stats"; "schema"] →
                        dict_lookup k ad' = dict_lookup k ad)) as H by exact H.
  destruct Htoo as (kind & header & n & Htruthy & Hkind & Hdataset & Hheader & Hhtruthy
                    & Hlen & Hwide).
  destruct a as [id project key uid updated d]. unfold fix_dataset_large_preview.
  cbn [art_struct art_project art_key art_uid] in *.
  apply wp_bind. rewrite Htruthy.
  apply wp_bind, wp_lift. rewrite Hkind. cbn beta iota.
  apply wp_ret, wp_when. rewrite Hdataset.
  apply wp_bind, wp_lift. rewrite Hheader. cbn beta iota.
  apply wp_bind. rewrite Hhtruthy.
  apply wp_bind, wp_lift. rewrite Hlen. cbn beta iota.
  apply wp_ret, wp_when. apply Nat.ltb_lt in Hwide. rewrite Hwide.
  destruct d as [| | | | | ad]; try done.
  wp_log. wp_lift Hremoved. rename a into removed.
  wp_lift Hpreview.
  (* align preview *)
  apply wp_bind.
  eapply wp_mono; [by apply align_preview_block_cut |]. cbn beta.
  intros ? [d1 |] [-> H1]; [| done].
  destruct (H1 _ eq_refl) as (ad1 & -> & Hk1 & Hpreview1). clear H1.
  (* align stats *)
  wp_lift Hcolumns. rename a0 into columns.
  apply wp_bind, wp_reads; [unfold align_stats; frame |].
  destruct (outcome (align_stats columns (VDict ad1) s)) as [d2 |] eqn:Hstats; [| done].
  apply align_stats_kept in Hstats as (ad2 & -> & Hk2 & Hstats2).
  (* align schema *)
  wp_lift Hschema. wp_lift Hfields. apply wp_bind.
  eapply wp_mono; [by eapply (align_schema_block_filter removed) |]. cbn beta.
  intros ? [d3 |] [-> H3]; [| done].
  destruct (H3 _ eq_refl) as (ad3 & -> & Hk3 & Hschema3). clear H3.
  (* lastly, align headers *)
  wp_lift Hslice. rename a2 into header'.
  apply wp_bind, wp_lift. cbn.
  wp_log. apply wp_store_artifact. intros _.
  exists ad, (dict_set "header" header' ad3), header, removed, columns, header'.
  assert (Hothers : ∀ k, k ≠ "header" →
            dict_lookup k (dict_set "header" header' ad3) = dict_lookup k ad3).
  { intros k Hk. by apply dict_lookup_set_ne. }
  split_and!; try done.
  - apply dict_lookup_set_eq.
  - split_and!.
    + intros rows Hrows Hne. destruct (Hpreview1 rows Hrows Hne) as (rows' & Hr' & Hcut).
      exists rows'. split; [| done]. by rewrite Hothers, Hk3, Hk2.
    + intros stats Hst. rewrite <- Hk1 in Hst by done.
      destruct (Hstats2 stats Hst) as (stats' & Hst' & Hkeys).
      exists stats'. split; [| done]. by rewrite Hothers, Hk3.
    + intros schema fields Hs Hf Hne. rewrite <- Hk1, <- Hk2 in Hs by done.
      destruct (Hschema3 schema fields Hs Hf Hne) as (schema' & Hs' & Hf' & Hrest).
      exists schema'. split; [| done]. by rewrite Hothers.
  - intros k Hk.
    rewrite Hothers, Hk3, Hk2, Hk1; [done | ..];
      intros ->; apply Hk; repeat constructor.
Qed.

Lemma fix_dataset_large_preview_keeps_witness :
  ∃ ad', final (fix_dataset_large_preview 2
                  (dataset 2 "good"
                     (wide ["a"; "b"; "c"] (VList [VList [VInt 1; VInt 2; VInt 3]])))
                  store_malformed)
         = set_artifact_body "default" "good" "uid" (VDict ad') store_malformed
         ∧ dict_lookup "preview" ad' = Some (VList [VList [VInt 1; VInt 2]]).
Proof.
  destruct (fix_dataset_large_preview_keeps 2
              (dataset 2 "good"
                 (wide ["a"; "b"; "c"] (VList [VList [VInt 1; VInt 2; VInt 3]])))
              store_malformed)
    as (ad & ad' & header & removed & columns & header' & Had & Hfinal & _ & _ & _ & _ & _
        & (Hpreview & _) & _).
  - vm_compute. reflexivity.
  - exists (VStr "dataset"), (VList [VStr "a"; VStr "b"; VStr "c"]), 3%nat.
    vm_compute. repeat split; lia.
  - exists ad'. split; [exact Hfinal |].
    vm_compute in Had. injection Had as <-.
    destruct (Hpreview [VList [VInt 1; VInt 2; VInt 3]]) as (rows' & Hrows' & Hcut);
      [reflexivity | discriminate |].
    rewrite Hrows'. do 2 f_equal.
    apply Forall2_cons_inv_l in Hcut as (r' & rest & Hr & Hrest & ->).
    apply Forall2_nil_inv_l in Hrest as ->.
    vm_compute in Hr. by injection Hr as <-.
Defined.

(** ** The order of the stages *)

Lemma stages_app (l1 l2 : list Event) : stages (l1 ++ l2) = stages l1 ++ stages l2.
Proof. apply omap_app. Qed.

Lemma staged_unmarked {A} (m : M A) : emits (λ ev, stage_of ev = None) m → staged [] m.
Proof.
  intros Hm s. specialize (Hm s). unfold stages.
  induction Hm as [| ev l Hev _ IH]; cbn; [done |]. by rewrite Hev.
Qed.

Lemma staged_bind (o1 o2 : list Stage) {A B} (m : M A) (f : A → M B) :
  staged o1 m → (∀ a, staged o2 (f a)) → staged (o1 ++ o2) (m ≫= f).
Proof.
  intros Hm Hf s. rewrite run_bind. destruct (outcome (m s)); cbn.
  - rewrite stages_app. apply sublist_app; [apply Hm | apply Hf].
  - etrans; [apply Hm |]. by apply sublist_inserts_r.
Qed.

Lemma staged_try_finally (o : list Stage) {A} (m : M A) :
  staged o m → staged o (try_finally m close_session).
Proof. intros Hm s. unfold try_finally. cbn. rewrite app_nil_r. apply Hm. Qed.

Ltac unmarked := apply staged_unmarked; frame; try done.

Lemma staged_resolve_current_data_version : staged [] _resolve_current_data_version.
Proof.
  unfold _resolve_current_data_version, get_current_data_version, list_projects. unmarked.
Qed.

Lemma in_order_weaken (P Q : list Stage → Prop) {A} (m : M A) :
  (∀ o, P o → Q o) → in_order P m → in_order Q m.
Proof.
  intros HPQ Hm s. destruct (Hm s) as (o & Ho & H). exists o.
  split; [by apply HPQ | done].
Qed.

Lemma in_order_bind (P1 P2 : list Stage → Prop) {A B} (m : M A) (f : A → M B) :
  in_order P1 m → (∀ a, in_order P2 (f a)) → (∃ o, P2 o) →
  in_order (λ o, ∃ o1 o2, o = o1 ++ o2 ∧ P1 o1 ∧ P2 o2) (m ≫= f).
Proof.
  intros Hm Hf [o2' Ho2'] s. rewrite run_bind.
  destruct (Hm s) as (o1 & Ho1 & Hpre & Hall).
  destruct (outcome (m s)) as [a |]; cbn [emitted outcome].
  - destruct (Hf a (final (m s))) as (o2 & Ho2 & Hpre2 & Hall2).
    exists (o1 ++ o2). split; [by exists o1, o2 |].
    rewrite stages_app, Hall by done. split.
    + by apply prefix_app.
    + intros Hok. by rewrite Hall2.
  - exists (o1 ++ o2'). split; [by exists o1, o2' |]. split; [| done].
    by apply prefix_app_r.
Qed.

Lemma in_order_unmarked {A} (m : M A) : staged [] m → in_order (eq []) m.
Proof.
  intros Hm s. exists []. specialize (Hm s). apply sublist_nil_r in Hm.
  rewrite Hm. done.
Qed.

Lemma in_order_then (P : list Stage → Prop) {A B} (m : M A) (f : A → M B) :
  staged [] m → (∀ a, in_order P (f a)) → (∃ o, P o) → in_order P (m ≫= f).
Proof.
  intros Hm Hf HP.
  eapply in_order_weaken;
    [| eapply in_order_bind; [by apply in_order_unmarked | done | done]].
  by intros o (? & ? & -> & <- & ?).
Qed.

Lemma in_order_seq (o1 o2 : list Stage) {A B} (m : M A) (f : A → M B) :
  in_order (eq o1) m → (∀ a, in_order (eq o2) (f a)) → in_order (eq (o1 ++ o2)) (m ≫= f).
Proof.
  intros Hm Hf. eapply in_order_weaken; [| eapply in_order_bind; [done | done | by eexists]].
  by intros o (? & ? & -> & <- & <-).
Qed.

Lemma in_order_event (st : Stage) (ev : Event) :
  stage_of ev = Some st → in_order (eq [st]) (emit ev).
Proof. intros Hev s. exists [st]. cbn. by rewrite Hev. Qed.

Lemma in_order_external (st : Stage) c f :
  stage_of (Call c) = Some st → in_order (eq [st]) (external c f).
Proof.
  intros Hev s. exists [st]. unfold external, stages. cbn [emitted omap list_omap].
  by rewrite Hev.
Qed.

Lemma in_order_when (o : list Stage) (b : bool) (m : M unit) :
  in_order (eq o) m → in_order (eq (if b then o else [])) (when b m).
Proof. destruct b; [done |]. intros _ s. by exists []. Qed.

Lemma in_order_try_finally (P : list Stage → Prop) {A} (m : M A) :
  in_order P m → in_order P (try_finally m close_session).
Proof. intros Hm s. rewrite try_finally_close_session. apply Hm. Qed.

Lemma in_order_create_data_version v : in_order (eq [StMarker]) (create_data_version v).
Proof.
  intros s. exists [StMarker]. unfold create_data_version. unfold_run.
  destruct (data_version s); cbn; [| done].
  split; [done |]. split; [apply prefix_nil | done].
Qed.

Lemma in_order_add_default_marketplace_source config :
  in_order (λ o, ∃ seed_source : bool, o = if seed_source then [StSeedSource] else [])
           (_add_default_marketplace_source_if_needed config).
Proof.
  unfold _add_default_marketplace_source_if_needed.
  apply in_order_then; [unfold get_marketplace_source; unmarked | | by exists [], false].
  intros [src |].
  { eapply in_order_weaken; [| apply in_order_unmarked; unmarked]. intros o <-. by exists false. }
  destruct (generate_default_source config) as [hub |].
  - apply in_order_then; [unmarked | | by exists [], false]. intros _ s.
    exists [StSeedSource]. split; [by exists true | done].
  - eapply in_order_weaken; [| apply in_order_unmarked; unmarked]. intros o <-. by exists false.
Qed.

Lemma in_order_add_data_version :
  in_order (λ o, ∃ seed_marker : bool, o = if seed_marker then [StSeedMarker; StMarker] else [])
           _add_data_version.
Proof.
  unfold _add_data_version.
  apply in_order_then; [unfold get_current_data_version; unmarked | | by exists [], false].
  intros [text |].
  { eapply in_order_weaken; [| apply in_order_unmarked; unmarked]. intros o <-. by exists false. }
  apply in_order_then; [apply staged_resolve_current_data_version | | by exists [], false].
  intros v. eapply in_order_weaken;
    [| apply (in_order_seq [StSeedMarker] [StMarker]);
       [by apply in_order_event | intros _; apply in_order_create_data_version]].
  intros o <-. by exists true.
Qed.

Lemma in_order_enrich_project_state : in_order (eq [StEnrich]) _enrich_project_state.
Proof.
  unfold _enrich_project_state.
  apply (in_order_seq [StEnrich] []); [by apply in_order_event |]. intros _.
  apply in_order_unmarked. unfold list_projects, enrich_project, store_project. unmarked.
Qed.

Lemma in_order_fix_artifact_tags_duplications :
  in_order (eq [StDedup]) _fix_artifact_tags_duplications.
Proof.
  unfold _fix_artifact_tags_duplications.
  apply (in_order_seq [StDedup] []); [by apply in_order_event |]. intros _.
  apply in_order_unmarked.
  unfold _find_artifacts, query_tags, project_tags_to_delete, key_tags_to_delete,
    collect_key_tags, name_tags_to_delete, lookup_artifact, _find_last_updated_artifact,
    session_delete.
  unmarked.
Qed.

Lemma in_order_fix_datasets_large_previews N :
  in_order (eq [StPreviews]) (_fix_datasets_large_previews N).
Proof.
  unfold _fix_datasets_large_previews.
  apply (in_order_seq [StPreviews] []); [by apply in_order_event |]. intros _.
  apply in_order_unmarked.
  unfold _find_artifacts, fix_or_continue, fix_dataset_large_preview, align_preview_rows,
    align_stats, align_schema_fields, _store_artifact.
  unmarked.
Qed.

Lemma in_order_version_1 N :
  in_order (eq [StEnrich; StDedup; StPreviews]) (_perform_version_1_data_migrations N).
Proof.
  unfold _perform_version_1_data_migrations.
  apply (in_order_seq [StEnrich] [StDedup; StPreviews]);
    [apply in_order_enrich_project_state |].
  intros _. apply (in_order_seq [StDedup] [StPreviews]);
    [apply in_order_fix_artifact_tags_duplications |].
  intros _. apply in_order_fix_datasets_large_previews.
Qed.

Lemma in_order_perform_data_migrations N config :
  in_order (λ o, ∃ migrate repair : bool,
              o = (if migrate
                   then StMigrations
                          :: (if repair then [StEnrich; StDedup; StPreviews] else [])
                          ++ [StMarker]
                   else [])
              ∧ (migrate = true → data_migrations_mode config = "enabled"))
           (_perform_data_migrations N config).
Proof.
  unfold _perform_data_migrations.
  destruct (String.eqb_spec (data_migrations_mode config) "enabled") as [Hmode | _]; cbn [when].
  2: { intros s. exists []. split; [by exists false, false | done]. }
  apply in_order_then;
    [unfold get_current_data_version; unmarked | | by exists [], false, false].
  intros text. apply in_order_then; [unmarked | | by exists [], false, false].
  intros v. destruct (negb (v =? latest_data_version)); cbn [when].
  2: { intros s. exists []. split; [by exists false, false | done]. }
  eapply in_order_weaken;
    [| apply (in_order_seq [StMigrations]
                           ((if v <? 1 then [StEnrich; StDedup; StPreviews] else [])
                            ++ [StMarker])); [by apply in_order_event |];
       intros _; apply in_order_seq;
       [apply in_order_when, in_order_version_1
       | intros _; apply in_order_create_data_version]].
  intros o <-. by exists true, (v <? 1).
Qed.

Lemma in_order_init_data N init_alembic transfer init_db config from_scratch :
  in_order (λ o, ∃ seed_source seed_marker migrate repair : bool,
              o = init_data_order
                    (negb from_scratch
                     && String.eqb (database_migration_mode config) "enabled")
                    seed_source seed_marker migrate repair
              ∧ (migrate = true → data_migrations_mode config = "enabled"))
           (init_data N init_alembic transfer init_db config from_scratch).
Proof.
  unfold init_data.
  set (transferred := negb from_scratch && _).
  assert (Hschema : in_order (eq [StSchema]) (_perform_schema_migrations init_alembic config)).
  { unfold _perform_schema_migrations. apply (in_order_seq [] [StSchema]).
    - apply in_order_unmarked. unfold _is_latest_data_version.
      apply (staged_bind [] []); [| intros ?; unmarked].
      apply staged_try_finally, staged_resolve_current_data_version.
    - intros b. by apply in_order_external. }
  assert (Htransfer : in_order (eq (if transferred then [StTransfer] else []))
                               (_perform_database_migration transfer config from_scratch)).
  { unfold _perform_database_migration. fold transferred.
    apply in_order_when. by apply in_order_external. }
  assert (Hempty : ∃ o, ∃ seed_source seed_marker migrate repair : bool,
             o = init_data_order transferred seed_source seed_marker migrate repair
             ∧ (migrate = true → data_migrations_mode config = "enabled")).
  { eexists. by exists false, false, false, false. }
  apply in_order_then; [unmarked | | done]. intros _.
  eapply in_order_weaken; cycle 1.
  { eapply in_order_bind; [exact Hschema | | ].
    - intros _. eapply in_order_bind; [exact Htransfer | |].
      + intros _.
        eapply in_order_bind;
          [| intros _; apply in_order_unmarked; unmarked | by exists []].
        apply in_order_try_finally.
        eapply in_order_bind; [by apply (in_order_external StTables) | |].
        * intros _. eapply in_order_bind.
          -- unfold _add_initial_data.
             eapply in_order_bind; [apply in_order_add_default_marketplace_source | |].
             ++ intros _. apply in_order_add_data_version.
             ++ by exists [], false.
          -- intros _. apply (in_order_perform_data_migrations N config).
          -- by exists [], false, false.
        * eexists. exists [], []. split; [done |]. split.
          -- exists [], []. split; [done |]. split; by exists false.
          -- by exists false, false.
      + eexists. eexists _, []. split; [done |]. split; [| done].
        eexists [StTables], _. split; [done |]. split; [done |].
        eexists _, []. split; [done |]. split.
        * exists [], []. split; [done |]. split; by exists false.
        * by exists false, false.
    - eexists. eexists _, _. split; [done |]. split; [done |].
      eexists _, []. split; [done |]. split; [| done].
      eexists [StTables], _. split; [done |]. split; [done |].
      eexists _, []. split; [done |]. split.
      * exists [], []. split; [done |]. split; by exists false.
      * by exists false, false. }
  cbn beta. intros o (o1 & o2 & -> & <- & o3 & o4 & -> & <- & o5 & o6 & -> & Hbody & <-).
  destruct Hbody as (o7 & o8 & -> & <- & o9 & o10 & -> & Hseed & Hmig).
  destruct Hseed as (o11 & o12 & -> & [seed_source ->] & [seed_marker ->]).
  destruct Hmig as (migrate & repair & -> & Hmode).
  exists seed_source, seed_marker, migrate, repair. split; [| done].
  unfold init_data_order. by rewrite !app_nil_r, <- !app_assoc.
Qed.

(** The run of the schema migrations: the version is resolved, and alembic
    is called with what it says. *)
Lemma schema_migrations_run init_alembic config (s : Store) :
  let r := _perform_schema_migrations init_alembic config s in
  let resolved := _resolve_current_data_version s in
  match outcome resolved with
  | Raise e => r = mkRun (final resolved) (emitted resolved) (Raise e)
  | Ok v =>
      let call := CallAlembic (alembic_config_file_name config) (v =? latest_data_version)
                              (String.eqb (database_backup_mode config) "enabled") in
      emitted r = emitted resolved ++ [Call call]
  end.
Proof.
  cbn zeta. unfold _perform_schema_migrations, _is_latest_data_version.
  rewrite run_bind, run_bind, try_finally_close_session.
  destruct (outcome (_resolve_current_data_version s)) as [v | e]; [| done].
  cbn [mret M_ret outcome final emitted external]. rewrite app_nil_r.
  unfold alembic_config_file_name. done.
Qed.

(** C4, as amended.  In every run of [init_data] the version is resolved
    first: when that raises, the run raises with it and no stage is entered;
    otherwise alembic is the first collaborator called, with the answer to
    whether the version resolved is the latest.  The stages then come in this
    order: the schema is applied, the legacy database is transferred (when
    not run from scratch and the migration mode is enabled), the tables are
    made, the defaults are seeded (the default marketplace source, then the
    marker, each if it is seeded at all), and only then the data is migrated,
    which takes data migrations enabled: the data is found stale, the three
    repair passes run in their order, all or none of them, and the marker is
    written.  A run that completes has gone through exactly these stages, in
    this order; a run that raises has gone through the first of them. *)
Theorem init_data_stage_order N init_alembic transfer init_db config from_scratch s :
  let r := init_data N init_alembic transfer init_db config from_scratch s in
  match outcome (_resolve_current_data_version s) with
  | Raise e => outcome r = Raise e ∧ stages (emitted r) = []
  | Ok v =>
      head (calls (emitted r))
      = Some (CallAlembic (alembic_config_file_name config) (v =? latest_data_version)
                          (String.eqb (database_backup_mode config) "enabled"))
  end
  ∧ ∃ seed_source seed_marker migrate repair : bool,
      let order :=
        init_data_order
          (negb from_scratch && String.eqb (database_migration_mode config) "enabled")
          seed_source seed_marker migrate repair in
      stages (emitted r) `prefix_of` order
      ∧ (outcome r = Ok tt → stages (emitted r) = order)
      ∧ (migrate = true → data_migrations_mode config = "enabled").
Proof.
  cbn zeta. split.
  - pose proof (schema_migrations_run init_alembic config s) as Hschema. cbn zeta in Hschema.
    pose proof (staged_resolve_current_data_version s) as Hstages.
    apply sublist_nil_r in Hstages.
    pose proof (calls_none _ (no_call_resolve_current_data_version s)) as Hcalls.
    unfold init_data. rewrite run_bind. cbn [logger emit outcome final emitted].
    rewrite run_bind.
    destruct (outcome (_resolve_current_data_version s)) as [v | e].
    + destruct (outcome (_perform_schema_migrations init_alembic config s));
        cbn [emitted]; rewrite Hschema, ?app_assoc, !calls_app, Hcalls; done.
    + rewrite Hschema. cbn [outcome emitted app]. split; [done |].
      change (stages (?ev :: ?l)) with (stages l). done.
  - destruct (in_order_init_data N init_alembic transfer init_db config from_scratch s)
      as (order & (seed_source & seed_marker & migrate & repair & -> & Hmode) & Hpre & Hall).
    exists seed_source, seed_marker, migrate, repair. split; [done |]. split; [| done].
    intros Hok. apply Hall. by rewrite Hok.
Qed.

(** The claim C4 as it is stated does not hold: in this run the default
    marketplace source is written before the repair pass writes the project
    and before the marker is written. *)
Lemma seeding_precedes_migrations :
  let events := emitted (init_data_example (enabled "enabled") store_stale) in
  stages events
  = [StSchema; StTransfer; StTables; StSeedSource;
     StMigrations; StEnrich; StDedup; StPreviews; StMarker]
  ∧ events !! 5%nat = Some (Wrote (WMarketplaceSource "mlrun"))
  ∧ events !! 9%nat
    = Some (Wrote (WProject "default" (mkProject "default" (Some online) (Some online))))
  ∧ events !! 12%nat = Some (Wrote (WDataVersion "1")).
Proof. vm_compute. repeat split; reflexivity. Qed.

(** ** A missing table that is not recognised *)

(** C1: the code at an input where the claim fails.  What tells the code that
    the table of the marker is missing is the text [no such table] in the
    failure, which is the wording of SQLite.  With a project in the store and
    the table missing in the wording of MySQL, the other backend that
    [_perform_schema_migrations] provides for, none of the branches is taken
    and the failure is raised again, where the same store with the wording of
    SQLite resolves to the version prior to the table; [init_data] then fails
    before its first stage. *)
Theorem missing_table_not_recognised :
  let r := _resolve_current_data_version store_mysql_legacy in
  marker_failure store_mysql_legacy = Some (operational_error mysql_no_table)
  ∧ project_count store_mysql_legacy = Some 1%nat
  ∧ str_contains "no such table" mysql_no_table = false
  ∧ outcome r = Raise (operational_error mysql_no_table)
  ∧ emitted r = []
  ∧ outcome (_resolve_current_data_version store_legacy)
    = Ok data_version_prior_to_table_addition
  ∧ (let run := init_data_example (enabled "enabled") store_mysql_legacy in
     outcome run = Raise (operational_error mysql_no_table)
     ∧ stages (emitted run) = []).
Proof. vm_compute. repeat split; reflexivity. Qed.

(** ** Artifacts without update time *)

(** C7: the code at an input where the claim fails.  An artifact without
    update time makes the comparison of [_find_last_updated_artifact] raise
    [TypeError] at the first artifact handed over, before anything is logged.
    With two artifacts of a key tagged latest, none with an update time, the
    deduplication raises, no tag is deleted and the diagnostic of the last
    resort is not emitted.  With the earliest time there is as update time,
    where the last resort is reached, the tag that stays is that of the first
    artifact of the group in the order of the tags, which is the second of
    the listing. *)
Theorem no_update_time_raises :
  let group := [model 2 "default" None; model 1 "default" None] in
  let e := TypeError_ "'>' not supported between instances of 'NoneType' and 'datetime.datetime'"
  in
  (∀ first rest s, art_updated first = None →
     _find_last_updated_artifact (first :: rest) s = mkRun s [] (Raise e))
  ∧ (let r := _fix_artifact_tags_duplications store_untimed in
     group_tags "default" "model" "latest" store_untimed
     = [latest 1 "default" 2; latest 2 "default" 1]
     ∧ outcome r = Raise e
     ∧ final r = store_untimed
     ∧ emitted r = [Log Info "Fixing artifact tags duplications" []]
     ∧ log_no_update_time group ∉ emitted r)
  ∧ (let r := _fix_artifact_tags_duplications store_earliest in
     art_id <$> head (artifacts store_earliest) = Some 1%nat
     ∧ outcome r = Ok tt
     ∧ tags (final r) = [latest 1 "default" 2]).
Proof.
  cbn zeta. split; [| split].
  - intros first rest s Hnone. unfold _find_last_updated_artifact.
    cbn [last_updated_loop]. unfold last_updated_step at 1. by rewrite Hnone.
  - vm_compute. repeat split; try reflexivity.
    intros Hin. apply list_elem_of_In in Hin. cbn in Hin.
    repeat (destruct Hin as [Hin | Hin]; [discriminate |]). done.
  - vm_compute. repeat split; reflexivity.
Qed.

(** ** What the resolution of the version returns *)

Lemma resolve_current_data_version_run (s : Store) :
  let r := _resolve_current_data_version s in
  final r = s ∧
  (∀ text v, data_version s = Rows (Some text) → py_int text = Ok v →
     outcome r = Ok v ∧ emitted r = []) ∧
  (∀ exc, marker_failure s = Some exc →
     project_count s = None ∨ project_count s = Some 0%nat →
     outcome r = Ok latest_data_version ∧ emitted r = [log_no_projects exc]) ∧
  (∀ exc n, marker_failure s = Some exc → project_count s = Some (S n) →
     str_contains "no such table" (exc_str exc) = true
     ∨ exc_type exc = MLRunNotFoundError →
     outcome r = Ok data_version_prior_to_table_addition ∧
     ∃ msg, emitted r = [log_prior_version msg exc]) ∧
  (∀ exc n, marker_failure s = Some exc → project_count s = Some (S n) →
     str_contains "no such table" (exc_str exc) = false →
     exc_type exc = OperationalError →
     outcome r = Raise exc ∧ emitted r = []).
Proof.
  cbn zeta.
  destruct s as [dv ps arts tgs srcs].
  unfold _resolve_current_data_version, marker_failure, project_count,
    get_current_data_version, list_projects.
  assert (Hempty : ∀ m : gmap string ProjectRow,
             bool_decide (project_of_row <$> map_to_list m = []) = true ↔ size m = 0%nat).
  { intros m. rewrite bool_decide_eq_true. apply project_listing_empty. }
  destruct dv as [reason | [text |]]; unfold_run.
  - (* the table of the marker cannot be read *)
    destruct ps as [preason | m]; unfold_run; [crush |].
    specialize (Hempty m).
    destruct (bool_decide (project_of_row <$> map_to_list m = [])); unfold_run.
    { assert (size m = 0%nat) by naive_solver. crush. }
    assert (size m ≠ 0%nat) by naive_solver.
    destruct (str_contains "no such table" reason) eqn:Hr; unfold_run; crush.
  - (* the marker is there *)
    destruct (py_int text) as [v | e] eqn:Ht; unfold_run; [crush |].
    pose proof (py_int_raises _ _ Ht) as Hty.
    destruct e as [t msg]; simpl in Hty; subst t.
    unfold_run. crush.
  - (* the table is there, the row is not *)
    destruct ps as [preason | m]; unfold_run; [crush |].
    specialize (Hempty m).
    destruct (bool_decide (project_of_row <$> map_to_list m = [])); unfold_run.
    { assert (size m = 0%nat) by naive_solver. crush. }
    assert (size m ≠ 0%nat) by naive_solver. crush.
Qed.

(** X21. [_resolve_current_data_version] only reads.  A marker that is the
    decimal text of an integer resolves to that integer, and any marker that
    [int] reads to what [int] makes of it, whatever the projects and without
    a log line.  When reading the marker fails and the projects cannot be
    listed or there is none, the result is the latest version, also when the
    failure says that the table is missing: the projects are looked at first.
    When reading the marker fails and there is a project, the result is the
    version prior to the table if the text of the failure contains
    [no such table] or the row is missing, and the failure is raised again
    otherwise. *)
Theorem resolve_current_data_version_returns (s : Store) :
  let r := _resolve_current_data_version s in
  final r = s ∧
  (∀ z, data_version s = Rows (Some (py_str z)) → outcome r = Ok z ∧ emitted r = []) ∧
  (∀ text v, data_version s = Rows (Some text) → py_int text = Ok v →
     outcome r = Ok v ∧ emitted r = []) ∧
  (∀ exc, marker_failure s = Some exc →
     project_count s = None ∨ project_count s = Some 0%nat →
     outcome r = Ok latest_data_version ∧ emitted r = [log_no_projects exc]) ∧
  (∀ exc n, marker_failure s = Some exc → project_count s = Some (S n) →
     str_contains "no such table" (exc_str exc) = true
     ∨ exc_type exc = MLRunNotFoundError →
     outcome r = Ok data_version_prior_to_table_addition ∧
     ∃ msg, emitted r = [log_prior_version msg exc]) ∧
  (∀ exc n, marker_failure s = Some exc → project_count s = Some (S n) →
     str_contains "no such table" (exc_str exc) = false →
     exc_type exc = OperationalError →
     outcome r = Raise exc ∧ emitted r = []).
Proof.
  cbn zeta.
  destruct (resolve_current_data_version_run s)
    as (Hfinal & Hmarker & Hnone & Hprior & Hraise).
  split_and!; try done.
  intros z Hz. apply (Hmarker _ z Hz), py_int_py_str.
Qed.

Lemma resolve_current_data_version_returns_witness :
  outcome (_resolve_current_data_version store_marked) = Ok 7
  ∧ outcome (_resolve_current_data_version store_ahead) = Ok 3
  ∧ outcome (_resolve_current_data_version store_stale) = Ok 0
  ∧ emitted (_resolve_current_data_version store_new)
    = [log_no_projects (operational_error no_table)]
  ∧ outcome (_resolve_current_data_version store_legacy)
    = Ok data_version_prior_to_table_addition
  ∧ outcome (_resolve_current_data_version store_mysql_legacy)
    = Raise (operational_error mysql_no_table).
Proof.
  split_and!.
  - destruct (resolve_current_data_version_returns store_marked) as (_ & H & _).
    apply (H 7). reflexivity.
  - destruct (resolve_current_data_version_returns store_ahead) as (_ & H & _).
    apply (H 3). reflexivity.
  - destruct (resolve_current_data_version_returns store_stale) as (_ & H & _).
    apply (H 0). reflexivity.
  - destruct (resolve_current_data_version_returns store_new) as (_ & _ & _ & H & _).
    apply (H (operational_error no_table)); [reflexivity | right; reflexivity].
  - destruct (resolve_current_data_version_returns store_legacy) as (_ & _ & _ & _ & H & _).
    apply (H (operational_error no_table) 0%nat); [reflexivity | reflexivity | left; reflexivity].
  - destruct (resolve_current_data_version_returns store_mysql_legacy) as (_ & _ & _ & _ & _ & H).
    apply (H (operational_error mysql_no_table) 0%nat); reflexivity.
Defined.
